(** * WordPress data extractor: a shallow embedding of [main.py]

    The program walks the pages of a WordPress REST collection, resolves
    featured images and category/tag names, and flattens every post into one
    row.  Python values coming from the network are dynamically typed, so the
    embedding keeps them as JSON values and writes out what each operation
    does on every shape of value, including the exceptions it raises.

    Effects are explicit: a computation takes the world (the network and the
    chronological trace of everything the run did so far) and returns a result
    together with the new world. *)

From Stdlib Require Import List String Ascii ZArith Bool Lia Arith.
From Stdlib Require Import DecimalString.
From Stdlib Require DecimalPos.
Import ListNotations.
Local Open Scope string_scope.
Local Open Scope Z_scope.

Set Implicit Arguments.
Set Warnings "-register-all".

(** ** Python values *)

(** Values decoded from JSON.  Numbers are the integers (identifiers, counts
    and page numbers); fractional numbers do not occur in the model.  An
    object is the Python dict obtained from it: its keys are listed in
    insertion order. *)
Inductive json : Type :=
| JNull
| JBool (b : bool)
| JInt (z : Z)
| JStr (s : string)
| JArr (l : list json)
| JObj (o : list (string * json)).

(** A Python dict with string keys, in insertion order. *)
Definition dict := list (string * json).

(** Exception classes the program can meet.  [RequestException] stands for
    [requests.exceptions.RequestException] and all its subclasses; the others
    are the builtin classes, none of which is a request exception. *)
Inductive exn_class : Type :=
| RequestException
| ValueError
| TypeError
| KeyError
| IndexError
| AttributeError.

Record exn : Type := Exn { exn_cls : exn_class; exn_msg : string }.

Definition is_request_exception (e : exn) : bool :=
  match exn_cls e with
  | RequestException => true
  | _ => false
  end.

(** [str(n)] for an integer. *)
Definition str_of_Z (z : Z) : string := NilZero.string_of_int (Z.to_int z).

Definition str_of_nat (n : nat) : string := str_of_Z (Z.of_nat n).

(** [sep.join(l)] for a list of strings. *)
Definition join (sep : string) (l : list string) : string := String.concat sep l.

(** [repr] of a value as an f-string shows it when the value is not a string.
    String literals are shown between single quotes; the escaping Python
    applies to quotes and control characters inside them is not modelled. *)
Fixpoint py_repr (v : json) : string :=
  match v with
  | JNull => "None"
  | JBool true => "True"
  | JBool false => "False"
  | JInt z => str_of_Z z
  | JStr s => "'" ++ s ++ "'"
  | JArr l => "[" ++ join ", " (map py_repr l) ++ "]"
  | JObj o =>
      "{" ++ join ", " (map (fun kv => "'" ++ fst kv ++ "': " ++ py_repr (snd kv)) o) ++ "}"
  end.

(** [str(v)], what [f"{v}"] inserts. *)
Definition py_str (v : json) : string :=
  match v with
  | JStr s => s
  | _ => py_repr v
  end.

(** Truth value of a value in a condition. *)
Definition truthy (v : json) : bool :=
  match v with
  | JNull => false
  | JBool b => b
  | JInt z => negb (z =? 0)
  | JStr s => negb (s =? "")%string
  | JArr l => match l with [] => false | _ => true end
  | JObj o => match o with [] => false | _ => true end
  end.

Definition type_name (v : json) : string :=
  match v with
  | JNull => "NoneType"
  | JBool _ => "bool"
  | JInt _ => "int"
  | JStr _ => "str"
  | JArr _ => "list"
  | JObj _ => "dict"
  end.

(** ** Results and the effect monad *)

(** A computation returns a value, raises an exception, or (for the one
    unbounded loop of the program) is cut off by its fuel. *)
Inductive res (A : Type) : Type :=
| Val (a : A)
| Raised (e : exn)
| OutOfFuel.

Arguments Raised {A} e.
Arguments OutOfFuel {A}.

(** ** Requests, responses and the world *)

Record request : Type := Request {
  req_url : string;
  req_params : dict
}.

(** The body of a response: the JSON value it decodes to, or the message of
    the decoding error when it is not JSON. *)
Inductive body : Type :=
| Json (v : json)
| NotJson (msg : string).

Record response : Type := Response {
  status_code : Z;
  headers : list (string * string);
  resp_body : body
}.

(** What one attempt on the wire gives, as requests has it: a response; a
    transport failure (timeout, DNS, refused connection) with its message,
    which requests raises as a request exception; or an exception of another
    class, which requests lets out as it comes (urllib3's
    [LocationParseError], a [ValueError], for a host name it cannot encode). *)
Inductive outcome : Type :=
| Answer (r : response)
| Failure (msg : string)
| Error (e : exn).

(** A flat row of the table: a dict in insertion order. *)
Definition row := dict.

(** Everything a run does, in the order it does it. *)
Inductive event : Type :=
| Call (r : request)                 (* a GET asked of requests or of the session *)
| Attempt (r : request)              (* one attempt sent on the wire *)
| Sleep (seconds : Z)                (* a back-off pause of the transport *)
| StError (msg : string)             (* st.error *)
| StWarning (msg : string)           (* st.warning *)
| StSuccess (msg : string)           (* st.success *)
| StatusText (msg : string)          (* status_text.text *)
| ProgressStart                      (* st.progress(0) *)
| Progress (index total : nat)       (* progress_bar.progress(index / total) *)
| ProgressEmpty                      (* progress_bar.empty() *)
| Dataframe (rows : list row)        (* st.dataframe(df) *)
| DownloadButton (rows : list row).  (* st.download_button with the CSV of df *)

(** The network answers an attempt as a function of the attempts made before
    it and of the request: any deterministic site, stateful or not. *)
Definition server := list request -> request -> outcome.

Record world : Type := World {
  net : server;
  trace : list event
}.

Definition M (A : Type) : Type := world -> res A * world.

Definition ret {A} (a : A) : M A := fun w => (Val a, w).

Definition raise {A} (e : exn) : M A := fun w => (Raised e, w).

Definition bind {A B} (m : M A) (k : A -> M B) : M B :=
  fun w =>
    match m w with
    | (Val a, w') => k a w'
    | (Raised e, w') => (Raised e, w')
    | (OutOfFuel, w') => (OutOfFuel, w')
    end.

Declare Scope py_scope.
Delimit Scope py_scope with py.
Notation "x <- m ;; k" := (bind m (fun x => k))
  (at level 100, m at next level, right associativity) : py_scope.
Notation "m ;;; k" := (bind m (fun _ => k))
  (at level 100, right associativity) : py_scope.
Local Open Scope py_scope.

(** [try: m except cls as e: h e], for the two handlers of the program: one
    catches request exceptions only, the other every exception. *)
Definition try_except {A} (catches : exn -> bool) (m : M A) (h : exn -> M A) : M A :=
  fun w =>
    match m w with
    | (Raised e, w') => if catches e then h e w' else (Raised e, w')
    | other => other
    end.

Definition emit (e : event) : M unit :=
  fun w => (Val tt, World (net w) (trace w ++ [e])).

(** The attempts of a trace, oldest first: the history the network sees. *)
Fixpoint wire (t : list event) : list request :=
  match t with
  | [] => []
  | Attempt r :: t' => r :: wire t'
  | _ :: t' => wire t'
  end.

(** The GETs the program asked for, oldest first. *)
Fixpoint calls (t : list event) : list request :=
  match t with
  | [] => []
  | Call r :: t' => r :: calls t'
  | _ :: t' => calls t'
  end.

(** One attempt on the wire. *)
Definition attempt (r : request) : world -> outcome * world :=
  fun w => (net w (wire (trace w)) r, World (net w) (trace w ++ [Attempt r])).

(** ** Operations on Python values *)

(** Lookup in a dict with string keys. *)
Fixpoint dict_lookup (k : string) (d : dict) : option json :=
  match d with
  | [] => None
  | (k', v) :: d' => if (k =? k')%string then Some v else dict_lookup k d'
  end.

(** [d[k] = v]: the value is replaced where the key already is, and the key
    is added at the end otherwise. *)
Fixpoint dict_set (k : string) (v : json) (d : dict) : dict :=
  match d with
  | [] => [(k, v)]
  | (k', v') :: d' =>
      if (k =? k')%string then (k', v) :: d' else (k', v') :: dict_set k v d'
  end.

(** [v.get(k, default)]: only a dict has the method. *)
Definition py_get (v : json) (k : string) (default : json) : M json :=
  match v with
  | JObj o => ret (match dict_lookup k o with Some x => x | None => default end)
  | _ => raise (Exn AttributeError ("'" ++ type_name v ++ "' object has no attribute 'get'"))
  end.

(** [v[k]] for a string [k]. *)
Definition py_getitem (v : json) (k : string) : M json :=
  match v with
  | JObj o =>
      match dict_lookup k o with
      | Some x => ret x
      | None => raise (Exn KeyError ("'" ++ k ++ "'"))
      end
  | JArr _ => raise (Exn TypeError "list indices must be integers or slices, not str")
  | JStr _ => raise (Exn TypeError "string indices must be integers, not 'str'")
  | _ => raise (Exn TypeError ("'" ++ type_name v ++ "' object is not subscriptable"))
  end.

(** [v[0]]. *)
Definition py_first (v : json) : M json :=
  match v with
  | JArr (x :: _) => ret x
  | JArr [] => raise (Exn IndexError "list index out of range")
  | JStr (String c _) => ret (JStr (String c EmptyString))
  | JStr EmptyString => raise (Exn IndexError "string index out of range")
  | JObj _ => raise (Exn KeyError "0")
  | _ => raise (Exn TypeError ("'" ++ type_name v ++ "' object is not subscriptable"))
  end.

(** The number a value is, if it is one: [True] and [False] are the integers
    1 and 0. *)
Definition as_number (v : json) : option Z :=
  match v with
  | JInt z => Some z
  | JBool true => Some 1
  | JBool false => Some 0
  | _ => None
  end.

(** Equality of two values of which one at least is hashable (null, a
    boolean, an integer or a string): the comparisons the program makes, on
    the keys of a table and on the members of a list tested against a
    string. *)
Definition py_eqb (a b : json) : bool :=
  match a, b with
  | JNull, JNull => true
  | JStr s, JStr t => (s =? t)%string
  | _, _ =>
      match as_number a, as_number b with
      | Some x, Some y => x =? y
      | _, _ => false
      end
  end.

(** Whether [needle] occurs in [s]. *)
Fixpoint contains (needle s : string) : bool :=
  prefix needle s ||
  match s with
  | EmptyString => false
  | String _ s' => contains needle s'
  end.

(** ['k' in v] for a string [k]: a key of a dict, a member of a list, a
    substring of a string. *)
Definition py_in (k : string) (v : json) : M bool :=
  match v with
  | JObj o => ret (match dict_lookup k o with Some _ => true | None => false end)
  | JArr l => ret (existsb (py_eqb (JStr k)) l)
  | JStr s => ret (contains k s)
  | _ => raise (Exn TypeError ("argument of type '" ++ type_name v ++ "' is not iterable"))
  end.

Fixpoint chars (s : string) : list json :=
  match s with
  | EmptyString => []
  | String c s' => JStr (String c EmptyString) :: chars s'
  end.

(** The elements a [for] loop or [list.extend] draws from a value: the items
    of a list, the keys of a dict, the characters of a string. *)
Definition py_iter (v : json) : M (list json) :=
  match v with
  | JArr l => ret l
  | JObj o => ret (map (fun kv => JStr (fst kv)) o)
  | JStr s => ret (chars s)
  | _ => raise (Exn TypeError ("'" ++ type_name v ++ "' object is not iterable"))
  end.

(** [sep.join(l)] for a list of values: every one has to be a string. *)
Fixpoint strings_of (i : nat) (l : list json) : exn + list string :=
  match l with
  | [] => inr []
  | JStr s :: l' =>
      match strings_of (S i) l' with
      | inr ss => inr (s :: ss)
      | inl e => inl e
      end
  | v :: _ =>
      inl (Exn TypeError ("sequence item " ++ str_of_nat i ++ ": expected str instance, "
                          ++ type_name v ++ " found"))
  end.

Definition py_join (sep : string) (l : list json) : M json :=
  match strings_of 0 l with
  | inr ss => ret (JStr (join sep ss))
  | inl e => raise e
  end.

(** A dict whose keys are any hashable values: the category and tag tables. *)
Definition table := list (json * json).

Definition hashable (v : json) : bool :=
  match v with
  | JArr _ | JObj _ => false
  | _ => true
  end.

Definition unhashable (v : json) : exn :=
  Exn TypeError ("unhashable type: '" ++ type_name v ++ "'").

Fixpoint table_lookup (k : json) (t : table) : option json :=
  match t with
  | [] => None
  | (k', v) :: t' => if py_eqb k k' then Some v else table_lookup k t'
  end.

(** Insertion keeps the key already there and replaces its value. *)
Fixpoint table_set (k v : json) (t : table) : table :=
  match t with
  | [] => [(k, v)]
  | (k', v') :: t' =>
      if py_eqb k k' then (k', v) :: t' else (k', v') :: table_set k v t'
  end.

(** [t.get(k, default)]. *)
Definition table_get (t : table) (k : json) (default : json) : M json :=
  if hashable k
  then ret (match table_lookup k t with Some x => x | None => default end)
  else raise (unhashable k).

(** ** [int] of a header value *)

(** A header value is a string of Latin-1 characters, one per byte.  The
    white space [int] skips is the ASCII one (tab to carriage return, and the
    space) and, above ASCII, the next-line and no-break-space characters. *)
Definition is_space (c : ascii) : bool :=
  let n := nat_of_ascii c in
  ((9 <=? n) && (n <=? 13) || (n =? 32) || (n =? 133) || (n =? 160))%nat.

Definition digit_of (c : ascii) : option Z :=
  let n := nat_of_ascii c in
  if ((48 <=? n) && (n <=? 57))%nat then Some (Z.of_nat n - 48) else None.

Fixpoint drop_spaces (l : list ascii) : list ascii :=
  match l with
  | c :: l' => if is_space c then drop_spaces l' else l
  | [] => []
  end.

Definition strip (l : list ascii) : list ascii :=
  rev (drop_spaces (rev (drop_spaces l))).

(** Decimal digits, with single underscores allowed between digits. *)
Fixpoint digits_value (acc : Z) (after_digit : bool) (l : list ascii) : option Z :=
  match l with
  | [] => if after_digit then Some acc else None
  | c :: l' =>
      match digit_of c with
      | Some d => digits_value (acc * 10 + d) true l'
      | None =>
          if (Ascii.eqb c "_" && after_digit)%bool
          then digits_value acc false l'
          else None
      end
  end.

(** [sys.int_info.default_max_str_digits]: [int] refuses a numeral of more
    digits, the sign and the underscores not counted. *)
Definition max_str_digits : Z := 4300.

Fixpoint count_digits (l : list ascii) : Z :=
  match l with
  | [] => 0
  | c :: l' => (match digit_of c with Some _ => 1 | None => 0 end) + count_digits l'
  end.

(** A numeral without its sign. *)
Definition unsigned (l : list ascii) : list ascii :=
  match l with
  | "-"%char :: l' => l'
  | "+"%char :: l' => l'
  | _ => l
  end.

(** The integer a string denotes for [int(s)], if any: optional surrounding
    white space, an optional sign, then the digits, no more of them than
    [max_str_digits]. *)
Definition int_literal (s : string) : option Z :=
  let l := strip (list_ascii_of_string s) in
  if max_str_digits <? count_digits (unsigned l) then None
  else
    match l with
    | "-"%char :: l => option_map Z.opp (digits_value 0 false l)
    | "+"%char :: l => digits_value 0 false l
    | l => digits_value 0 false l
    end.

(** The digits of the run of digits and single underscores [l] starts with,
    as [int] counts them before it converts; none when two underscores meet
    or the run ends on one. *)
Fixpoint leading_digits (after_underscore : bool) (l : list ascii) : option Z :=
  match l with
  | [] => if after_underscore then None else Some 0
  | c :: l' =>
      match digit_of c with
      | Some _ => option_map (Z.add 1) (leading_digits false l')
      | None =>
          if Ascii.eqb c "_"
          then (if after_underscore then None else leading_digits true l')
          else (if after_underscore then None else Some 0)
      end
  end.

(** The message of the [ValueError] of [int(s)]: the numeral is too long, or
    the string is no numeral. *)
Definition int_error (s : string) : string :=
  let invalid := "invalid literal for int() with base 10: " ++ py_repr (JStr s) in
  match unsigned (strip (list_ascii_of_string s)) with
  | "_"%char :: _ => invalid
  | l =>
      match leading_digits false l with
      | Some n =>
          if max_str_digits <? n
          then "Exceeds the limit (" ++ str_of_Z max_str_digits
               ++ " digits) for integer string conversion: value has " ++ str_of_Z n
               ++ " digits; use sys.set_int_max_str_digits() to increase the limit"
          else invalid
      | None => invalid
      end
  end.

Definition py_int (s : string) : M Z :=
  match int_literal s with
  | Some z => ret z
  | None => raise (Exn ValueError (int_error s))
  end.

(** ** Headers *)

Definition lower_char (c : ascii) : ascii :=
  let n := nat_of_ascii c in
  if ((65 <=? n) && (n <=? 90))%nat then ascii_of_nat (n + 32) else c.

Fixpoint lower (s : string) : string :=
  match s with
  | EmptyString => EmptyString
  | String c s' => String (lower_char c) (lower s')
  end.

(** [headers.get(name)]: header names compare without regard to case. *)
Fixpoint header_lookup (name : string) (h : list (string * string)) : option string :=
  match h with
  | [] => None
  | (n, v) :: h' =>
      if (lower name =? lower n)%string then Some v else header_lookup name h'
  end.

(** [response.json()]: a body that does not decode raises requests'
    [JSONDecodeError], which is a request exception. *)
Definition response_json (r : response) : M json :=
  match resp_body r with
  | Json v => ret v
  | NotJson msg => raise (Exn RequestException msg)
  end.

(** ** The HTTP layer *)

(** [Retry(total, backoff_factor, status_forcelist)]. *)
Record Retry : Type := {
  total : nat;
  backoff_factor : Z;
  status_forcelist : list Z
}.

(** A session, with the retry policy of the adapter mounted on it for both
    [http://] and [https://]. *)
Record Session : Type := { max_retries : Retry }.

Definition forced (policy : Retry) (r : response) : bool :=
  existsb (Z.eqb (status_code r)) (status_forcelist policy).

(** Modelled from the spec: the retry loop of the transport, which is the
    code of urllib3 behind the adapter and not of this repository.  An
    attempt answered with a status of the force list is made again after a
    pause, at most [total] times; the pauses double from [backoff_factor]
    seconds on; once the retries are used up the last response is what the
    caller gets.  Transport failures and other exceptions are handed to the
    caller as they come.  [left] counts the retries still allowed, [made]
    those already made. *)
Fixpoint send (policy : Retry) (left made : nat) (r : request) (w : world)
  : outcome * world :=
  let (out, w1) := attempt r w in
  match out with
  | Answer resp =>
      if forced policy resp then
        match left with
        | O => (out, w1)
        | S left' =>
            let pause := Sleep (backoff_factor policy * 2 ^ Z.of_nat made) in
            send policy left' (S made) r (World (net w1) (trace w1 ++ [pause]))
        end
      else (out, w1)
  | Failure _ => (out, w1)
  | Error _ => (out, w1)
  end.

(** What the caller of requests gets from an outcome handed over. *)
Definition deliver (ow : outcome * world) : res response * world :=
  match ow with
  | (Answer resp, w) => (Val resp, w)
  | (Failure msg, w) => (Raised (Exn RequestException msg), w)
  | (Error e, w) => (Raised e, w)
  end.

(** The statuses of a redirect, for requests. *)
Definition redirect_stati : list Z := [301; 302; 303; 307; 308].

(** Where a response sends its reader: the [Location] of a response with a
    redirect status, when it has one that is not empty. *)
Definition redirect_location (r : response) : option string :=
  if existsb (Z.eqb (status_code r)) redirect_stati then
    match header_lookup "location" (headers r) with
    | Some location => if (location =? "")%string then None else Some location
    | None => None
    end
  else None.

(** The redirects requests follows for one GET ([DEFAULT_REDIRECT_LIMIT]). *)
Definition max_redirects : nat := 30.

(** A GET as requests performs it over a transport; this is the code of
    requests' session, not of this repository.  Redirects are followed
    ([allow_redirects] is on for a GET), each with an exchange of its own and
    without the query parameters, which belong to the address first asked;
    one redirect more than [redirects] raises [TooManyRedirects], a request
    exception.  The request of a hop is named by the [Location] it comes
    from: requests reads a relative [Location] against the address that
    answered, which the history of the attempts holds, and an absolute one,
    the usual case, is the address itself. *)
Fixpoint follow (transport : request -> world -> outcome * world) (redirects : nat)
    (q : request) (w : world) : res response * world :=
  let (out, w1) := transport q w in
  match out with
  | Answer resp =>
      match redirect_location resp with
      | Some location =>
          match redirects with
          | O => (Raised (Exn RequestException "Exceeded 30 redirects."), w1)
          | S redirects' => follow transport redirects' (Request location []) w1
          end
      | None => deliver (out, w1)
      end
  | _ => deliver (out, w1)
  end.

(** [session.get(url, params=params, timeout=30)]: every exchange goes
    through the adapter mounted on the session, with its retries. *)
Definition session_get (session : Session) (url : string) (params : dict) : M response :=
  let r := Request url params in
  emit (Call r) ;;;
  follow (send (max_retries session) (total (max_retries session)) 0) max_redirects r.

(** [requests.get(url, timeout=30)]: the default adapter does not retry, every
    exchange is one attempt. *)
Definition requests_get (url : string) : M response :=
  let r := Request url [] in
  emit (Call r) ;;;
  follow attempt max_redirects r.

(** ** [validate_wordpress_site] *)

Record parsed_url : Type := { scheme : string; netloc : string }.

Section Program.

(** [urllib.parse.urlparse], as far as the program uses it: the scheme and
    the network location of a URL, or the [ValueError] it raises on one it
    rejects.  The program is verified for any such function. *)
Variable urlparse : string -> exn + parsed_url.

Definition validate_wordpress_site (url : string) : M (bool * string) :=
  match urlparse url with
  | inl e => raise e
  | inr parsed =>
      if (scheme parsed =? "")%string || (netloc parsed =? "")%string
      then ret (false, "Invalid URL format. Please include the scheme (http:// or https://).")
      else
        let api_url := scheme parsed ++ "://" ++ netloc parsed ++ "/wp-json/" in
        try_except is_request_exception
          (response <- requests_get api_url ;;
           if status_code response =? 200
           then ret (true, "")
           else ret (false, "REST API returned status code "
                            ++ str_of_Z (status_code response) ++ "."))
          (fun e => ret (false, "Could not connect to the REST API: " ++ exn_msg e))
  end.

(** ** [fetch_all_pages] *)

(** [int(response.headers.get('X-WP-TotalPages', 1))]. *)
Definition total_pages_of (response : response) : M Z :=
  match header_lookup "X-WP-TotalPages" (headers response) with
  | Some s => py_int s
  | None => ret 1
  end.

(** One turn of the [while True] loop, from [params['page'] = page] to the
    [break] or the increment: the list accumulated, and the next page when
    the loop goes on.  The only statements of the [try] block that can raise
    a request exception come before [all_items.extend], so the handler finds
    the list as the turn found it. *)
Definition fetch_page (base_url : string) (params : dict) (item_name : string)
    (session : Session) (all_items : list json) (page : Z)
  : M (list json * option Z) :=
  try_except is_request_exception
    (response <- session_get session base_url params ;;
     if status_code response =? 200 then
       items <- response_json response ;;
       more <- py_iter items ;;
       let all_items := (all_items ++ more)%list in
       total_pages <- total_pages_of response ;;
       emit (StatusText ("Fetching " ++ item_name ++ ": Page " ++ str_of_Z page
                         ++ "/" ++ str_of_Z total_pages)) ;;;
       if page >=? total_pages
       then ret (all_items, None)
       else ret (all_items, Some (page + 1))
     else
       emit (StError ("Error " ++ str_of_Z (status_code response) ++ " while fetching "
                      ++ item_name ++ " page " ++ str_of_Z page)) ;;;
       ret (all_items, None))
    (fun e =>
       emit (StError ("An error occurred while fetching " ++ item_name ++ ": "
                      ++ exn_msg e)) ;;;
       ret (all_items, None)).

Fixpoint fetch_loop (fuel : nat) (base_url : string) (params : dict) (item_name : string)
    (session : Session) (all_items : list json) (page : Z) : M (list json) :=
  match fuel with
  | O => fun w => (OutOfFuel, w)
  | S fuel' =>
      let params := dict_set "page" (JInt page) params in
      turn <- fetch_page base_url params item_name session all_items page ;;
      match turn with
      | (all_items, None) => ret all_items
      | (all_items, Some page) =>
          fetch_loop fuel' base_url params item_name session all_items page
      end
  end.

(** [fetch_all_pages(base_url, params, status_text, item_name, session)]; the
    status line it writes to is part of the world.  [fuel] bounds the number
    of turns of the loop. *)
Definition fetch_all_pages (fuel : nat) (base_url : string) (params : dict)
    (item_name : string) (session : Session) : M (list json) :=
  fetch_loop fuel base_url params item_name session [] 1.

(** ** The resource fetchers *)

Definition posts_fields (categories_option tags_option : bool) : list string :=
  (["link"; "title"; "content"; "featured_media"]
   ++ (if categories_option then ["categories"] else [])
   ++ (if tags_option then ["tags"] else []))%list.

Definition posts_params (categories_option tags_option : bool) : dict :=
  [("status", JStr "publish");
   ("per_page", JInt 100);
   ("_fields", JStr (join "," (posts_fields categories_option tags_option)));
   ("_embed", JStr "wp:featuredmedia")].

Definition fetch_all_published_posts (fuel : nat) (base_site_url : string)
    (session : Session) (categories_option tags_option : bool) : M (list json) :=
  let base_url := base_site_url ++ "/wp-json/wp/v2/posts" in
  fetch_all_pages fuel base_url (posts_params categories_option tags_option)
    "articles" session.

(** [{x['id']: x['name'] for x in items}]: key, then value, then the
    insertion, which needs a hashable key. *)
Fixpoint id_name_table (items : list json) (t : table) : M table :=
  match items with
  | [] => ret t
  | x :: items' =>
      k <- py_getitem x "id" ;;
      v <- py_getitem x "name" ;;
      if hashable k
      then id_name_table items' (table_set k v t)
      else raise (unhashable k)
  end.

Definition fetch_all_categories (fuel : nat) (base_site_url : string)
    (session : Session) : M table :=
  let base_url := base_site_url ++ "/wp-json/wp/v2/categories" in
  categories <- fetch_all_pages fuel base_url [("per_page", JInt 100)] "categories" session ;;
  category_dict <- id_name_table categories [] ;;
  emit (StatusText "All categories have been fetched.") ;;;
  ret category_dict.

Definition fetch_all_tags (fuel : nat) (base_site_url : string)
    (session : Session) : M table :=
  let base_url := base_site_url ++ "/wp-json/wp/v2/tags" in
  tags <- fetch_all_pages fuel base_url [("per_page", JInt 100)] "tags" session ;;
  tag_dict <- id_name_table tags [] ;;
  emit (StatusText "All tags have been fetched.") ;;;
  ret tag_dict.

(** ** [get_image_url] *)

Definition get_image_url (post : json) (base_site_url : string) (session : Session)
  : M json :=
  let image_url := JStr "" in
  featured_media <- py_get post "featured_media" JNull ;;
  if truthy featured_media then
    embedded <- py_get post "_embedded" (JObj []) ;;
    embedded_media <- py_get embedded "wp:featuredmedia" (JArr []) ;;
    embedded_url <-
      (if truthy embedded_media then
         first <- py_first embedded_media ;;
         has_url <- py_in "source_url" first ;;
         if has_url
         then (first <- py_first embedded_media ;;
               url <- py_getitem first "source_url" ;;
               ret (Some url))
         else ret None
       else ret None) ;;
    match embedded_url with
    | Some url => ret url
    | None =>
        media_id <- py_get post "featured_media" JNull ;;
        let media_url := base_site_url ++ "/wp-json/wp/v2/media/" ++ py_str media_id in
        try_except is_request_exception
          (response <- session_get session media_url [] ;;
           if status_code response =? 200 then
             media_data <- response_json response ;;
             py_get media_data "source_url" (JStr "")
           else ret image_url)
          (fun e =>
             emit (StWarning ("Failed to fetch media ID " ++ py_str media_id ++ ": "
                              ++ exn_msg e)) ;;;
             ret image_url)
    end
  else ret image_url.

(** ** [main] *)

(** [[names.get(id, 'Unknown') for id in ids]]. *)
Fixpoint names_of_ids (names : table) (ids : list json) : M (list json) :=
  match ids with
  | [] => ret []
  | id :: ids' =>
      name <- table_get names id (JStr "Unknown") ;;
      rest <- names_of_ids names ids' ;;
      ret (name :: rest)
  end.

(** The names a post's identifiers stand for, joined: the block guarded by
    [categories_option], and the same block for tags. *)
Definition joined_names (post : json) (field : string) (names : table) : M json :=
  ids <- py_get post field (JArr []) ;;
  resolved <-
    (if truthy ids then
       ids <- py_iter ids ;;
       names_of_ids names ids
     else ret []) ;;
  py_join ", " resolved.

(** The body of the loop over the posts, up to [csv_data.append]. *)
Definition post_row (base_site_url : string) (session : Session)
    (categories_option tags_option : bool) (category_dict tag_dict : table)
    (index total_posts : nat) (post : json) : M row :=
  emit (StatusText ("Processing article " ++ str_of_nat index ++ "/"
                    ++ str_of_nat total_posts)) ;;;
  emit (Progress index total_posts) ;;;
  url <- py_get post "link" (JStr "") ;;
  title <- (t <- py_get post "title" (JObj []) ;; py_get t "rendered" (JStr "")) ;;
  content <- (c <- py_get post "content" (JObj []) ;; py_get c "rendered" (JStr "")) ;;
  image_url <- get_image_url post base_site_url session ;;
  let post_data :=
    [("url", url); ("title", title); ("content", content); ("image_url", image_url)] in
  post_data <-
    (if categories_option : bool then
       category_names <- joined_names post "categories" category_dict ;;
       ret (dict_set "categories" category_names post_data)
     else ret post_data) ;;
  post_data <-
    (if tags_option : bool then
       tag_names <- joined_names post "tags" tag_dict ;;
       ret (dict_set "tags" tag_names post_data)
     else ret post_data) ;;
  ret post_data.

(** [for index, post in enumerate(posts, start=1)]. *)
Fixpoint build_rows (base_site_url : string) (session : Session)
    (categories_option tags_option : bool) (category_dict tag_dict : table)
    (index total_posts : nat) (posts : list json) (csv_data : list row)
  : M (list row) :=
  match posts with
  | [] => ret csv_data
  | post :: posts' =>
      post_data <- post_row base_site_url session categories_option tags_option
                     category_dict tag_dict index total_posts post ;;
      build_rows base_site_url session categories_option tags_option
        category_dict tag_dict (S index) total_posts posts' (csv_data ++ [post_data])%list
  end.

(** The session [main] builds: three retries, back-off factor 1, on the five
    transient statuses. *)
Definition main_session : Session :=
  {| max_retries :=
       {| total := 3; backoff_factor := 1;
          status_forcelist := [429; 500; 502; 503; 504] |} |}.

(** The body of the [try] block of [main]: the rows, or nothing when no
    article was found. *)
Definition fetch_and_build (fuel : nat) (base_site_url : string) (session : Session)
    (categories_option tags_option : bool) : M (option (list row)) :=
  posts <- fetch_all_published_posts fuel base_site_url session
             categories_option tags_option ;;
  match posts with
  | [] => emit (StWarning "No articles found.") ;;; ret None
  | _ =>
      emit (StSuccess ("Total articles fetched: " ++ str_of_nat (List.length posts))) ;;;
      category_dict <-
        (if categories_option
         then fetch_all_categories fuel base_site_url session
         else ret []) ;;
      tag_dict <-
        (if tags_option
         then fetch_all_tags fuel base_site_url session
         else ret []) ;;
      let total_posts := List.length posts in
      emit ProgressStart ;;;
      csv_data <- build_rows base_site_url session categories_option tags_option
                    category_dict tag_dict 1 total_posts posts [] ;;
      emit ProgressEmpty ;;;
      emit (StatusText "Processing completed.") ;;;
      ret (Some csv_data)
  end.

(** [main], given what the user entered: the site URL, the two check boxes
    and whether the button was pressed. *)
Definition main (fuel : nat) (base_site_url : string)
    (categories_option tags_option : bool) (button : bool) : M unit :=
  if button then
    validation <- validate_wordpress_site base_site_url ;;
    let (is_valid_url, error_message) := validation in
    if negb is_valid_url
    then emit (StError ("URL Validation Error: " ++ error_message))
    else
      let session := main_session in
      try_except (fun _ => true)
        (built <- fetch_and_build fuel base_site_url session
                    categories_option tags_option ;;
         match built with
         | None => ret tt
         | Some csv_data =>
             emit (Dataframe csv_data) ;;;
             emit (DownloadButton csv_data)
         end)
        (fun e => emit (StError ("An error occurred: " ++ exn_msg e)))
  else ret tt.

End Program.

(** ** Sites used in the examples *)

(** A site that gives the outcomes of a list, one per attempt, and refuses the
    connection once the list is used up. *)
Definition scripted (script : list outcome) : server :=
  fun history _ => nth (List.length history) script (Failure "Connection refused").

(** A site whose answer depends on the request only. *)
Definition stateless (site : request -> outcome) : server :=
  fun _ r => site r.

(** A page of a collection: status 200, the total-pages header, an array. *)
Definition page_of (total_pages : string) (items : list json) : response :=
  Response 200 [("X-WP-TotalPages", total_pages)] (Json (JArr items)).

Definition status_only (code : Z) : response :=
  Response code [] (Json JNull).

Definition fresh (site : server) : world := World site [].

(** A reading of a URL for the examples, after [urlsplit]: the scheme is
    what precedes the first colon, in lower case, when it starts with a
    letter and is made of letters, digits, [+], [-] and [.] only; the network
    location is what follows [//] after it, up to the next [/], [?] or [#];
    a network location with one square bracket and not the other is
    refused.  The characters [urlsplit] removes before it reads (leading
    control characters and spaces, tabs and new lines) and its check of the
    host after normalisation are left out: the examples have none. *)
Definition is_letter (c : ascii) : bool :=
  let n := nat_of_ascii c in
  ((65 <=? n) && (n <=? 90) || (97 <=? n) && (n <=? 122))%nat.

Definition scheme_char (c : ascii) : bool :=
  is_letter c
  || (match digit_of c with Some _ => true | None => false end)
  || Ascii.eqb c "+" || Ascii.eqb c "-" || Ascii.eqb c ".".

Fixpoint until_colon (s : string) : option (string * string) :=
  match s with
  | EmptyString => None
  | String c s' =>
      if Ascii.eqb c ":" then Some (EmptyString, s')
      else if scheme_char c then
        match until_colon s' with
        | Some (sch, rest) => Some (String (lower_char c) sch, rest)
        | None => None
        end
      else None
  end.

Fixpoint until_delimiter (s : string) : string :=
  match s with
  | EmptyString => EmptyString
  | String c s' =>
      if Ascii.eqb c "/" || Ascii.eqb c "?" || Ascii.eqb c "#"
      then EmptyString
      else String c (until_delimiter s')
  end.

Definition plain_urlparse (url : string) : exn + parsed_url :=
  let (sch, rest) :=
    match url, until_colon url with
    | String c _, Some (String c' sch, rest) =>
        if is_letter c then (String c' sch, rest) else (EmptyString, url)
    | _, _ => (EmptyString, url)
    end in
  let host :=
    if prefix "//" rest
    then until_delimiter (substring 2 (String.length rest - 2) rest)
    else EmptyString in
  if xorb (contains "[" host) (contains "]" host)
  then inl (Exn ValueError "Invalid IPv6 URL")
  else inr {| scheme := sch; netloc := host |}.

(** ** Vocabulary of the statements *)

(** The world after some more events. *)
Definition extends (w : world) (d : list event) : world :=
  World (net w) (trace w ++ d).

(** The site answers the requests [reqs], attempted in that order after
    [history], with the responses [rs]. *)
Fixpoint answers (site : server) (history : list request)
    (reqs : list request) (rs : list response) : Prop :=
  match reqs, rs with
  | [], [] => True
  | q :: reqs', r :: rs' =>
      site history q = Answer r /\ answers site (history ++ [q]) reqs' rs'
  | _, _ => False
  end.

(** The request of page [p]: [params] with [params['page'] = p]. *)
Definition page_request (base_url : string) (params : dict) (p : Z) : request :=
  Request base_url (dict_set "page" (JInt p) params).

(** The page numbers [p], [p + 1], ..., [n] of them. *)
Definition page_numbers (p : Z) (n : nat) : list Z :=
  map (fun i => p + Z.of_nat i) (seq 0 n).

(** A successful page: status 200, a total-pages header that [int] reads as
    [N], an array as body. *)
Definition page_with_total (N : Z) (r : response) : Prop :=
  status_code r = 200 /\
  (exists h, header_lookup "X-WP-TotalPages" (headers r) = Some h /\ int_literal h = Some N) /\
  (exists items, resp_body r = Json (JArr items)).

Definition items_of (r : response) : list json :=
  match resp_body r with
  | Json (JArr items) => items
  | _ => []
  end.

(** What a successful turn of the loop leaves in the trace. *)
Definition page_events (base_url : string) (params : dict) (item_name : string)
    (total_pages : Z) (p : Z) : list event :=
  let q := page_request base_url params p in
  [Call q; Attempt q;
   StatusText ("Fetching " ++ item_name ++ ": Page " ++ str_of_Z p ++ "/"
               ++ str_of_Z total_pages)].

(** A session that does not retry a 200. *)
Definition passes_200 (session : Session) : Prop :=
  existsb (Z.eqb 200) (status_forcelist (max_retries session)) = false.

(** Two pages of a collection of three items. *)
Definition two_pages : list response :=
  [page_of "2" [JInt 1; JInt 2]; page_of "2" [JInt 3]].

(** An empty collection, as WordPress reports it: no page at all. *)
Definition empty_collection : server :=
  stateless (fun _ => Answer (page_of "0" [])).

(** The states a run of the fetch loop goes through: it starts with no item
    at page 1, and every turn that goes on leads to the next state. *)
Inductive reaches (base_url : string) (params : dict) (item_name : string)
    (session : Session) (w0 : world) : list json -> Z -> world -> Prop :=
| reaches_start : reaches base_url params item_name session w0 [] 1 w0
| reaches_turn (all_items : list json) (page : Z) (w : world)
    (all_items' : list json) (page' : Z) (w' : world) :
    reaches base_url params item_name session w0 all_items page w ->
    fetch_page base_url (dict_set "page" (JInt page) params) item_name session
      all_items page w = (Val (all_items', Some page'), w') ->
    reaches base_url params item_name session w0 all_items' page' w'.

(** A page request that fails: a status other than 200, or a request
    exception. *)
Definition failed (got : res response) : Prop :=
  match got with
  | Val r => status_code r <> 200
  | Raised e => is_request_exception e = true
  | OutOfFuel => False
  end.

(** One page, without the total-pages header. *)
Definition bare_page (items : list json) : response :=
  Response 200 [("Content-Type", "application/json")] (Json (JArr items)).

(** A first page announcing two, then a second page that is not found. *)
Definition fails_on_page_2 : server :=
  scripted [Answer (page_of "2" [JInt 1; JInt 2]);
            Answer (status_only 404)].

(** The state of the run on [fails_on_page_2] after its first turn. *)
Definition after_page_1 : world :=
  snd (fetch_page "u" [("page", JInt 1)] "articles" main_session [] 1
         (fresh fails_on_page_2)).

(** What the transport leaves in the trace when it retries [k] times: the
    attempts, with the pause before each retry. *)
Fixpoint retry_events (policy : Retry) (q : request) (made k : nat) : list event :=
  match k with
  | O => [Attempt q]
  | S k' =>
      Attempt q :: Sleep (backoff_factor policy * 2 ^ Z.of_nat made)
      :: retry_events policy q (S made) k'
  end.

(** An outcome the transport hands over without retrying. *)
Definition settled (policy : Retry) (out : outcome) : Prop :=
  match out with
  | Answer r => forced policy r = false
  | Failure _ => True
  | Error _ => True
  end.

(** A site that is unavailable twice and then serves its only page. *)
Definition recovers : server :=
  scripted [Answer (status_only 503); Answer (status_only 503);
            Answer (page_of "1" [JInt 1; JInt 2])].

(** A site that passes validation and then serves a page of posts whose
    total-pages header is not a number. *)
Definition garbled_total : server :=
  scripted [Answer (status_only 200);
            Answer (page_of "many" [JObj [("link", JStr "https://ex.org/a")]])].

(** The address [validate_wordpress_site] probes. *)
Definition api_root (parsed : parsed_url) : request :=
  Request (scheme parsed ++ "://" ++ netloc parsed ++ "/wp-json/") [].

(** A site whose REST root answers, and one that is not WordPress. *)
Definition rest_root_ok : server := scripted [Answer (status_only 200)].

Definition rest_root_missing : server := scripted [Answer (status_only 404)].

(** What [post.get('featured_media')] gives for a post that is a dict. *)
Definition featured_media_of (post : dict) : json :=
  match dict_lookup "featured_media" post with
  | Some v => v
  | None => JNull
  end.

(** The embedded media payload of a post record: the entries under
    [_embedded] / [wp:featuredmedia], none when either key is absent.  A post
    in which one of the two is present with another shape is not a post
    record. *)
Definition embedded_payload (post : dict) : option (list json) :=
  match dict_lookup "_embedded" post with
  | None => Some []
  | Some (JObj embedded) =>
      match dict_lookup "wp:featuredmedia" embedded with
      | None => Some []
      | Some (JArr entries) => Some entries
      | Some _ => None
      end
  | Some _ => None
  end.

(** The address of the fallback lookup of a media item. *)
Definition media_request (base_site_url : string) (media_id : json) : request :=
  Request (base_site_url ++ "/wp-json/wp/v2/media/" ++ py_str media_id) [].

(** Posts for the examples: one with an embedded image, one to look up. *)
Definition post_with_embed : dict :=
  [("link", JStr "https://ex.org/a");
   ("title", JObj [("rendered", JStr "A")]);
   ("content", JObj [("rendered", JStr "<p>a</p>")]);
   ("featured_media", JInt 7);
   ("categories", JArr [JInt 1; JInt 5]);
   ("_embedded",
    JObj [("wp:featuredmedia", JArr [JObj [("source_url", JStr "https://ex.org/a.png")]])])].

Definition post_without_embed : dict :=
  [("link", JStr "https://ex.org/b");
   ("title", JObj [("rendered", JStr "B")]);
   ("content", JObj [("rendered", JStr "<p>b</p>")]);
   ("featured_media", JInt 9)].

Definition post_without_image : dict :=
  [("link", JStr "https://ex.org/c");
   ("title", JObj [("rendered", JStr "C")]);
   ("content", JObj [("rendered", JStr "<p>c</p>")]);
   ("featured_media", JInt 0)].

(** A table of names, typed: identifiers (any hashable value) and the
    strings they stand for. *)
Definition names_table (names : list (json * string)) : table :=
  map (fun kn => (fst kn, JStr (snd kn))) names.

Fixpoint name_in (id : json) (names : list (json * string)) : option string :=
  match names with
  | [] => None
  | (k, n) :: names' => if py_eqb id k then Some n else name_in id names'
  end.

(** The name shown for an identifier. *)
Definition display_name (names : list (json * string)) (id : json) : string :=
  match name_in id names with
  | Some n => n
  | None => "Unknown"
  end.

Definition example_categories : list (json * string) :=
  [(JInt 1, "News"); (JInt 2, "Sport")].

(** [m] never runs out of fuel, and what it returns satisfies [Q]. *)
Definition yields {A} (m : M A) (Q : A -> Prop) : Prop :=
  forall w,
    match fst (m w) with
    | Val a => Q a
    | Raised _ => True
    | OutOfFuel => False
    end.

(** [v.get(k, default)] on a dict. *)
Definition lookup_or (o : dict) (k : string) (default : json) : json :=
  match dict_lookup k o with
  | Some x => x
  | None => default
  end.

(** The columns of a row, in order. *)
Definition row_keys (categories_option tags_option : bool) : list string :=
  (["url"; "title"; "content"; "image_url"]
   ++ (if categories_option then ["categories"] else [])
   ++ (if tags_option then ["tags"] else []))%list.

(** [r] is the row of [post]: it has the columns the options ask for, and its
    link, title and content are those of the post. *)
Definition row_of (categories_option tags_option : bool) (post : json) (r : row) : Prop :=
  map fst r = row_keys categories_option tags_option /\
  exists o title content,
    post = JObj o /\
    lookup_or o "title" (JObj []) = JObj title /\
    lookup_or o "content" (JObj []) = JObj content /\
    dict_lookup "url" r = Some (lookup_or o "link" (JStr "")) /\
    dict_lookup "title" r = Some (lookup_or title "rendered" (JStr "")) /\
    dict_lookup "content" r = Some (lookup_or content "rendered" (JStr "")).


(** A site with two posts, one category page and a media item. *)
Definition small_site : server :=
  scripted [Answer (page_of "1" [JObj post_with_embed; JObj post_without_embed]);
            Answer (page_of "1" [JObj [("id", JInt 1); ("name", JStr "News")]]);
            Answer (Response 200 [] (Json (JObj [("source_url", JStr "https://ex.org/b.png")])))].

(** From [w1] and from [w2] on, the network answers alike: whatever
    attempts are made next, the same ones get the same outcomes. *)
Definition same_answers (w1 w2 : world) : Prop :=
  forall (next : list request) (q : request),
    net w1 (wire (trace w1) ++ next)%list q = net w2 (wire (trace w2) ++ next)%list q.

(** [m] does the same from any two worlds in which the network answers
    alike: the same result and the same events, whatever came before. *)
Definition framed {A} (m : M A) : Prop :=
  forall w1 w2, same_answers w1 w2 ->
    exists (out : res A) (d : list event),
      m w1 = (out, extends w1 d) /\ m w2 = (out, extends w2 d).

(** A site that does not change: its answer depends on the address only. *)
Definition steady_site : server :=
  stateless (fun q =>
    if (req_url q =? "https://ex.org/wp-json/")%string then Answer (status_only 200)
    else if (req_url q =? "https://ex.org/wp-json/wp/v2/posts")%string
         then Answer (page_of "1" [JObj post_with_embed; JObj post_without_image])
    else if (req_url q =? "https://ex.org/wp-json/wp/v2/categories")%string
         then Answer (page_of "1" [JObj [("id", JInt 1); ("name", JStr "News")]])
    else Answer (status_only 404)).

(** The tables a run showed. *)
Fixpoint tables (t : list event) : list (list row) :=
  match t with
  | [] => []
  | Dataframe rows :: t' => rows :: tables t'
  | _ :: t' => tables t'
  end.

(** A list of identifiers as the API sends it: absent, or an array of
    hashable values. *)
Definition plain_ids (o : dict) (field : string) : Prop :=
  dict_lookup field o = None \/
  exists ids, dict_lookup field o = Some (JArr ids) /\
              Forall (fun id => hashable id = true) ids.

(** A post record whose row needs nothing from the network: title and
    content are objects (or absent), the image is absent or embedded, and the
    lists of identifiers are plain. *)
Definition plain_post (post : json) : Prop :=
  exists o,
    post = JObj o /\
    (exists t, lookup_or o "title" (JObj []) = JObj t) /\
    (exists c, lookup_or o "content" (JObj []) = JObj c) /\
    (truthy (featured_media_of o) = false \/
     exists entry rest url,
       truthy (featured_media_of o) = true /\
       embedded_payload o = Some (JObj entry :: rest) /\
       dict_lookup "source_url" entry = Some url) /\
    plain_ids o "categories" /\
    plain_ids o "tags".



(** A category or a tag as fetched: an identifier and a name. *)
Definition term_json (kn : json * string) : json :=
  JObj [("id", fst kn); ("name", JStr (snd kn))].

(** Insertion in a typed table of names; the last name given for an
    identifier wins, at the place the identifier first had. *)
Fixpoint names_set (k : json) (n : string) (names : list (json * string))
  : list (json * string) :=
  match names with
  | [] => [(k, n)]
  | (k', n') :: names' =>
      if py_eqb k k' then (k', n) :: names' else (k', n') :: names_set k n names'
  end.

(** No response of the site announces more than [T] pages. *)
Definition totals_at_most (site : server) (T : Z) : Prop :=
  forall (history : list request) (q : request) (r : response) (h : string) (N : Z),
    site history q = Answer r ->
    header_lookup "X-WP-TotalPages" (headers r) = Some h ->
    int_literal h = Some N ->
    N <= T.

(** A site that serves the same page to every request, and says there are
    two. *)
Definition same_page_of_two : server :=
  stateless (fun _ => Answer (page_of "2" [JStr "post"])).

(** A first page announcing two, then a second page that is not JSON but the
    HTML of a proxy. *)
Definition html_on_page_2 : server :=
  scripted [Answer (page_of "2" [JInt 1; JInt 2]);
            Answer (Response 200 [] (NotJson "Expecting value: line 1 column 1 (char 0)"))].

(** A site that answers the collection with 200 and the number 5. *)
Definition number_body : server :=
  scripted [Answer (Response 200 [] (Json (JInt 5)))].

(** A site that answers the collection with 200 and an error object. *)
Definition error_object_body : server :=
  scripted [Answer (Response 200 []
                      (Json (JObj [("code", JStr "rest_disabled");
                                   ("message", JStr "The REST API is disabled.")])))].

(** The name the last of the fetched terms gives to an identifier. *)
Definition last_name (id : json) (terms : list (json * string)) : option string :=
  fold_left (fun found kn => if py_eqb id (fst kn) then Some (snd kn) else found)
    terms None.

(** Categories as fetched, one of them twice under two names. *)
Definition renamed_terms : list (json * string) :=
  [(JInt 1, "News"); (JInt 2, "Sport"); (JInt 1, "Latest")].

Definition renamed_site : server :=
  scripted [Answer (page_of "1" (map term_json renamed_terms))].

(** A site whose categories lack a name. *)
Definition nameless_site : server :=
  scripted [Answer (page_of "1" [term_json (JInt 1, "News"); JObj [("id", JInt 2)]])].

(** [m] only adds to the trace, and the calls it adds satisfy [Q]. *)
Definition emits {A} (m : M A) (Q : list request -> Prop) : Prop :=
  forall w, exists d, snd (m w) = extends w d /\ Q (calls d).

(** No call, or the lookup of one media item. *)
Definition media_lookup_or_nothing (base_site_url : string) (l : list request) : Prop :=
  l = [] \/ exists media_id, l = [media_request base_site_url media_id].

(** The GETs a run of [main] may make: the probe of the REST root, the
    collection of posts, those of categories and of tags when the option is
    on, and single media items. *)
Definition allowed_request (urlparse : string -> exn + parsed_url)
    (base_site_url : string) (categories_option tags_option : bool) (q : request) : Prop :=
  (exists parsed, urlparse base_site_url = inr parsed /\ q = api_root parsed) \/
  (exists p, q = page_request (base_site_url ++ "/wp-json/wp/v2/posts")
                   (posts_params categories_option tags_option) p) \/
  (categories_option = true /\
   exists p, q = page_request (base_site_url ++ "/wp-json/wp/v2/categories")
                   [("per_page", JInt 100)] p) \/
  (tags_option = true /\
   exists p, q = page_request (base_site_url ++ "/wp-json/wp/v2/tags")
                   [("per_page", JInt 100)] p) \/
  (exists media_id, q = media_request base_site_url media_id).

(** A first page of posts that is not found. *)
Definition posts_missing : server :=
  scripted [Answer (status_only 200); Answer (status_only 404)].

(** A media endpoint that answers with the item. *)
Definition media_found : server :=
  scripted [Answer (Response 200 []
                      (Json (JObj [("id", JInt 9);
                                   ("source_url", JStr "https://ex.org/b.png")])))].

(** A site whose REST root answers and which has no post. *)
Definition no_posts : server :=
  scripted [Answer (status_only 200); Answer (page_of "0" [])].

(** The number a decimal numeral denotes after the digits read so far
    amount to [acc]. *)
Fixpoint uint_value (acc : Z) (d : Decimal.uint) : Z :=
  match d with
  | Decimal.Nil => acc
  | Decimal.D0 d' => uint_value (acc * 10 + 0) d'
  | Decimal.D1 d' => uint_value (acc * 10 + 1) d'
  | Decimal.D2 d' => uint_value (acc * 10 + 2) d'
  | Decimal.D3 d' => uint_value (acc * 10 + 3) d'
  | Decimal.D4 d' => uint_value (acc * 10 + 4) d'
  | Decimal.D5 d' => uint_value (acc * 10 + 5) d'
  | Decimal.D6 d' => uint_value (acc * 10 + 6) d'
  | Decimal.D7 d' => uint_value (acc * 10 + 7) d'
  | Decimal.D8 d' => uint_value (acc * 10 + 8) d'
  | Decimal.D9 d' => uint_value (acc * 10 + 9) d'
  end.

(** The number of digits of the decimal numeral of an integer. *)
Definition decimal_digits (z : Z) : Z :=
  Z.of_nat (String.length (str_of_Z (Z.abs z))).

(** A site that always announces one page more than the page asked for. *)
Definition one_more_page : server :=
  stateless (fun q =>
    match dict_lookup "page" (req_params q) with
    | Some (JInt p) => Answer (page_of (str_of_Z (p + 1)) [JStr "post"])
    | _ => Answer (status_only 400)
    end).

(** The GET of [q] on a site after [history], as requests performs it
    without retrying: the requests attempted, each once, and what the GET
    ends with.  A response that is no redirect is the result; a transport
    failure is raised as a request exception and another exception as it is;
    a redirect leads to the request of its [Location], as long as [redirects]
    allows. *)
Inductive lands (site : server)
  : list request -> nat -> request -> list request -> res response -> Prop :=
| lands_answer (history : list request) (redirects : nat) (q : request) (r : response) :
    site history q = Answer r ->
    redirect_location r = None ->
    lands site history redirects q [q] (Val r)
| lands_failure (history : list request) (redirects : nat) (q : request) (msg : string) :
    site history q = Failure msg ->
    lands site history redirects q [q] (Raised (Exn RequestException msg))
| lands_error (history : list request) (redirects : nat) (q : request) (e : exn) :
    site history q = Error e ->
    lands site history redirects q [q] (Raised e)
| lands_redirect (history : list request) (redirects : nat) (q : request) (r : response)
    (location : string) (hops : list request) (out : res response) :
    site history q = Answer r ->
    redirect_location r = Some location ->
    lands site (history ++ [q]) redirects (Request location []) hops out ->
    lands site history (S redirects) q (q :: hops) out
| lands_too_many (history : list request) (q : request) (r : response) (location : string) :
    site history q = Answer r ->
    redirect_location r = Some location ->
    lands site history 0 q [q] (Raised (Exn RequestException "Exceeded 30 redirects.")).

(** What the validator makes of the end of its GET. *)
Definition validation_of (out : res response) : res (bool * string) :=
  match out with
  | Val r =>
      if status_code r =? 200
      then Val (true, "")
      else Val (false, "REST API returned status code " ++ str_of_Z (status_code r) ++ ".")
  | Raised e =>
      if is_request_exception e
      then Val (false, "Could not connect to the REST API: " ++ exn_msg e)
      else Raised e
  | OutOfFuel => OutOfFuel
  end.

(** A redirect to another address. *)
Definition moved_to (code : Z) (location : string) : response :=
  Response code [("Location", location)] (Json JNull).

(** A site whose REST root has moved, once, and one that redirects to itself
    for ever. *)
Definition moved_root : server :=
  scripted [Answer (moved_to 301 "https://www.ex.org/wp-json/"); Answer (status_only 200)].

Definition redirect_loop : server :=
  stateless (fun q => Answer (moved_to 302 (req_url q))).

(** A site whose host name urllib3 cannot encode. *)
Definition unparsable_host : server :=
  stateless (fun _ =>
    Error (Exn ValueError "Failed to parse: 'www..example.com', label empty or too long")).

(** ** Basic facts *)

Unset Implicit Arguments.

Lemma wire_app (t u : list event) : wire (t ++ u) = (wire t ++ wire u)%list.
Proof.
  induction t as [|e t IH]; simpl; [reflexivity|].
  destruct e; simpl; rewrite IH; reflexivity.
Qed.

Lemma calls_app (t u : list event) : calls (t ++ u) = (calls t ++ calls u)%list.
Proof.
  induction t as [|e t IH]; simpl; [reflexivity|].
  destruct e; simpl; rewrite IH; reflexivity.
Qed.

Lemma extends_extends (w : world) (d e : list event) :
  extends (extends w d) e = extends w (d ++ e).
Proof. unfold extends; simpl. now rewrite app_assoc. Qed.

Lemma extends_nil (w : world) : extends w [] = w.
Proof. destruct w; unfold extends; simpl. now rewrite app_nil_r. Qed.

Lemma dict_set_twice (k : string) (u v : json) (d : dict) :
  dict_set k v (dict_set k u d) = dict_set k v d.
Proof.
  induction d as [|[k' v'] d IH]; simpl.
  - now rewrite String.eqb_refl.
  - destruct (k =? k')%string eqn:E; simpl; rewrite E; [reflexivity|now rewrite IH].
Qed.

Lemma page_request_set (base_url : string) (params : dict) (v : json) (p : Z) :
  page_request base_url (dict_set "page" v params) p = page_request base_url params p.
Proof. unfold page_request. now rewrite dict_set_twice. Qed.

(** An attempt whose answer is not on the force list is the only one. *)
Lemma send_once (policy : Retry) (left made : nat) (q : request) (w : world) (r : response) :
  net w (wire (trace w)) q = Answer r ->
  forced policy r = false ->
  send policy left made q w = (Answer r, extends w [Attempt q]).
Proof.
  intros Hnet Hpass. destruct left; simpl; unfold attempt; rewrite Hnet, Hpass; reflexivity.
Qed.

Lemma send_failure (policy : Retry) (left made : nat) (q : request) (w : world) (msg : string) :
  net w (wire (trace w)) q = Failure msg ->
  send policy left made q w = (Failure msg, extends w [Attempt q]).
Proof.
  intros Hnet. destruct left; simpl; unfold attempt; rewrite Hnet; reflexivity.
Qed.

Lemma forced_200 (session : Session) (r : response) :
  passes_200 session -> status_code r = 200 -> forced (max_retries session) r = false.
Proof. unfold passes_200, forced. intros H ->. exact H. Qed.

(** A response answered 200 is no redirect. *)
Lemma redirect_location_200 (r : response) :
  status_code r = 200 -> redirect_location r = None.
Proof. unfold redirect_location. intros ->. reflexivity. Qed.

(** An exchange that ends with a response that is no redirect ends the GET,
    and so does one that ends without a response. *)
Lemma follow_settled (transport : request -> world -> outcome * world) (redirects : nat)
    (q : request) (w : world) (out : outcome) (w1 : world) :
  transport q w = (out, w1) ->
  match out with
  | Answer r => redirect_location r = None
  | _ => True
  end ->
  follow transport redirects q w = deliver (out, w1).
Proof.
  intros Ht Hout. destruct redirects; cbn [follow]; rewrite Ht;
    destruct out as [r|msg|e]; try reflexivity; rewrite Hout; reflexivity.
Qed.

(** An exchange that ends with a redirect is followed by that of its
    [Location]. *)
Lemma follow_redirect (transport : request -> world -> outcome * world) (redirects : nat)
    (q : request) (w : world) (r : response) (location : string) (w1 : world) :
  transport q w = (Answer r, w1) ->
  redirect_location r = Some location ->
  follow transport (S redirects) q w = follow transport redirects (Request location []) w1.
Proof. intros Ht Hr. cbn [follow]. rewrite Ht, Hr. reflexivity. Qed.

Lemma wire_after_call (w : world) (q : request) :
  wire (trace (extends w [Call q])) = wire (trace w).
Proof. cbn [extends trace]. rewrite wire_app. cbn [wire]. apply app_nil_r. Qed.

(** A GET of the session answered at once with an unforced response that is
    no redirect. *)
Lemma session_get_once (session : Session) (url : string) (params : dict)
    (w : world) (r : response) :
  net w (wire (trace w)) (Request url params) = Answer r ->
  forced (max_retries session) r = false ->
  redirect_location r = None ->
  session_get session url params w
  = (Val r, extends w [Call (Request url params); Attempt (Request url params)]).
Proof.
  intros Hnet Hpass Hred. unfold session_get, bind, emit. cbn beta iota.
  fold (extends w [Call (Request url params)]).
  rewrite (follow_settled _ _ _ _ (Answer r)
             (extends (extends w [Call (Request url params)])
                [Attempt (Request url params)])).
  - rewrite extends_extends. reflexivity.
  - apply send_once; [|exact Hpass]. rewrite wire_after_call. exact Hnet.
  - exact Hred.
Qed.

(** ** The turns of the fetch loop *)

(** A turn answered 200 with an array and a readable total. *)
Lemma fetch_page_ok (base_url : string) (params : dict) (item_name : string)
    (session : Session) (all_items : list json) (page : Z) (w : world)
    (r : response) (items : list json) (N : Z) :
  passes_200 session ->
  net w (wire (trace w)) (Request base_url params) = Answer r ->
  status_code r = 200 ->
  resp_body r = Json (JArr items) ->
  (forall w', total_pages_of r w' = (Val N, w')) ->
  fetch_page base_url params item_name session all_items page w
  = (Val ((all_items ++ items)%list, if page >=? N then None else Some (page + 1)),
     extends w [Call (Request base_url params); Attempt (Request base_url params);
                StatusText ("Fetching " ++ item_name ++ ": Page " ++ str_of_Z page
                            ++ "/" ++ str_of_Z N)]).
Proof.
  intros Hs Hnet Hst Hbody Htot.
  unfold fetch_page, try_except, bind.
  rewrite (session_get_once session base_url params w r Hnet (forced_200 session r Hs Hst)
             (redirect_location_200 r Hst)).
  rewrite Hst. simpl. unfold response_json. rewrite Hbody. simpl.
  rewrite Htot. simpl.
  destruct (page >=? N); simpl; unfold extends; simpl; rewrite <- app_assoc; reflexivity.
Qed.

Lemma total_pages_of_header (r : response) (h : string) (N : Z) (w : world) :
  header_lookup "X-WP-TotalPages" (headers r) = Some h ->
  int_literal h = Some N ->
  total_pages_of r w = (Val N, w).
Proof.
  intros Hh Hi. unfold total_pages_of, py_int. rewrite Hh, Hi. reflexivity.
Qed.

Lemma total_pages_of_missing (r : response) (w : world) :
  header_lookup "X-WP-TotalPages" (headers r) = None ->
  total_pages_of r w = (Val 1, w).
Proof. intros Hh. unfold total_pages_of. rewrite Hh. reflexivity. Qed.

(** The loop overwrites [params['page']] first: what it held does not matter. *)
Lemma fetch_loop_params (fuel : nat) (base_url : string) (params : dict) (v : json)
    (item_name : string) (session : Session) (all_items : list json) (page : Z) :
  fetch_loop fuel base_url (dict_set "page" v params) item_name session all_items page
  = fetch_loop fuel base_url params item_name session all_items page.
Proof.
  destruct fuel; simpl; [reflexivity|]. now rewrite dict_set_twice.
Qed.

(** The loop after a turn that goes on, and after one that stops. *)
Lemma fetch_loop_continue (fuel : nat) (base_url : string) (params : dict)
    (item_name : string) (session : Session) (all_items all_items' : list json)
    (page page' : Z) (w w' : world) :
  fetch_page base_url (dict_set "page" (JInt page) params) item_name session
    all_items page w = (Val (all_items', Some page'), w') ->
  fetch_loop (S fuel) base_url params item_name session all_items page w
  = fetch_loop fuel base_url params item_name session all_items' page' w'.
Proof.
  intros H. simpl. unfold bind at 1. rewrite H. apply (f_equal (fun f => f w')).
  apply fetch_loop_params.
Qed.

Lemma fetch_loop_stop (fuel : nat) (base_url : string) (params : dict)
    (item_name : string) (session : Session) (all_items all_items' : list json)
    (page : Z) (w w' : world) :
  fetch_page base_url (dict_set "page" (JInt page) params) item_name session
    all_items page w = (Val (all_items', None), w') ->
  fetch_loop (S fuel) base_url params item_name session all_items page w
  = (Val all_items', w').
Proof. intros H. simpl. unfold bind at 1. rewrite H. reflexivity. Qed.

Lemma fetch_loop_raise (fuel : nat) (base_url : string) (params : dict)
    (item_name : string) (session : Session) (all_items : list json)
    (page : Z) (w w' : world) (e : exn) :
  fetch_page base_url (dict_set "page" (JInt page) params) item_name session
    all_items page w = (Raised e, w') ->
  fetch_loop (S fuel) base_url params item_name session all_items page w
  = (Raised e, w').
Proof. intros H. simpl. unfold bind at 1. rewrite H. reflexivity. Qed.

Lemma page_numbers_S (p : Z) (n : nat) :
  page_numbers p (S n) = p :: page_numbers (p + 1) n.
Proof.
  unfold page_numbers. simpl. rewrite Z.add_0_r. f_equal.
  rewrite <- seq_shift, map_map. apply map_ext. intros i. lia.
Qed.

(** The loop over pages [p], [p + 1], ... answered by [rs], all of which but
    the last announce more pages than were fetched. *)
Lemma fetch_loop_pages (base_url : string) (params : dict) (item_name : string)
    (session : Session) (N : Z) (rs : list response) :
  passes_200 session ->
  Forall (page_with_total N) rs ->
  rs <> [] ->
  forall (p : Z) (all_items : list json) (w : world) (fuel : nat),
  answers (net w) (wire (trace w))
    (map (page_request base_url params) (page_numbers p (List.length rs))) rs ->
  p + Z.of_nat (List.length rs) - 1 >= N ->
  (forall i : nat, (S i < List.length rs)%nat -> p + Z.of_nat i < N) ->
  (List.length rs <= fuel)%nat ->
  fetch_loop fuel base_url params item_name session all_items p w
  = (Val (all_items ++ List.concat (map items_of rs))%list,
     extends w (flat_map (page_events base_url params item_name N)
                  (page_numbers p (List.length rs)))).
Proof.
  intros Hs Hall. induction Hall as [|r rs Hr Hrs IH]; intros Hne p acc w fuel Hans Hlast Hmore Hfuel.
  - congruence.
  - destruct Hr as (Hst & (h & Hh & Hi) & (items & Hbody)).
    cbn [List.length] in Hans |- *.
    rewrite page_numbers_S in Hans |- *. simpl in Hans. destruct Hans as [Hnet Hans].
    destruct fuel as [|fuel]; [simpl in Hfuel; lia|].
    assert (Hturn := fetch_page_ok _ _ item_name session acc p w r items N
                       Hs Hnet Hst Hbody (fun w' => total_pages_of_header r h N w' Hh Hi)).
    assert (Hitems : items_of r = items) by (unfold items_of; now rewrite Hbody).
    destruct rs as [|r' rs'].
    + simpl in Hlast. assert (Hge : (p >=? N) = true) by (apply Z.geb_le; lia).
      rewrite Hge in Hturn.
      rewrite (fetch_loop_stop fuel _ _ _ _ _ _ _ _ _ Hturn).
      cbn [map List.concat flat_map]. rewrite Hitems.
      unfold page_numbers. cbn [seq map flat_map List.length]. rewrite !app_nil_r. reflexivity.
    + assert (Hlt : (p >=? N) = false).
      { specialize (Hmore 0%nat). simpl in Hmore.
        destruct (p >=? N) eqn:E; [apply Z.geb_le in E; lia|reflexivity]. }
      rewrite Hlt in Hturn.
      rewrite (fetch_loop_continue fuel _ _ _ _ _ _ _ _ _ _ Hturn).
      rewrite IH.
      * rewrite extends_extends. cbn [map List.concat flat_map].
        rewrite Hitems, <- app_assoc. reflexivity.
      * discriminate.
      * cbn [net trace extends]. rewrite wire_app. cbn [wire]. exact Hans.
      * simpl List.length in *. lia.
      * intros i Hi'. specialize (Hmore (S i)). simpl List.length in *. 
        assert (Hm : p + Z.of_nat (S i) < N) by (apply Hmore; lia). lia.
      * simpl List.length in *. lia.
Qed.

(** ** Walking all the pages *)

Lemma length_concat_items (rs : list response) :
  List.length (List.concat (map items_of rs))
  = list_sum (map (fun r => List.length (items_of r)) rs).
Proof.
  induction rs as [|r rs IH]; simpl; [reflexivity|].
  now rewrite length_app, IH.
Qed.

Lemma calls_page_events (base_url : string) (params : dict) (item_name : string)
    (N : Z) (ps : list Z) :
  calls (flat_map (page_events base_url params item_name N) ps)
  = map (page_request base_url params) ps.
Proof.
  induction ps as [|p ps IH]; simpl; [reflexivity|]. now rewrite IH.
Qed.

Lemma wire_page_events (base_url : string) (params : dict) (item_name : string)
    (N : Z) (ps : list Z) :
  wire (flat_map (page_events base_url params item_name N) ps)
  = map (page_request base_url params) ps.
Proof.
  induction ps as [|p ps IH]; simpl; [reflexivity|]. now rewrite IH.
Qed.

(** C1, as the code has it.  When every page request is answered 200 with an
    array and a total-pages header that reads as [N], the fetcher asks for
    pages 1, 2, ..., [max 1 N] in that order, once each and nothing else,
    and returns the arrays put end to end: [N] requests when [N] is at
    least 1, and one request, for page 1, when the header reads 0 or less.
    The length of the result is the sum of the lengths of the pages, and as
    many turns of fuel as there are pages are enough. *)
Theorem fetch_all_pages_walks_pages
    (base_url : string) (params : dict) (item_name : string) (session : Session)
    (N : Z) (rs : list response) (w : world) (fuel : nat) :
  passes_200 session ->
  Forall (page_with_total N) rs ->
  List.length rs = Z.to_nat (Z.max 1 N) ->
  answers (net w) (wire (trace w))
    (map (page_request base_url params) (page_numbers 1 (List.length rs))) rs ->
  (List.length rs <= fuel)%nat ->
  exists w',
    fetch_all_pages fuel base_url params item_name session w
    = (Val (List.concat (map items_of rs)), w') /\
    net w' = net w /\
    trace w' = (trace w ++ flat_map (page_events base_url params item_name N)
                             (page_numbers 1 (List.length rs)))%list /\
    calls (trace w') = (calls (trace w)
                        ++ map (page_request base_url params)
                             (page_numbers 1 (List.length rs)))%list /\
    wire (trace w') = (wire (trace w)
                       ++ map (page_request base_url params)
                            (page_numbers 1 (List.length rs)))%list /\
    List.length (List.concat (map items_of rs))
    = list_sum (map (fun r => List.length (items_of r)) rs).
Proof.
  intros Hs Hall Hlen Hans Hfuel.
  eexists. split.
  - unfold fetch_all_pages.
    rewrite (fetch_loop_pages base_url params item_name session N rs Hs Hall).
    + reflexivity.
    + intros ->. simpl in Hlen. lia.
    + exact Hans.
    + lia.
    + intros i Hi. lia.
    + exact Hfuel.
  - cbn [net trace extends]. rewrite calls_app, wire_app, calls_page_events, wire_page_events.
    repeat split. apply length_concat_items.
Qed.

Lemma fetch_all_pages_walks_pages_witness :
  exists w',
    fetch_all_pages 2 "u" [] "articles" main_session (fresh (scripted (map Answer two_pages)))
    = (Val [JInt 1; JInt 2; JInt 3], w') /\
    net w' = scripted (map Answer two_pages) /\
    trace w' = flat_map (page_events "u" [] "articles" 2) [1; 2] /\
    calls (trace w') = [page_request "u" [] 1; page_request "u" [] 2] /\
    wire (trace w') = [page_request "u" [] 1; page_request "u" [] 2] /\
    3%nat = 3%nat.
Proof.
  refine (fetch_all_pages_walks_pages "u" [] "articles" main_session 2 two_pages
            (fresh (scripted (map Answer two_pages))) 2 _ _ _ _ _).
  - reflexivity.
  - repeat constructor; eexists; try split; reflexivity.
  - reflexivity.
  - simpl. repeat split.
  - simpl. lia.
Defined.

(** C1 as stated fails when the header reads 0, which is what WordPress
    sends for an empty collection: every response carries the total 0 and an
    array, and the fetcher makes one page request, not none. *)
Lemma fetch_all_pages_total_zero :
  let run := fetch_all_pages 3 "u" [] "articles" main_session (fresh empty_collection) in
  page_with_total 0 (page_of "0" []) /\
  fst run = Val [] /\
  calls (trace (snd run)) = [page_request "u" [] 1] /\
  List.length (calls (trace (snd run))) <> Z.to_nat 0.
Proof.
  simpl. repeat split.
  - eexists; split; reflexivity.
  - eexists; reflexivity.
  - discriminate.
Qed.

(** C7.  A first response with status 200, an array and no total-pages header
    is read as the only page: the fetcher makes that one request, reports
    page 1 of 1 and returns the items of the page. *)
Theorem fetch_all_pages_without_total
    (base_url : string) (params : dict) (item_name : string) (session : Session)
    (r : response) (items : list json) (w : world) (fuel : nat) :
  passes_200 session ->
  net w (wire (trace w)) (page_request base_url params 1) = Answer r ->
  status_code r = 200 ->
  header_lookup "X-WP-TotalPages" (headers r) = None ->
  resp_body r = Json (JArr items) ->
  exists w',
    fetch_all_pages (S fuel) base_url params item_name session w = (Val items, w') /\
    trace w' = (trace w ++ page_events base_url params item_name 1 1)%list /\
    calls (trace w') = (calls (trace w) ++ [page_request base_url params 1])%list /\
    wire (trace w') = (wire (trace w) ++ [page_request base_url params 1])%list.
Proof.
  intros Hs Hnet Hst Hh Hbody.
  assert (Hturn := fetch_page_ok _ _ item_name session [] 1 w r items 1
                     Hs Hnet Hst Hbody (fun w' => total_pages_of_missing r w' Hh)).
  eexists. split.
  - unfold fetch_all_pages. rewrite (fetch_loop_stop fuel _ _ _ _ _ _ _ _ _ Hturn).
    reflexivity.
  - cbn [trace extends]. rewrite calls_app, wire_app. repeat split.
Qed.

Lemma fetch_all_pages_without_total_witness :
  exists w',
    fetch_all_pages 1 "u" [] "articles" main_session
      (fresh (scripted [Answer (bare_page [JInt 1; JInt 2])]))
    = (Val [JInt 1; JInt 2], w') /\
    trace w' = page_events "u" [] "articles" 1 1 /\
    calls (trace w') = [page_request "u" [] 1] /\
    wire (trace w') = [page_request "u" [] 1].
Proof.
  refine (fetch_all_pages_without_total "u" [] "articles" main_session
            (bare_page [JInt 1; JInt 2]) [JInt 1; JInt 2]
            (fresh (scripted [Answer (bare_page [JInt 1; JInt 2])])) 0 _ _ _ _ _);
    reflexivity.
Defined.

(** ** Runs that fail *)

(** A run that reached a state is the loop resumed from that state. *)
Lemma reaches_resume (base_url : string) (params : dict) (item_name : string)
    (session : Session) (w0 : world) (all_items : list json) (page : Z) (w : world) :
  reaches base_url params item_name session w0 all_items page w ->
  exists n : nat, forall fuel : nat,
    fetch_loop (n + fuel) base_url params item_name session [] 1 w0
    = fetch_loop fuel base_url params item_name session all_items page w.
Proof.
  induction 1 as [|acc p w acc' p' w' Hreach [n IH] Hturn].
  - exists 0%nat. reflexivity.
  - exists (S n). intros fuel.
    replace (S n + fuel)%nat with (n + S fuel)%nat by lia.
    rewrite IH. apply fetch_loop_continue. exact Hturn.
Qed.

(** The GETs of the session leave one call in the trace, whatever comes. *)
Lemma send_no_call (policy : Retry) (left : nat) :
  forall (made : nat) (q : request) (w : world),
  exists d, snd (send policy left made q w) = extends w d /\ calls d = [].
Proof.
  induction left as [|left IH]; intros made q w; simpl.
  - destruct (net w (wire (trace w)) q) as [r|msg|e]; [destruct (forced policy r)|..];
      exists [Attempt q]; split; reflexivity.
  - destruct (net w (wire (trace w)) q) as [r|msg|e]; [destruct (forced policy r)|..];
      try (exists [Attempt q]; split; reflexivity).
    destruct (IH (S made) q
                (World (net w) ((trace w ++ [Attempt q]) ++
                                [Sleep (backoff_factor policy * 2 ^ Z.of_nat made)])))
      as (d & Hd & Hc).
    exists ([Attempt q; Sleep (backoff_factor policy * 2 ^ Z.of_nat made)] ++ d)%list.
    split.
    + rewrite Hd. unfold extends. cbn [net trace]. now rewrite <- !app_assoc.
    + rewrite calls_app, Hc. reflexivity.
Qed.

Lemma attempt_no_call (q : request) (w : world) :
  exists d, snd (attempt q w) = extends w d /\ calls d = [].
Proof. exists [Attempt q]. split; reflexivity. Qed.

(** Following redirects adds no call, and ends. *)
Lemma follow_no_call (transport : request -> world -> outcome * world) :
  (forall q w, exists d, snd (transport q w) = extends w d /\ calls d = []) ->
  forall (redirects : nat) (q : request) (w : world),
  exists d, snd (follow transport redirects q w) = extends w d /\ calls d = [] /\
            fst (follow transport redirects q w) <> OutOfFuel.
Proof.
  intros Ht. induction redirects as [|n IH]; intros q w; cbn [follow];
    destruct (Ht q w) as (d & Hd & Hc);
    destruct (transport q w) as [[r|msg|e] w1]; cbn [snd] in Hd; subst w1;
    try (exists d; cbn [deliver fst snd]; repeat split; auto; discriminate).
  - destruct (redirect_location r); exists d; cbn [deliver fst snd];
      repeat split; auto; discriminate.
  - destruct (redirect_location r) as [location|].
    + destruct (IH (Request location []) (extends w d)) as (d' & Hd' & Hc' & Hf).
      exists (d ++ d')%list. rewrite Hd', extends_extends, calls_app, Hc, Hc'.
      repeat split; auto.
    + exists d. cbn [deliver fst snd]. repeat split; auto; discriminate.
Qed.

Lemma session_get_trace (session : Session) (url : string) (params : dict) (w : world) :
  exists d,
    snd (session_get session url params w) = extends w (Call (Request url params) :: d) /\
    calls d = [] /\
    fst (session_get session url params w) <> OutOfFuel.
Proof.
  unfold session_get, bind, emit. cbn beta iota.
  fold (extends w [Call (Request url params)]).
  destruct (follow_no_call _
              (send_no_call (max_retries session) (total (max_retries session)) 0)
              max_redirects (Request url params) (extends w [Call (Request url params)]))
    as (d & Hd & Hc & Hf).
  exists d. rewrite Hd, extends_extends. repeat split; auto.
Qed.

Lemma requests_get_trace (url : string) (w : world) :
  exists d,
    snd (requests_get url w) = extends w (Call (Request url []) :: d) /\
    calls d = [] /\
    fst (requests_get url w) <> OutOfFuel.
Proof.
  unfold requests_get, bind, emit. cbn beta iota.
  fold (extends w [Call (Request url [])]).
  destruct (follow_no_call _ attempt_no_call
              max_redirects (Request url []) (extends w [Call (Request url [])]))
    as (d & Hd & Hc & Hf).
  exists d. rewrite Hd, extends_extends. repeat split; auto.
Qed.

Lemma session_get_one_call (session : Session) (url : string) (params : dict) (w : world) :
  net (snd (session_get session url params w)) = net w /\
  calls (trace (snd (session_get session url params w)))
  = (calls (trace w) ++ [Request url params])%list /\
  fst (session_get session url params w) <> OutOfFuel.
Proof.
  destruct (session_get_trace session url params w) as (d & Hd & Hc & Hf).
  rewrite Hd. cbn [extends net trace]. rewrite calls_app. cbn [calls]. rewrite Hc.
  repeat split; auto.
Qed.

(** A turn whose request fails stops the loop with the list as it was. *)
Lemma fetch_page_failed (base_url : string) (params : dict) (item_name : string)
    (session : Session) (all_items : list json) (page : Z) (w : world)
    (got : res response) (w1 : world) :
  session_get session base_url params w = (got, w1) ->
  failed got ->
  exists msg,
    fetch_page base_url params item_name session all_items page w
    = (Val (all_items, None), extends w1 [StError msg]).
Proof.
  intros Hget Hfail. unfold fetch_page, try_except, bind. rewrite Hget.
  destruct got as [r|e|]; simpl in Hfail.
  - apply Z.eqb_neq in Hfail. rewrite Hfail. eexists. reflexivity.
  - rewrite Hfail. eexists. reflexivity.
  - contradiction.
Qed.

(** C2.  In every run of the fetcher, from whatever state the loop has
    reached: when the page request made there gets a status other than 200 or
    a request exception, the fetcher returns the list accumulated up to that
    state, without raising; the failing request is the last it makes, and an
    error message is the last thing it shows. *)
Theorem fetch_all_pages_stops_on_failure
    (base_url : string) (params : dict) (item_name : string) (session : Session)
    (w0 : world) (all_items : list json) (page : Z) (w : world)
    (got : res response) (w1 : world) :
  reaches base_url params item_name session w0 all_items page w ->
  session_get session base_url (dict_set "page" (JInt page) params) w = (got, w1) ->
  failed got ->
  exists (n : nat) (msg : string),
    forall fuel : nat, (n <= fuel)%nat ->
      fetch_all_pages fuel base_url params item_name session w0
      = (Val all_items, extends w1 [StError msg]) /\
      calls (trace (extends w1 [StError msg]))
      = (calls (trace w) ++ [page_request base_url params page])%list.
Proof.
  intros Hreach Hget Hfail.
  destruct (reaches_resume _ _ _ _ _ _ _ _ Hreach) as [n Hn].
  destruct (fetch_page_failed _ _ item_name _ all_items page _ _ _ Hget Hfail) as [msg Hturn].
  exists (S n), msg. intros fuel Hfuel. split.
  - unfold fetch_all_pages.
    replace fuel with (n + S (fuel - S n))%nat by lia.
    rewrite Hn. apply fetch_loop_stop. exact Hturn.
  - cbn [trace extends]. rewrite calls_app. cbn [calls]. rewrite app_nil_r.
    destruct (session_get_one_call session base_url
                (dict_set "page" (JInt page) params) w) as (_ & Hc & _).
    rewrite Hget in Hc. exact Hc.
Qed.

Lemma fetch_all_pages_stops_on_failure_witness :
  exists (n : nat) (msg : string),
    forall fuel : nat, (n <= fuel)%nat ->
      fetch_all_pages fuel "u" [] "articles" main_session (fresh fails_on_page_2)
      = (Val [JInt 1; JInt 2],
         extends (snd (session_get main_session "u" [("page", JInt 2)] after_page_1))
           [StError msg]) /\
      calls (trace (extends (snd (session_get main_session "u" [("page", JInt 2)]
                                    after_page_1)) [StError msg]))
      = (calls (trace after_page_1) ++ [page_request "u" [] 2])%list.
Proof.
  refine (fetch_all_pages_stops_on_failure "u" [] "articles" main_session
            (fresh fails_on_page_2) [JInt 1; JInt 2] 2 after_page_1
            (fst (session_get main_session "u" [("page", JInt 2)] after_page_1))
            (snd (session_get main_session "u" [("page", JInt 2)] after_page_1))
            _ _ _).
  - eapply reaches_turn; [apply reaches_start|reflexivity].
  - reflexivity.
  - simpl. discriminate.
Defined.

(** ** A total that is not a number *)

Lemma fetch_page_bad_total (base_url : string) (params : dict) (item_name : string)
    (session : Session) (all_items : list json) (page : Z) (w : world)
    (r : response) (items : list json) (h : string) :
  passes_200 session ->
  net w (wire (trace w)) (Request base_url params) = Answer r ->
  status_code r = 200 ->
  resp_body r = Json (JArr items) ->
  header_lookup "X-WP-TotalPages" (headers r) = Some h ->
  int_literal h = None ->
  fetch_page base_url params item_name session all_items page w
  = (Raised (Exn ValueError (int_error h)),
     extends w [Call (Request base_url params); Attempt (Request base_url params)]).
Proof.
  intros Hs Hnet Hst Hbody Hh Hi.
  unfold fetch_page, try_except, bind.
  rewrite (session_get_once session base_url params w r Hnet (forced_200 session r Hs Hst)
             (redirect_location_200 r Hst)).
  rewrite Hst. simpl. unfold response_json. rewrite Hbody. simpl.
  unfold total_pages_of, py_int. rewrite Hh, Hi. reflexivity.
Qed.

Lemma main_session_passes_200 : passes_200 main_session.
Proof. reflexivity. Qed.

(** C10.  A page of posts answered 200 with an array and a total-pages
    header that [int] cannot read makes the fetcher raise a [ValueError],
    which is not a request exception: the items of the page are not returned,
    and [main], whose handler catches it, ends the run on an error message
    without showing any table. *)
Theorem total_pages_not_a_number_aborts
    (urlparse : string -> exn + parsed_url) (base_site_url : string)
    (categories_option tags_option : bool) (fuel : nat) (w w1 : world)
    (r : response) (items : list json) (h : string) :
  let base_url := base_site_url ++ "/wp-json/wp/v2/posts" in
  let params := posts_params categories_option tags_option in
  let q := page_request base_url params 1 in
  let e := Exn ValueError (int_error h) in
  validate_wordpress_site urlparse base_site_url w = (Val (true, ""), w1) ->
  net w1 (wire (trace w1)) q = Answer r ->
  status_code r = 200 ->
  resp_body r = Json (JArr items) ->
  header_lookup "X-WP-TotalPages" (headers r) = Some h ->
  int_literal h = None ->
  fetch_all_pages (S fuel) base_url params "articles" main_session w1
  = (Raised e, extends w1 [Call q; Attempt q]) /\
  is_request_exception e = false /\
  main urlparse (S fuel) base_site_url categories_option tags_option true w
  = (Val tt, extends w1 [Call q; Attempt q; StError ("An error occurred: " ++ exn_msg e)]).
Proof.
  intros base_url params q e Hval Hnet Hst Hbody Hh Hi.
  assert (Hturn := fetch_page_bad_total _ _ "articles" main_session [] 1 w1 r items h
                     main_session_passes_200 Hnet Hst Hbody Hh Hi).
  assert (Hfetch : fetch_all_pages (S fuel) base_url params "articles" main_session w1
                   = (Raised e, extends w1 [Call q; Attempt q])).
  { unfold fetch_all_pages. apply fetch_loop_raise. exact Hturn. }
  split; [exact Hfetch|]. split; [reflexivity|].
  unfold main. unfold bind at 1. rewrite Hval. cbn [negb].
  unfold try_except, fetch_and_build, fetch_all_published_posts.
  unfold bind at 1. unfold bind at 1.
  fold base_url. fold params. rewrite Hfetch.
  unfold emit, extends. cbn [net trace]. rewrite <- app_assoc. reflexivity.
Qed.

Lemma total_pages_not_a_number_aborts_witness :
  let q := page_request "https://ex.org/wp-json/wp/v2/posts" (posts_params true true) 1 in
  let e := Exn ValueError "invalid literal for int() with base 10: 'many'" in
  let w1 := snd (validate_wordpress_site plain_urlparse "https://ex.org" (fresh garbled_total)) in
  fetch_all_pages 1 "https://ex.org/wp-json/wp/v2/posts" (posts_params true true)
    "articles" main_session w1
  = (Raised e, extends w1 [Call q; Attempt q]) /\
  is_request_exception e = false /\
  main plain_urlparse 1 "https://ex.org" true true true (fresh garbled_total)
  = (Val tt, extends w1 [Call q; Attempt q;
                         StError "An error occurred: invalid literal for int() with base 10: 'many'"]).
Proof.
  refine (total_pages_not_a_number_aborts plain_urlparse "https://ex.org" true true 0
            (fresh garbled_total) _
            (page_of "many" [JObj [("link", JStr "https://ex.org/a")]])
            [JObj [("link", JStr "https://ex.org/a")]] "many" _ _ _ _ _ _);
    reflexivity.
Defined.

(** ** Retries of the transport *)

Lemma wire_attempt_pause (t : list event) (q : request) (pause : event) :
  (forall r, pause <> Attempt r) ->
  wire ((t ++ [Attempt q]) ++ [pause]) = (wire t ++ [q])%list.
Proof.
  intros Hp. rewrite !wire_app. cbn [wire].
  destruct pause; try (now rewrite app_nil_r). now destruct (Hp r).
Qed.

(** Every exchange of the transport: some number [k] of retries, at most
    [left], each one after a response of the force list; the outcome handed
    over is that of the last attempt, and it is a settled one unless the
    retries are used up. *)
Lemma send_characterised (policy : Retry) (left : nat) :
  forall (made : nat) (q : request) (w : world),
  exists (k : nat) (rs : list response),
    (k <= left)%nat /\
    List.length rs = k /\
    Forall (fun r => forced policy r = true) rs /\
    answers (net w) (wire (trace w)) (repeat q k) rs /\
    (k = left \/ settled policy (net w (wire (trace w) ++ repeat q k)%list q)) /\
    send policy left made q w
    = (net w (wire (trace w) ++ repeat q k)%list q,
       extends w (retry_events policy q made k)).
Proof.
  induction left as [|left IH]; intros made q w.
  - exists 0%nat, []. cbn [repeat List.length answers retry_events].
    rewrite app_nil_r. repeat split; auto.
    simpl. unfold attempt.
    destruct (net w (wire (trace w)) q) as [r|msg|e]; [destruct (forced policy r)|..];
      reflexivity.
  - destruct (net w (wire (trace w)) q) as [r|msg|e] eqn:Hnet.
    + destruct (forced policy r) eqn:Hf.
      * set (w2 := World (net w) ((trace w ++ [Attempt q]) ++
                                  [Sleep (backoff_factor policy * 2 ^ Z.of_nat made)])).
        destruct (IH (S made) q w2) as (k & rs & Hk & Hlen & Hall & Hans & Hend & Hsend).
        assert (Hw : wire (trace w2) = (wire (trace w) ++ [q])%list).
        { apply wire_attempt_pause. discriminate. }
        rewrite Hw in Hans, Hend, Hsend. cbn [net w2] in Hans, Hend, Hsend.
        rewrite <- app_assoc in Hend, Hsend. cbn [app] in Hend, Hsend.
        exists (S k), (r :: rs). cbn [repeat List.length answers retry_events].
        repeat split; auto; try lia.
        -- destruct Hend as [->|Hend]; [left; reflexivity|right; exact Hend].
        -- simpl. unfold attempt. rewrite Hnet, Hf. fold w2. rewrite Hsend.
           unfold extends, w2. cbn [net trace]. now rewrite <- !app_assoc.
      * exists 0%nat, []. cbn [repeat List.length answers retry_events].
        rewrite app_nil_r, Hnet. repeat split; auto; try lia.
        simpl. unfold attempt. rewrite Hnet, Hf. reflexivity.
    + exists 0%nat, []. cbn [repeat List.length answers retry_events].
      rewrite app_nil_r, Hnet. repeat split; auto; try lia; try (right; exact I).
      simpl. unfold attempt. rewrite Hnet. reflexivity.
    + exists 0%nat, []. cbn [repeat List.length answers retry_events].
      rewrite app_nil_r, Hnet. repeat split; auto; try lia; try (right; exact I).
      simpl. unfold attempt. rewrite Hnet. reflexivity.
Qed.

Lemma forced_main_session (r : response) :
  forced (max_retries main_session) r = true <->
  In (status_code r) [429; 500; 502; 503; 504].
Proof.
  unfold forced. rewrite existsb_exists. split.
  - intros (x & Hin & Heq). apply Z.eqb_eq in Heq. now subst x.
  - intros Hin. exists (status_code r). split; [exact Hin|apply Z.eqb_refl].
Qed.

Lemma send_retry (policy : Retry) (left made : nat) (q : request) (w : world) (r : response) :
  net w (wire (trace w)) q = Answer r ->
  forced policy r = true ->
  send policy (S left) made q w
  = send policy left (S made) q
      (extends w [Attempt q; Sleep (backoff_factor policy * 2 ^ Z.of_nat made)]).
Proof.
  intros Hnet Hf. simpl. unfold attempt. rewrite Hnet, Hf.
  unfold extends. cbn [net trace]. now rewrite <- app_assoc.
Qed.

Lemma session_get_characterised (session : Session) (url : string) (params : dict)
    (w : world) :
  let q := Request url params in
  let policy := max_retries session in
  exists (k : nat) (rs : list response),
    (k <= total policy)%nat /\
    List.length rs = k /\
    Forall (fun r => forced policy r = true) rs /\
    answers (net w) (wire (trace w)) (repeat q k) rs /\
    (k = total policy \/ settled policy (net w (wire (trace w) ++ repeat q k)%list q)) /\
    send policy (total policy) 0 q (extends w [Call q])
    = (net w (wire (trace w) ++ repeat q k)%list q,
       extends w (Call q :: retry_events policy q 0 k)) /\
    session_get session url params w
    = match net w (wire (trace w) ++ repeat q k)%list q with
      | Answer r =>
          match redirect_location r with
          | Some location =>
              follow (send policy (total policy) 0) (pred max_redirects)
                (Request location []) (extends w (Call q :: retry_events policy q 0 k))
          | None => (Val r, extends w (Call q :: retry_events policy q 0 k))
          end
      | out => deliver (out, extends w (Call q :: retry_events policy q 0 k))
      end.
Proof.
  intros q policy.
  destruct (send_characterised policy (total policy) 0 q (extends w [Call q]))
    as (k & rs & Hk & Hlen & Hall & Hans & Hend & Hsend).
  rewrite wire_after_call in Hans, Hend, Hsend. cbn [net extends] in Hans, Hend.
  change (net (extends w [Call q])) with (net w) in Hsend.
  rewrite extends_extends in Hsend. cbn [app] in Hsend.
  exists k, rs. repeat split; auto.
  unfold session_get, bind, emit. cbn beta iota. fold q policy.
  change (World (net w) (trace w ++ [Call q])) with (extends w [Call q]).
  destruct (net w (wire (trace w) ++ repeat q k)%list q) as [r|msg|e].
  - destruct (redirect_location r) as [location|] eqn:Hred.
    + exact (follow_redirect _ (pred max_redirects) _ _ r location _ Hsend Hred).
    + exact (follow_settled _ _ _ _ (Answer r) _ Hsend Hred).
  - exact (follow_settled _ _ _ _ (Failure msg) _ Hsend I).
  - exact (follow_settled _ _ _ _ (Error e) _ Hsend I).
Qed.

(** C8.  With the session [main] builds, a page request answered 503, 503 and
    then with a good page is one call of the fetcher and three attempts of
    the transport, with pauses of 1 and 2 seconds between them; the loop
    takes the page as any good page, and no error is shown.  And every
    exchange of that session is retried at most three times, each time after
    a status among 429, 500, 502, 503 and 504, with pauses of 1, 2 and 4
    seconds; what the caller gets is the outcome of the last attempt, unless
    that is a redirect, which requests follows with an exchange of its own
    through the same transport. *)
Theorem transient_statuses_are_retried
    (base_url : string) (params : dict) (item_name : string)
    (all_items : list json) (page : Z) (w : world)
    (r1 r2 r : response) (N : Z) (fuel : nat) :
  let q := page_request base_url params page in
  let w' := extends w [Call q; Attempt q; Sleep 1; Attempt q; Sleep 2; Attempt q;
                       StatusText ("Fetching " ++ item_name ++ ": Page "
                                   ++ str_of_Z page ++ "/" ++ str_of_Z N)] in
  answers (net w) (wire (trace w)) [q; q; q] [r1; r2; r] ->
  status_code r1 = 503 ->
  status_code r2 = 503 ->
  page_with_total N r ->
  fetch_loop (S fuel) base_url params item_name main_session all_items page w
  = (if page >=? N
     then (Val (all_items ++ items_of r)%list, w')
     else fetch_loop fuel base_url params item_name main_session
            (all_items ++ items_of r)%list (page + 1) w') /\
  (forall (url : string) (params0 : dict) (w0 : world),
     let q0 := Request url params0 in
     exists (k : nat) (rs : list response),
       (k <= 3)%nat /\
       List.length rs = k /\
       Forall (fun r => In (status_code r) [429; 500; 502; 503; 504]) rs /\
       answers (net w0) (wire (trace w0)) (repeat q0 k) rs /\
       (k = 3%nat \/
        match net w0 (wire (trace w0) ++ repeat q0 k)%list q0 with
        | Answer r => ~ In (status_code r) [429; 500; 502; 503; 504]
        | Failure _ => True
        | Error _ => True
        end) /\
       send (max_retries main_session) 3 0 q0 (extends w0 [Call q0])
       = (net w0 (wire (trace w0) ++ repeat q0 k)%list q0,
          extends w0 (Call q0 :: retry_events (max_retries main_session) q0 0 k)) /\
       session_get main_session url params0 w0
       = match net w0 (wire (trace w0) ++ repeat q0 k)%list q0 with
         | Answer r =>
             match redirect_location r with
             | Some location =>
                 follow (send (max_retries main_session) 3 0) (pred max_redirects)
                   (Request location [])
                   (extends w0 (Call q0 :: retry_events (max_retries main_session) q0 0 k))
             | None =>
                 (Val r,
                  extends w0 (Call q0 :: retry_events (max_retries main_session) q0 0 k))
             end
         | out =>
             deliver (out,
                      extends w0 (Call q0 :: retry_events (max_retries main_session) q0 0 k))
         end) /\
  (forall q0 : request,
     retry_events (max_retries main_session) q0 0 3
     = [Attempt q0; Sleep 1; Attempt q0; Sleep 2; Attempt q0; Sleep 4; Attempt q0]).
Proof.
  intros q w' (H1 & H2 & H3 & _) Hs1 Hs2 (Hst & (h & Hh & Hi) & (items & Hbody)).
  split; [|split].
  - assert (Hget : session_get main_session base_url (dict_set "page" (JInt page) params) w
                   = (Val r, extends w [Call q; Attempt q; Sleep 1; Attempt q; Sleep 2;
                                        Attempt q])).
    { unfold session_get, bind, emit. cbn beta iota. fold q.
      fold (extends w [Call q]).
      set (w1 := extends w [Call q]).
      assert (Hw1 : wire (trace w1) = wire (trace w)) by apply wire_after_call.
      cbn [max_retries main_session total].
      rewrite (follow_settled _ _ _ _ (Answer r)
                 (extends w1 [Attempt q; Sleep 1; Attempt q; Sleep 2; Attempt q])).
      - unfold w1. rewrite extends_extends. reflexivity.
      - rewrite (send_retry _ 2 0 q w1 r1).
        2:{ rewrite Hw1. exact H1. }
        2:{ apply forced_main_session. rewrite Hs1. simpl. tauto. }
        rewrite (send_retry _ 1 1 q _ r2).
        2:{ cbn [net trace extends]. rewrite wire_app, Hw1. exact H2. }
        2:{ apply forced_main_session. rewrite Hs2. simpl. tauto. }
        rewrite (send_once _ 1 2 q _ r).
        2:{ cbn [net trace extends]. rewrite !wire_app, Hw1. cbn [wire app].
            exact H3. }
        2:{ apply (forced_200 main_session r main_session_passes_200 Hst). }
        rewrite !extends_extends. reflexivity.
      - apply redirect_location_200. exact Hst. }
    assert (Hitems : items_of r = items) by (unfold items_of; now rewrite Hbody).
    assert (Hturn : fetch_page base_url (dict_set "page" (JInt page) params) item_name
                      main_session all_items page w
                    = (Val ((all_items ++ items)%list,
                            if page >=? N then None else Some (page + 1)), w')).
    { unfold fetch_page, try_except, bind. rewrite Hget, Hst. simpl.
      unfold response_json. rewrite Hbody. simpl.
      rewrite (total_pages_of_header r h N _ Hh Hi). simpl.
      destruct (page >=? N); unfold w', extends; cbn [net trace];
        rewrite <- app_assoc; reflexivity. }
    rewrite Hitems. destruct (page >=? N).
    + apply fetch_loop_stop. exact Hturn.
    + apply fetch_loop_continue. exact Hturn.
  - intros url params0 w0 q0.
    destruct (session_get_characterised main_session url params0 w0)
      as (k & rs & Hk & Hlen & Hall & Hans & Hend & Hsend & Hget).
    exists k, rs. repeat split; auto.
    + eapply Forall_impl; [|exact Hall]. intros a Ha. now apply forced_main_session.
    + destruct Hend as [Hend|Hend]; [left; exact Hend|right].
      fold q0 in Hend |- *. revert Hend.
      destruct (net w0 (wire (trace w0) ++ repeat q0 k)%list q0) as [a|msg|e];
        try (intros _; exact I).
      intros Hend Hin. apply forced_main_session in Hin. unfold settled in Hend. congruence.
  - reflexivity.
Qed.

Lemma transient_statuses_are_retried_witness :
  let q := page_request "u" [] 1 in
  fetch_loop 1 "u" [] "articles" main_session [] 1 (fresh recovers)
  = (Val [JInt 1; JInt 2],
     extends (fresh recovers)
       [Call q; Attempt q; Sleep 1; Attempt q; Sleep 2; Attempt q;
        StatusText "Fetching articles: Page 1/1"]).
Proof.
  exact (proj1 (transient_statuses_are_retried "u" [] "articles" [] 1 (fresh recovers)
                  (status_only 503) (status_only 503) (page_of "1" [JInt 1; JInt 2]) 1 0
                  (conj eq_refl (conj eq_refl (conj eq_refl I))) eq_refl eq_refl
                  (conj eq_refl (conj (ex_intro _ "1" (conj eq_refl eq_refl))
                                   (ex_intro _ [JInt 1; JInt 2] eq_refl))))).
Defined.

(** ** Validation of the site *)

Lemma calls_attempts (hops : list request) : calls (map Attempt hops) = [].
Proof. induction hops as [|q hops IH]; [reflexivity|exact IH]. Qed.

Lemma wire_attempts (hops : list request) : wire (map Attempt hops) = hops.
Proof. induction hops as [|q hops IH]; [reflexivity|]. cbn. now rewrite IH. Qed.

Lemma tables_attempts (hops : list request) : tables (map Attempt hops) = [].
Proof. induction hops as [|q hops IH]; [reflexivity|exact IH]. Qed.

(** A GET without retries ends as [lands] says, every request of the chain
    attempted once. *)
Lemma follow_attempt_lands (redirects : nat) :
  forall (q : request) (w : world),
  exists (hops : list request) (out : res response),
    lands (net w) (wire (trace w)) redirects q hops out /\
    (List.length hops <= S redirects)%nat /\
    follow attempt redirects q w = (out, extends w (map Attempt hops)).
Proof.
  induction redirects as [|n IH]; intros q w; cbn [follow]; unfold attempt at 1;
    cbn beta iota; fold (extends w [Attempt q]);
    destruct (net w (wire (trace w)) q) as [r|msg|e] eqn:Hnet;
    try (eexists [q], _; split; [|split; [cbn; lia|reflexivity]];
         (apply lands_failure || apply lands_error); exact Hnet);
    destruct (redirect_location r) as [location|] eqn:Hred;
    try (exists [q], (Val r); split; [|split; [cbn; lia|reflexivity]];
         apply lands_answer; assumption).
  - eexists [q], _. split; [|split; [cbn; lia|reflexivity]].
    eapply lands_too_many; eassumption.
  - destruct (IH (Request location []) (extends w [Attempt q]))
      as (hops & out & Hlands & Hlen & Hfollow).
    exists (q :: hops), out. split; [|split].
    + eapply lands_redirect; [exact Hnet|exact Hred|].
      cbn [extends net trace] in Hlands. rewrite wire_app in Hlands. exact Hlands.
    + cbn [List.length]. lia.
    + rewrite Hfollow, extends_extends. reflexivity.
Qed.

(** The end of a GET is determined by the site. *)
Lemma lands_functional (site : server) (history : list request) (redirects : nat)
    (q : request) (hops : list request) (out : res response) :
  lands site history redirects q hops out ->
  forall (hops' : list request) (out' : res response),
  lands site history redirects q hops' out' -> hops' = hops /\ out' = out.
Proof.
  induction 1 as [history n q r Hq Hr|history n q msg Hq|history n q e Hq
                 |history n q r location hops out Hq Hr Hnext IH
                 |history q r location Hq Hr];
    intros hops' out' H'; inversion H'; subst;
    repeat match goal with
    | H1 : site ?h ?x = _, H2 : site ?h ?x = _ |- _ =>
        rewrite H1 in H2; inversion H2; subst; clear H2
    end;
    try congruence; try (split; reflexivity).
  match goal with
  | H1 : redirect_location ?r = Some ?a, H2 : redirect_location ?r = Some ?b |- _ =>
      rewrite H1 in H2; inversion H2; subst; clear H2
  end.
  match goal with
  | Hn : lands _ _ _ (Request _ []) ?h ?o |- _ =>
      destruct (IH h o Hn) as [Hh Ho]; rewrite Hh, Ho
  end.
  split; reflexivity.
Qed.

Lemma lands_ends (site : server) (history : list request) (redirects : nat)
    (q : request) (hops : list request) (out : res response) :
  lands site history redirects q hops out -> out <> OutOfFuel.
Proof. induction 1; auto; discriminate. Qed.

Lemma requests_get_lands (url : string) (w : world) :
  let q := Request url [] in
  exists (hops : list request) (out : res response),
    lands (net w) (wire (trace w)) max_redirects q hops out /\
    (List.length hops <= S max_redirects)%nat /\
    requests_get url w = (out, extends w (Call q :: map Attempt hops)).
Proof.
  intros q. unfold requests_get, bind, emit. cbn beta iota. fold q.
  fold (extends w [Call q]).
  destruct (follow_attempt_lands max_redirects q (extends w [Call q]))
    as (hops & out & Hlands & Hlen & Hfollow).
  rewrite wire_after_call in Hlands. cbn [extends net] in Hlands.
  exists hops, out. split; [exact Hlands|]. split; [exact Hlen|].
  rewrite Hfollow, extends_extends. reflexivity.
Qed.

(** What the validator does, case by case. *)
Lemma validate_wordpress_site_cases (urlparse : string -> exn + parsed_url)
    (url : string) (w : world) :
  validate_wordpress_site urlparse url w
  = match urlparse url with
    | inl e => (Raised e, w)
    | inr parsed =>
        if (scheme parsed =? "")%string || (netloc parsed =? "")%string
        then (Val (false, "Invalid URL format. Please include the scheme (http:// or https://)."), w)
        else
          (validation_of (fst (requests_get (req_url (api_root parsed)) w)),
           snd (requests_get (req_url (api_root parsed)) w))
    end.
Proof.
  unfold validate_wordpress_site.
  destruct (urlparse url) as [e|parsed]; [reflexivity|].
  destruct ((scheme parsed =? "")%string || (netloc parsed =? "")%string); [reflexivity|].
  unfold try_except, bind. cbn [api_root req_url].
  destruct (requests_get (scheme parsed ++ "://" ++ netloc parsed ++ "/wp-json/") w)
    as [[r|e|] w1]; cbn [fst snd validation_of].
  - destruct (status_code r =? 200); reflexivity.
  - destruct (is_request_exception e); reflexivity.
  - reflexivity.
Qed.

(** The validator in terms of where its GET lands. *)
Lemma validate_wordpress_site_lands (urlparse : string -> exn + parsed_url)
    (url : string) (w : world) (parsed : parsed_url) :
  urlparse url = inr parsed ->
  scheme parsed <> "" -> netloc parsed <> "" ->
  exists (hops : list request) (out : res response),
    lands (net w) (wire (trace w)) max_redirects (api_root parsed) hops out /\
    (List.length hops <= S max_redirects)%nat /\
    validate_wordpress_site urlparse url w
    = (validation_of out, extends w (Call (api_root parsed) :: map Attempt hops)).
Proof.
  intros Hparse Hs Hn. rewrite validate_wordpress_site_cases, Hparse.
  assert (Hboth : (scheme parsed =? "")%string || (netloc parsed =? "")%string = false).
  { apply orb_false_iff. split; now apply String.eqb_neq. }
  rewrite Hboth.
  destruct (requests_get_lands (req_url (api_root parsed)) w)
    as (hops & out & Hlands & Hlen & Hget).
  exists hops, out. split; [exact Hlands|]. split; [exact Hlen|].
  rewrite Hget. reflexivity.
Qed.

Lemma validation_of_message (out : res response) (msg : string) :
  validation_of out = Val (false, msg) -> msg <> "".
Proof.
  destruct out as [r|e|]; cbn [validation_of].
  - destruct (status_code r =? 200); intros H; inversion H. discriminate.
  - destruct (is_request_exception e); intros H; inversion H. discriminate.
  - discriminate.
Qed.

Lemma both_present (a b : string) :
  (a =? "")%string || (b =? "")%string = false <-> a <> "" /\ b <> "".
Proof.
  rewrite orb_false_iff, !String.eqb_neq. reflexivity.
Qed.

(** C6.  The validator succeeds exactly when the URL parses with a scheme and
    a host and the GET of the REST root, redirects followed, ends with a
    response of status 200.  It fails with a message naming the cause when
    the scheme or the host is missing (no request is made then), when the
    status is another one, and when the request raises a request exception.
    It does not retry: it makes one call, and every request on the wire is
    attempted once, the REST root first and after it only what a redirect
    leads to; a root that does not redirect gets one attempt whatever it
    answers. *)
Theorem validate_wordpress_site_decides (urlparse : string -> exn + parsed_url)
    (url : string) (w : world) :
  let run := validate_wordpress_site urlparse url w in
  (fst run = Val (true, "") <->
   (exists parsed hops r,
      urlparse url = inr parsed /\ scheme parsed <> "" /\ netloc parsed <> "" /\
      lands (net w) (wire (trace w)) max_redirects (api_root parsed) hops (Val r) /\
      status_code r = 200)) /\
  (forall msg, fst run = Val (true, msg) -> msg = "") /\
  (forall msg, fst run = Val (false, msg) -> msg <> "") /\
  (forall parsed,
     urlparse url = inr parsed ->
     (scheme parsed = "" \/ netloc parsed = "" ->
      run = (Val (false, "Invalid URL format. Please include the scheme (http:// or https://)."),
             w)) /\
     (scheme parsed <> "" -> netloc parsed <> "" ->
      (exists hops out,
         lands (net w) (wire (trace w)) max_redirects (api_root parsed) hops out /\
         (List.length hops <= S max_redirects)%nat) /\
      (forall hops out,
         lands (net w) (wire (trace w)) max_redirects (api_root parsed) hops out ->
         snd run = extends w (Call (api_root parsed) :: map Attempt hops) /\
         match out with
         | Val r =>
             fst run
             = if status_code r =? 200
               then Val (true, "")
               else Val (false, "REST API returned status code "
                                ++ str_of_Z (status_code r) ++ ".")
         | Raised e =>
             fst run
             = if is_request_exception e
               then Val (false, "Could not connect to the REST API: " ++ exn_msg e)
               else Raised e
         | OutOfFuel => False
         end) /\
      (match net w (wire (trace w)) (api_root parsed) with
       | Answer r => redirect_location r = None
       | _ => True
       end ->
       snd run = extends w [Call (api_root parsed); Attempt (api_root parsed)]))).
Proof.
  intros run. subst run.
  assert (Hcases :
    forall parsed, urlparse url = inr parsed ->
      scheme parsed <> "" -> netloc parsed <> "" ->
      forall hops out,
        lands (net w) (wire (trace w)) max_redirects (api_root parsed) hops out ->
        validate_wordpress_site urlparse url w
        = (validation_of out, extends w (Call (api_root parsed) :: map Attempt hops))).
  { intros parsed Hparse Hs Hn hops out Hlands.
    destruct (validate_wordpress_site_lands urlparse url w parsed Hparse Hs Hn)
      as (hops' & out' & Hlands' & _ & Hrun).
    destruct (lands_functional _ _ _ _ _ _ Hlands _ _ Hlands') as [-> ->]. exact Hrun. }
  assert (Hmissing :
    forall parsed, urlparse url = inr parsed ->
      scheme parsed = "" \/ netloc parsed = "" ->
      validate_wordpress_site urlparse url w
      = (Val (false, "Invalid URL format. Please include the scheme (http:// or https://)."),
         w)).
  { intros parsed Hparse Hmiss. rewrite validate_wordpress_site_cases, Hparse.
    destruct ((scheme parsed =? "")%string || (netloc parsed =? "")%string) eqn:Hboth;
      [reflexivity|].
    apply both_present in Hboth. destruct Hboth as [Hs Hn].
    destruct Hmiss; contradiction. }
  assert (Hvalid : forall out msg, validation_of out = Val (true, msg) ->
                     msg = "" /\ exists r, out = Val r /\ status_code r = 200).
  { intros out msg. destruct out as [r|e|]; cbn [validation_of].
    - destruct (status_code r =? 200) eqn:Hst; intros H; inversion H; subst.
      split; [reflexivity|]. exists r. split; [reflexivity|now apply Z.eqb_eq].
    - destruct (is_request_exception e); intros H; inversion H.
    - intros H; inversion H. }
  assert (Hsuccess : forall msg,
            fst (validate_wordpress_site urlparse url w) = Val (true, msg) ->
            msg = "" /\
            exists parsed hops r,
              urlparse url = inr parsed /\ scheme parsed <> "" /\ netloc parsed <> "" /\
              lands (net w) (wire (trace w)) max_redirects (api_root parsed) hops (Val r) /\
              status_code r = 200).
  { intros msg Hrun.
    destruct (urlparse url) as [e|parsed] eqn:Hparse.
    - rewrite validate_wordpress_site_cases, Hparse in Hrun. discriminate.
    - destruct ((scheme parsed =? "")%string || (netloc parsed =? "")%string) eqn:Hboth.
      + rewrite validate_wordpress_site_cases, Hparse, Hboth in Hrun. discriminate.
      + apply both_present in Hboth. destruct Hboth as [Hs Hn].
        destruct (validate_wordpress_site_lands urlparse url w parsed Hparse Hs Hn)
          as (hops & out & Hlands & _ & Heq).
        rewrite Heq in Hrun. cbn [fst] in Hrun.
        destruct (Hvalid out msg Hrun) as (Hmsg & r & -> & Hst).
        split; [exact Hmsg|]. exists parsed, hops, r. auto. }
  split; [split|split; [|split]].
  - intros Hrun. exact (proj2 (Hsuccess "" Hrun)).
  - intros (parsed & hops & r & Hparse & Hs & Hn & Hlands & Hst).
    rewrite (Hcases parsed Hparse Hs Hn hops (Val r) Hlands).
    cbn [fst validation_of]. rewrite Hst. reflexivity.
  - intros msg Hrun. exact (proj1 (Hsuccess msg Hrun)).
  - intros msg Hrun.
    destruct (urlparse url) as [e|parsed] eqn:Hparse.
    + rewrite validate_wordpress_site_cases, Hparse in Hrun. discriminate.
    + destruct ((scheme parsed =? "")%string || (netloc parsed =? "")%string) eqn:Hboth.
      * rewrite validate_wordpress_site_cases, Hparse, Hboth in Hrun.
        injection Hrun as <-. discriminate.
      * apply both_present in Hboth. destruct Hboth as [Hs Hn].
        destruct (validate_wordpress_site_lands urlparse url w parsed Hparse Hs Hn)
          as (hops & out & _ & _ & Heq).
        rewrite Heq in Hrun. exact (validation_of_message out msg Hrun).
  - intros parsed Hparse. split; [exact (Hmissing parsed Hparse)|].
    intros Hs Hn. split; [|split].
    + destruct (validate_wordpress_site_lands urlparse url w parsed Hparse Hs Hn)
        as (hops & out & Hlands & Hlen & _).
      exists hops, out. split; assumption.
    + intros hops out Hlands. rewrite (Hcases parsed Hparse Hs Hn hops out Hlands).
      cbn [fst snd]. split; [reflexivity|].
      destruct out as [r|e|]; [reflexivity|reflexivity|].
      exact (lands_ends _ _ _ _ _ _ Hlands eq_refl).
    + intros Hfirst.
      assert (Hlands : exists out,
                lands (net w) (wire (trace w)) max_redirects (api_root parsed)
                  [api_root parsed] out).
      { destruct (net w (wire (trace w)) (api_root parsed)) as [r|msg|e] eqn:Hnet.
        - exists (Val r). now apply lands_answer.
        - eexists. apply lands_failure. exact Hnet.
        - eexists. apply lands_error. exact Hnet. }
      destruct Hlands as [out Hlands].
      rewrite (Hcases parsed Hparse Hs Hn _ out Hlands). reflexivity.
Qed.

(** A REST root that has moved is followed to where it is; a site that
    redirects for ever is given up after 30 redirects; neither is asked
    twice for the same thing without a redirect. *)
Example validate_moved_root :
  validate_wordpress_site plain_urlparse "https://ex.org/blog" (fresh moved_root)
  = (Val (true, ""),
     extends (fresh moved_root)
       [Call (Request "https://ex.org/wp-json/" []);
        Attempt (Request "https://ex.org/wp-json/" []);
        Attempt (Request "https://www.ex.org/wp-json/" [])]).
Proof. reflexivity. Qed.

Example validate_redirect_loop :
  fst (validate_wordpress_site plain_urlparse "https://ex.org" (fresh redirect_loop))
  = Val (false, "Could not connect to the REST API: Exceeded 30 redirects.") /\
  wire (trace (snd (validate_wordpress_site plain_urlparse "https://ex.org"
                      (fresh redirect_loop))))
  = repeat (Request "https://ex.org/wp-json/" []) 31.
Proof. split; reflexivity. Qed.

(** An exception of requests that is no request exception passes through
    the validator. *)
Example validate_unparsable_host :
  fst (validate_wordpress_site plain_urlparse "http://www..example.com"
         (fresh unparsable_host))
  = Raised (Exn ValueError "Failed to parse: 'www..example.com', label empty or too long").
Proof. reflexivity. Qed.

(** ** Resolution of the image *)

(** The fallback lookup: one call, and the empty string when it fails. *)
Lemma media_fallback (session : Session) (url : string) (media_id : json) (w : world) :
  let run :=
    try_except is_request_exception
      (response <- session_get session url [] ;;
       if status_code response =? 200 then
         media_data <- response_json response ;;
         py_get media_data "source_url" (JStr "")
       else ret (JStr ""))
      (fun e =>
         emit (StWarning ("Failed to fetch media ID " ++ py_str media_id ++ ": "
                          ++ exn_msg e)) ;;;
         ret (JStr "")) w in
  calls (trace (snd run)) = (calls (trace w) ++ [Request url []])%list /\
  (forall got w1, session_get session url [] w = (got, w1) -> failed got ->
                  fst run = Val (JStr "")).
Proof.
  intros run. subst run. unfold try_except, bind.
  destruct (session_get_one_call session url [] w) as (_ & Hcalls & Hfuel).
  destruct (session_get session url [] w) as [[r|e|] w1] eqn:Hget; cbn [fst snd] in *.
  - destruct (status_code r =? 200) eqn:Hst.
    + unfold response_json. destruct (resp_body r) as [v|msg]; cbn.
      * split.
        -- destruct v; cbn; exact Hcalls.
        -- intros got w2 H Hfail. injection H as <- <-. cbn in Hfail.
           apply Z.eqb_eq in Hst. contradiction.
      * split.
        -- rewrite calls_app. cbn. rewrite app_nil_r. exact Hcalls.
        -- reflexivity.
    + cbn. split; [exact Hcalls|reflexivity].
  - destruct (is_request_exception e) eqn:He; cbn.
    + split.
      * rewrite calls_app. cbn. rewrite app_nil_r. exact Hcalls.
      * reflexivity.
    + split; [exact Hcalls|].
      intros got w2 H Hfail. injection H as <- <-. cbn in Hfail. congruence.
  - congruence.
Qed.

Lemma get_image_url_none (post : dict) (base_site_url : string)
    (session : Session) (w : world) :
  truthy (featured_media_of post) = false ->
  get_image_url (JObj post) base_site_url session w = (Val (JStr ""), w).
Proof.
  intros H. unfold get_image_url. unfold bind at 1. cbn [py_get ret].
  fold (featured_media_of post). rewrite H. reflexivity.
Qed.

Lemma get_image_url_embedded (post : dict) (base_site_url : string)
    (session : Session) (w : world) (entry : dict) (rest : list json) (url : json) :
  truthy (featured_media_of post) = true ->
  embedded_payload post = Some (JObj entry :: rest) ->
  dict_lookup "source_url" entry = Some url ->
  get_image_url (JObj post) base_site_url session w = (Val url, w).
Proof.
  intros H Hemb Hurl. unfold get_image_url. unfold bind at 1. cbn [py_get ret].
  fold (featured_media_of post). rewrite H.
  unfold embedded_payload in Hemb.
  unfold bind at 1. cbn [py_get ret].
  destruct (dict_lookup "_embedded" post) as [[| | | | |embedded]|]; try discriminate.
  unfold bind at 1. cbn [py_get ret].
  destruct (dict_lookup "wp:featuredmedia" embedded) as [[| | | |entries|]|]; try discriminate.
  injection Hemb as ->. unfold bind. cbn [truthy py_first py_in py_getitem ret].
  rewrite Hurl. reflexivity.
Qed.

Lemma get_image_url_fallback (post : dict) (base_site_url : string)
    (session : Session) (w : world) :
  truthy (featured_media_of post) = true ->
  (embedded_payload post = Some [] \/
   exists entry rest, embedded_payload post = Some (JObj entry :: rest) /\
                      dict_lookup "source_url" entry = None) ->
  get_image_url (JObj post) base_site_url session w
  = try_except is_request_exception
      (response <- session_get session
                     (req_url (media_request base_site_url (featured_media_of post))) [] ;;
       if status_code response =? 200 then
         media_data <- response_json response ;;
         py_get media_data "source_url" (JStr "")
       else ret (JStr ""))
      (fun e =>
         emit (StWarning ("Failed to fetch media ID " ++ py_str (featured_media_of post)
                          ++ ": " ++ exn_msg e)) ;;;
         ret (JStr "")) w.
Proof.
  intros H Hemb. unfold get_image_url. unfold bind at 1. cbn [py_get ret].
  fold (featured_media_of post). rewrite H.
  unfold embedded_payload in Hemb.
  unfold bind at 1. cbn [py_get ret].
  destruct (dict_lookup "_embedded" post) as [[| | | | |embedded]|];
    try (destruct Hemb as [Hemb|(entry & rest & Hemb & _)]; discriminate).
  - unfold bind at 1. cbn [py_get ret].
    destruct (dict_lookup "wp:featuredmedia" embedded) as [[| | | |entries|]|];
      try (destruct Hemb as [Hemb|(entry & rest & Hemb & _)]; discriminate).
    + destruct Hemb as [Hemb|(entry & rest & Hemb & Hnone)].
      * injection Hemb as ->. reflexivity.
      * injection Hemb as ->. unfold bind at 1. unfold bind at 1. unfold bind at 1.
        cbn [truthy py_first py_in ret]. rewrite Hnone. reflexivity.
    + reflexivity.
  - reflexivity.
Qed.

(** C3.  For a post record: without a featured-media identifier the image
    URL is the empty string and nothing is asked of the network; with one,
    and a first embedded entry holding a [source_url], that value is
    returned and nothing is asked either; otherwise the media item is looked
    up with one GET of [{site}/wp-json/wp/v2/media/{id}], and the result is
    the empty string when that request gets another status than 200 or
    fails. *)
Theorem get_image_url_precedence (post : dict) (base_site_url : string)
    (session : Session) (w : world) :
  let run := get_image_url (JObj post) base_site_url session w in
  (truthy (featured_media_of post) = false -> run = (Val (JStr ""), w)) /\
  (forall entry rest url,
     truthy (featured_media_of post) = true ->
     embedded_payload post = Some (JObj entry :: rest) ->
     dict_lookup "source_url" entry = Some url ->
     run = (Val url, w)) /\
  (truthy (featured_media_of post) = true ->
   (embedded_payload post = Some [] \/
    exists entry rest, embedded_payload post = Some (JObj entry :: rest) /\
                       dict_lookup "source_url" entry = None) ->
   let q := media_request base_site_url (featured_media_of post) in
   calls (trace (snd run)) = (calls (trace w) ++ [q])%list /\
   (forall got w1, session_get session (req_url q) [] w = (got, w1) -> failed got ->
                   fst run = Val (JStr ""))).
Proof.
  intros run. subst run. split; [|split].
  - apply get_image_url_none.
  - intros entry rest url. apply get_image_url_embedded.
  - intros H Hemb q. rewrite (get_image_url_fallback _ _ _ _ H Hemb).
    apply media_fallback.
Qed.

(** ** Names of categories and tags *)

Lemma table_lookup_names (id : json) (names : list (json * string)) :
  table_lookup id (names_table names) = option_map JStr (name_in id names).
Proof.
  induction names as [|[k n] names IH]; simpl; [reflexivity|].
  destruct (py_eqb id k); [reflexivity|exact IH].
Qed.

Lemma names_of_ids_typed (names : list (json * string)) (ids : list json) (w : world) :
  Forall (fun id => hashable id = true) ids ->
  names_of_ids (names_table names) ids w
  = (Val (map (fun id => JStr (display_name names id)) ids), w).
Proof.
  induction 1 as [|id ids Hid Hids IH]; simpl; [reflexivity|].
  unfold bind at 1. unfold table_get. rewrite Hid. cbn [ret].
  unfold bind at 1. rewrite IH. cbn [ret].
  rewrite table_lookup_names. unfold display_name.
  destruct (name_in id names); reflexivity.
Qed.

Lemma strings_of_strings (i : nat) (ss : list string) :
  strings_of i (map JStr ss) = inr ss.
Proof.
  revert i. induction ss as [|s ss IH]; intros i; simpl; [reflexivity|].
  now rewrite IH.
Qed.

Lemma joined_names_typed (post : dict) (field : string)
    (names : list (json * string)) (ids : list json) (w : world) :
  Forall (fun id => hashable id = true) ids ->
  dict_lookup field post = Some (JArr ids) \/ (dict_lookup field post = None /\ ids = []) ->
  joined_names (JObj post) field (names_table names) w
  = (Val (JStr (join ", " (map (display_name names) ids))), w).
Proof.
  intros Hids Hfield.
  unfold joined_names. unfold bind at 1. cbn [py_get ret].
  assert (Hget : match dict_lookup field post with Some x => x | None => JArr [] end
                 = JArr ids).
  { destruct Hfield as [->|[-> ->]]; reflexivity. }
  rewrite Hget. destruct ids as [|id ids].
  - reflexivity.
  - cbn [truthy]. unfold bind at 1. unfold bind at 1. cbn [py_iter ret].
    rewrite (names_of_ids_typed names (id :: ids) w Hids).
    unfold py_join. rewrite <- map_map with (f := display_name names) (g := JStr).
    rewrite strings_of_strings. reflexivity.
Qed.

(** C4.  With the option enabled, the names of a post's categories (and
    likewise of its tags) are: for every identifier of the post's list, in
    the order of the list, the name the dictionary gives it, or the string
    "Unknown" when the dictionary does not have it, joined with ", "; a post
    whose list is empty, or which has no list, gets the empty string. *)
Theorem joined_names_resolves (post : dict) (field : string)
    (names : list (json * string)) (ids : list json) (w : world) :
  Forall (fun id => hashable id = true) ids ->
  dict_lookup field post = Some (JArr ids) \/ (dict_lookup field post = None /\ ids = []) ->
  joined_names (JObj post) field (names_table names) w
  = (Val (JStr (join ", " (map (display_name names) ids))), w) /\
  (forall id n, name_in id names = Some n -> display_name names id = n) /\
  (forall id, name_in id names = None -> display_name names id = "Unknown") /\
  (ids = [] -> join ", " (map (display_name names) ids) = "").
Proof.
  intros Hids Hfield. split; [|split; [|split]].
  - apply joined_names_typed; assumption.
  - intros id n H. unfold display_name. now rewrite H.
  - intros id H. unfold display_name. now rewrite H.
  - intros ->. reflexivity.
Qed.

Lemma joined_names_resolves_witness :
  joined_names (JObj post_with_embed) "categories" (names_table example_categories)
    (fresh rest_root_ok)
  = (Val (JStr "News, Unknown"), fresh rest_root_ok) /\
  (forall id n, name_in id example_categories = Some n ->
                display_name example_categories id = n) /\
  (forall id, name_in id example_categories = None ->
              display_name example_categories id = "Unknown") /\
  ([JInt 1; JInt 5] = [] -> "News, Unknown" = "").
Proof.
  refine (joined_names_resolves post_with_embed "categories" example_categories
            [JInt 1; JInt 5] (fresh rest_root_ok) _ _).
  - repeat constructor.
  - left. reflexivity.
Defined.

(** ** What a computation yields *)

Lemma yields_ret {A} (a : A) (Q : A -> Prop) : Q a -> yields (ret a) Q.
Proof. intros H w. exact H. Qed.

Lemma yields_raise {A} (e : exn) (Q : A -> Prop) : yields (raise e) Q.
Proof. intros w. exact I. Qed.

Lemma yields_emit (e : event) (Q : unit -> Prop) : Q tt -> yields (emit e) Q.
Proof. intros H w. exact H. Qed.

Lemma yields_bind {A B} (m : M A) (k : A -> M B) (P : A -> Prop) (Q : B -> Prop) :
  yields m P -> (forall a, P a -> yields (k a) Q) -> yields (bind m k) Q.
Proof.
  intros Hm Hk w. unfold bind. specialize (Hm w).
  destruct (m w) as [[a|e|] w1]; cbn [fst] in *.
  - exact (Hk a Hm w1).
  - exact I.
  - contradiction.
Qed.

Lemma yields_try {A} (catches : exn -> bool) (m : M A) (h : exn -> M A) (Q : A -> Prop) :
  yields m Q -> (forall e, yields (h e) Q) -> yields (try_except catches m h) Q.
Proof.
  intros Hm Hh w. unfold try_except. specialize (Hm w).
  destruct (m w) as [[a|e|] w1]; cbn [fst] in *.
  - exact Hm.
  - destruct (catches e); [exact (Hh e w1)|exact I].
  - contradiction.
Qed.

Lemma yields_weaken {A} (m : M A) (P Q : A -> Prop) :
  yields m P -> (forall a, P a -> Q a) -> yields m Q.
Proof.
  intros Hm HPQ w. specialize (Hm w). destruct (fst (m w)); auto.
Qed.

Lemma yields_session_get (session : Session) (url : string) (params : dict) :
  yields (session_get session url params) (fun _ => True).
Proof.
  intros w. destruct (session_get_one_call session url params w) as (_ & _ & H).
  destruct (fst (session_get session url params w)); auto.
Qed.

Lemma yields_py_get (v : json) (k : string) (default : json) :
  yields (py_get v k default) (fun x => exists o, v = JObj o /\ x = lookup_or o k default).
Proof.
  intros w. destruct v; cbn; auto. exists o. split; reflexivity.
Qed.

Lemma yields_response_json (r : response) : yields (response_json r) (fun _ => True).
Proof. intros w. unfold response_json. destruct (resp_body r); cbn; auto. Qed.

Lemma yields_py_first (v : json) : yields (py_first v) (fun _ => True).
Proof. intros w. destruct v as [| | |[|c s]|[|x l]|]; cbn; auto. Qed.

Lemma yields_py_in (k : string) (v : json) : yields (py_in k v) (fun _ => True).
Proof. intros w. destruct v; cbn; auto. Qed.

Lemma yields_py_getitem (v : json) (k : string) : yields (py_getitem v k) (fun _ => True).
Proof. intros w. destruct v; cbn; auto. destruct (dict_lookup k o); cbn; auto. Qed.

Lemma yields_py_iter (v : json) : yields (py_iter v) (fun _ => True).
Proof. intros w. destruct v; cbn; auto. Qed.

Lemma yields_py_join (sep : string) (l : list json) : yields (py_join sep l) (fun _ => True).
Proof. intros w. unfold py_join. destruct (strings_of 0 l); cbn; auto. Qed.

Lemma yields_table_get (t : table) (k default : json) :
  yields (table_get t k default) (fun _ => True).
Proof. intros w. unfold table_get. destruct (hashable k); cbn; auto. Qed.

Create HintDb yields.

#[export] Hint Resolve yields_ret yields_raise yields_emit yields_session_get
  yields_response_json yields_py_first yields_py_in yields_py_getitem
  yields_py_iter yields_py_join yields_table_get : yields.

(** Any value will do: the steps are taken one by one. *)
Ltac yields_any :=
  repeat first
    [ solve [auto with yields]
    | apply yields_bind with (P := fun _ => True); [|intros ? _]
    | apply yields_try; [|intros ?]
    | eapply yields_weaken; [apply yields_py_get|intros ? _; exact I]
    | match goal with
      | |- yields (if ?b then _ else _) _ => destruct b
      | |- yields (match ?x with _ => _ end) _ => destruct x
      end ].

Lemma yields_get_image_url (post : json) (base_site_url : string) (session : Session) :
  yields (get_image_url post base_site_url session) (fun _ => True).
Proof. unfold get_image_url. yields_any. Qed.

Lemma yields_names_of_ids (names : table) (ids : list json) :
  yields (names_of_ids names ids) (fun _ => True).
Proof. induction ids as [|id ids IH]; simpl; yields_any. Qed.

#[export] Hint Resolve yields_get_image_url yields_names_of_ids : yields.

Lemma yields_joined_names (post : json) (field : string) (names : table) :
  yields (joined_names post field names) (fun _ => True).
Proof.
  unfold joined_names. yields_any.
Qed.

#[export] Hint Resolve yields_joined_names : yields.

(** ** One row per post *)

Lemma yields_rendered (o : dict) (field : string) :
  yields (t <- py_get (JObj o) field (JObj []) ;; py_get t "rendered" (JStr ""))
    (fun x => exists t, lookup_or o field (JObj []) = JObj t /\
                        x = lookup_or t "rendered" (JStr "")).
Proof.
  eapply yields_bind; [apply yields_py_get|].
  intros t (o' & Ho & ->). injection Ho as <-.
  eapply yields_weaken; [apply yields_py_get|].
  intros x (t' & Ht & ->). exists t'. split; [exact Ht|reflexivity].
Qed.

Lemma yields_post_row (base_site_url : string) (session : Session)
    (categories_option tags_option : bool) (category_dict tag_dict : table)
    (index total_posts : nat) (post : json) :
  yields (post_row base_site_url session categories_option tags_option
            category_dict tag_dict index total_posts post)
    (row_of categories_option tags_option post).
Proof.
  unfold post_row.
  apply yields_bind with (P := fun _ => True); [auto with yields|intros _ _].
  apply yields_bind with (P := fun _ => True); [auto with yields|intros _ _].
  eapply yields_bind; [apply yields_py_get|]. intros url (o & -> & ->).
  eapply yields_bind; [apply yields_rendered|]. intros title (t & Ht & ->).
  eapply yields_bind; [apply yields_rendered|]. intros content (c & Hc & ->).
  apply yields_bind with (P := fun _ => True); [auto with yields|intros image_url _].
  set (base := [("url", lookup_or o "link" (JStr ""));
                ("title", lookup_or t "rendered" (JStr ""));
                ("content", lookup_or c "rendered" (JStr ""));
                ("image_url", image_url)]).
  destruct categories_option, tags_option.
  - apply yields_bind with (P := fun r => exists cats, r = dict_set "categories" cats base).
    + apply yields_bind with (P := fun _ => True); [auto with yields|intros cats _].
      apply yields_ret. exists cats. reflexivity.
    + intros r [cats ->].
      apply yields_bind
        with (P := fun r => exists tags,
                     r = dict_set "tags" tags (dict_set "categories" cats base)).
      * apply yields_bind with (P := fun _ => True); [auto with yields|intros tags _].
        apply yields_ret. exists tags. reflexivity.
      * intros r [tags ->]. apply yields_ret.
        split; [reflexivity|exists o, t, c; repeat split; auto].
  - apply yields_bind with (P := fun r => exists cats, r = dict_set "categories" cats base).
    + apply yields_bind with (P := fun _ => True); [auto with yields|intros cats _].
      apply yields_ret. exists cats. reflexivity.
    + intros r [cats ->].
      apply yields_bind with (P := fun r => r = dict_set "categories" cats base);
        [apply yields_ret; reflexivity|].
      intros r ->. apply yields_ret.
      split; [reflexivity|exists o, t, c; repeat split; auto].
  - apply yields_bind with (P := fun r => r = base); [apply yields_ret; reflexivity|].
    intros r ->.
    apply yields_bind with (P := fun r => exists tags, r = dict_set "tags" tags base).
    + apply yields_bind with (P := fun _ => True); [auto with yields|intros tags _].
      apply yields_ret. exists tags. reflexivity.
    + intros r [tags ->]. apply yields_ret.
      split; [reflexivity|exists o, t, c; repeat split; auto].
  - apply yields_bind with (P := fun r => r = base); [apply yields_ret; reflexivity|].
    intros r ->.
    apply yields_bind with (P := fun r => r = base); [apply yields_ret; reflexivity|].
    intros r ->. apply yields_ret.
    split; [reflexivity|exists o, t, c; repeat split; auto].
Qed.

Lemma yields_build_rows (base_site_url : string) (session : Session)
    (categories_option tags_option : bool) (category_dict tag_dict : table)
    (total_posts : nat) (posts : list json) :
  forall (index : nat) (csv_data : list row),
  yields (build_rows base_site_url session categories_option tags_option
            category_dict tag_dict index total_posts posts csv_data)
    (fun rows => exists new,
       rows = (csv_data ++ new)%list /\
       Forall2 (row_of categories_option tags_option) posts new).
Proof.
  induction posts as [|post posts IH]; intros index csv_data; cbn [build_rows].
  - apply yields_ret. exists []. split; [now rewrite app_nil_r|constructor].
  - eapply yields_bind; [apply yields_post_row|].
    intros r Hr. eapply yields_weaken; [apply IH|].
    intros rows (new & -> & Hnew). exists (r :: new). split.
    + now rewrite <- app_assoc.
    + constructor; assumption.
Qed.

Lemma joined_names_plain (o : dict) (field : string) (names : list (json * string))
    (w : world) :
  plain_ids o field ->
  exists s, joined_names (JObj o) field (names_table names) w = (Val (JStr s), w).
Proof.
  intros [Hnone|(ids & Hids & Hall)].
  - eexists. apply (joined_names_typed o field names [] w (Forall_nil _)).
    right. split; [exact Hnone|reflexivity].
  - eexists. apply (joined_names_typed o field names ids w Hall).
    left. exact Hids.
Qed.

(** What a GET returns is an answer of the site. *)
Lemma send_answer_of_site (policy : Retry) (left made : nat) (q : request) (w : world)
    (r : response) (w1 : world) :
  send policy left made q w = (Answer r, w1) ->
  exists history, net w history q = Answer r.
Proof.
  destruct (send_characterised policy left made q w) as (k & rs & _ & _ & _ & _ & _ & Hsend).
  rewrite Hsend. intros H. injection H as H _. eexists. exact H.
Qed.

Lemma session_get_answer_of_site (session : Session) (url : string) (params : dict)
    (w : world) (r : response) (w1 : world) :
  session_get session url params w = (Val r, w1) ->
  exists (history : list request) (q : request), net w history q = Answer r.
Proof.
  unfold session_get, bind, emit. cbn beta iota.
  fold (extends w [Call (Request url params)]).
  change (net w) with (net (extends w [Call (Request url params)])).
  generalize (extends w [Call (Request url params)]) as w0.
  generalize (Request url params) as q.
  induction max_redirects as [|n IH]; intros q w0; cbn [follow];
    destruct (send_no_call (max_retries session) (total (max_retries session)) 0 q w0)
      as (d & Hd & _);
    destruct (send (max_retries session) (total (max_retries session)) 0 q w0)
      as [[a|msg|e] w2] eqn:Hsend; cbn [snd] in Hd; subst w2;
    try (cbn [deliver]; intros H; discriminate).
  - destruct (redirect_location a); [intros H; discriminate|].
    cbn [deliver]. intros H. injection H as -> _.
    destruct (send_answer_of_site _ _ _ _ _ _ _ Hsend) as [history Hh].
    exists history, q. exact Hh.
  - destruct (redirect_location a) as [location|].
    + intros H. destruct (IH _ _ H) as (history & q' & Hh).
      exists history, q'. exact Hh.
    + cbn [deliver]. intros H. injection H as -> _.
      destruct (send_answer_of_site _ _ _ _ _ _ _ Hsend) as [history Hh].
      exists history, q. exact Hh.
Qed.




(** X27.  Whatever the posts, the tables and the network are, the loop over
    the posts ends, and it never returns a table that is not aligned with the
    posts: when it returns, it returns one row per post, in the order of the
    posts, each with the keys url, title, content and image_url, then
    categories if and only if that option is enabled, then tags if and only
    if that option is enabled, and with the link, title and content of its
    post.  Otherwise it raises, and there is no row. *)
Theorem build_rows_rows_or_exception (base_site_url : string) (session : Session)
    (categories_option tags_option : bool) (category_dict tag_dict : table)
    (posts : list json) (index total_posts : nat) (w : world) :
  match fst (build_rows base_site_url session categories_option tags_option
               category_dict tag_dict index total_posts posts [] w) with
  | Val rows =>
      List.length rows = List.length posts /\
      Forall2 (row_of categories_option tags_option) posts rows /\
      Forall (fun r => map fst r = row_keys categories_option tags_option) rows
  | Raised _ => True
  | OutOfFuel => False
  end.
Proof.
  assert (H := yields_build_rows base_site_url session categories_option tags_option
                 category_dict tag_dict total_posts posts index [] w).
  destruct (fst (build_rows base_site_url session categories_option tags_option
                   category_dict tag_dict index total_posts posts [] w))
    as [rows|e|]; auto.
  destruct H as (new & -> & Hnew). cbn [app].
  split; [|split].
  - symmetry. eapply Forall2_length. exact Hnew.
  - exact Hnew.
  - clear -Hnew. induction Hnew as [|post r posts new [Hkeys _] _ IH]; constructor; auto.
Qed.







(** The rows of that run: an embedded image, and one that is looked up. *)
Example build_rows_media_found :
  fst (build_rows "https://ex.org" main_session true false
         (names_table example_categories) (names_table []) 1 2
         [JObj post_with_embed; JObj post_without_embed] [] (fresh media_found))
  = Val [[("url", JStr "https://ex.org/a"); ("title", JStr "A");
          ("content", JStr "<p>a</p>"); ("image_url", JStr "https://ex.org/a.png");
          ("categories", JStr "News, Unknown")];
         [("url", JStr "https://ex.org/b"); ("title", JStr "B");
          ("content", JStr "<p>b</p>"); ("image_url", JStr "https://ex.org/b.png");
          ("categories", JStr "")]].
Proof. reflexivity. Qed.

(** A page of posts answered with an error object is fetched as the list of
    its keys, which are no post records: the loop raises on the first. *)
Example fetch_and_build_error_payload :
  fst (fetch_all_published_posts 1 "https://ex.org" main_session false false
         (fresh error_object_body))
  = Val [JStr "code"; JStr "message"] /\
  fst (fetch_and_build 1 "https://ex.org" main_session false false (fresh error_object_body))
  = Raised (Exn AttributeError "'str' object has no attribute 'get'").
Proof. split; reflexivity. Qed.


(** On [small_site] the same loop makes its two rows. *)
Example fetch_and_build_small_site :
  fst (fetch_and_build 1 "https://ex.org" main_session true false (fresh small_site))
  = Val (Some [[("url", JStr "https://ex.org/a"); ("title", JStr "A");
                ("content", JStr "<p>a</p>"); ("image_url", JStr "https://ex.org/a.png");
                ("categories", JStr "News, Unknown")];
               [("url", JStr "https://ex.org/b"); ("title", JStr "B");
                ("content", JStr "<p>b</p>"); ("image_url", JStr "https://ex.org/b.png");
                ("categories", JStr "")]]).
Proof. reflexivity. Qed.

(** ** The run depends on the answers of the network only *)

Lemma same_answers_extends (w1 w2 : world) (d : list event) :
  same_answers w1 w2 -> same_answers (extends w1 d) (extends w2 d).
Proof.
  intros H next q. cbn [net trace extends]. rewrite !wire_app, <- !app_assoc. apply H.
Qed.

Lemma same_answers_now (w1 w2 : world) (q : request) :
  same_answers w1 w2 -> net w1 (wire (trace w1)) q = net w2 (wire (trace w2)) q.
Proof. intros H. specialize (H [] q). now rewrite !app_nil_r in H. Qed.

Lemma framed_ret {A} (a : A) : framed (ret a).
Proof. intros w1 w2 _. exists (Val a), []. now rewrite !extends_nil. Qed.

Lemma framed_raise {A} (e : exn) : framed (@raise A e).
Proof. intros w1 w2 _. exists (Raised e), []. now rewrite !extends_nil. Qed.

Lemma framed_out_of_fuel {A} : framed (fun w => (@OutOfFuel A, w)).
Proof. intros w1 w2 _. exists OutOfFuel, []. now rewrite !extends_nil. Qed.

Lemma framed_emit (e : event) : framed (emit e).
Proof. intros w1 w2 _. exists (Val tt), [e]. split; reflexivity. Qed.

Lemma framed_bind {A B} (m : M A) (k : A -> M B) :
  framed m -> (forall a, framed (k a)) -> framed (bind m k).
Proof.
  intros Hm Hk w1 w2 Hw. unfold bind.
  destruct (Hm w1 w2 Hw) as (out & d & -> & ->).
  destruct out as [a|e|].
  - destruct (Hk a _ _ (same_answers_extends _ _ d Hw)) as (out' & d' & -> & ->).
    exists out', (d ++ d')%list. now rewrite !extends_extends.
  - exists (Raised e), d. split; reflexivity.
  - exists OutOfFuel, d. split; reflexivity.
Qed.

Lemma framed_try {A} (catches : exn -> bool) (m : M A) (h : exn -> M A) :
  framed m -> (forall e, framed (h e)) -> framed (try_except catches m h).
Proof.
  intros Hm Hh w1 w2 Hw. unfold try_except.
  destruct (Hm w1 w2 Hw) as (out & d & -> & ->).
  destruct out as [a|e|].
  - exists (Val a), d. split; reflexivity.
  - destruct (catches e).
    + destruct (Hh e _ _ (same_answers_extends _ _ d Hw)) as (out' & d' & -> & ->).
      exists out', (d ++ d')%list. now rewrite !extends_extends.
    + exists (Raised e), d. split; reflexivity.
  - exists OutOfFuel, d. split; reflexivity.
Qed.

Lemma framed_send (policy : Retry) (left : nat) :
  forall (made : nat) (q : request) (w1 w2 : world),
  same_answers w1 w2 ->
  exists (out : outcome) (d : list event),
    send policy left made q w1 = (out, extends w1 d) /\
    send policy left made q w2 = (out, extends w2 d).
Proof.
  induction left as [|left IH]; intros made q w1 w2 Hw; simpl; unfold attempt;
    rewrite <- (same_answers_now _ _ q Hw);
    destruct (net w1 (wire (trace w1)) q) as [r|msg|e];
    try (exists (Failure msg), [Attempt q]; split; reflexivity);
    try (exists (Error e), [Attempt q]; split; reflexivity);
    destruct (forced policy r);
    try (exists (Answer r), [Attempt q]; split; reflexivity).
  set (pause := Sleep (backoff_factor policy * 2 ^ Z.of_nat made)).
  destruct (IH (S made) q _ _ (same_answers_extends _ _ [Attempt q; pause] Hw))
    as (out & d & H1 & H2).
  exists out, ([Attempt q; pause] ++ d)%list.
  rewrite extends_extends in H1, H2.
  replace (World (net w1) ((trace w1 ++ [Attempt q]) ++ [pause]))
    with (extends w1 [Attempt q; pause])
    by (unfold extends; now rewrite <- app_assoc).
  replace (World (net w2) ((trace w2 ++ [Attempt q]) ++ [pause]))
    with (extends w2 [Attempt q; pause])
    by (unfold extends; now rewrite <- app_assoc).
  split; [exact H1|exact H2].
Qed.

Lemma framed_attempt (q : request) (w1 w2 : world) :
  same_answers w1 w2 ->
  exists (out : outcome) (d : list event),
    attempt q w1 = (out, extends w1 d) /\ attempt q w2 = (out, extends w2 d).
Proof.
  intros Hw. unfold attempt. rewrite <- (same_answers_now _ _ q Hw).
  eexists _, [Attempt q]. split; reflexivity.
Qed.

Lemma framed_follow (transport : request -> world -> outcome * world) :
  (forall q w1 w2, same_answers w1 w2 ->
     exists (out : outcome) (d : list event),
       transport q w1 = (out, extends w1 d) /\ transport q w2 = (out, extends w2 d)) ->
  forall (redirects : nat) (q : request), framed (follow transport redirects q).
Proof.
  intros Ht. induction redirects as [|n IH]; intros q w1 w2 Hw; cbn [follow];
    destruct (Ht q w1 w2 Hw) as (out & d & -> & ->);
    destruct out as [r|msg|e]; try (eexists _, d; split; reflexivity);
    destruct (redirect_location r) as [location|];
    try (eexists _, d; split; reflexivity).
  destruct (IH (Request location []) _ _ (same_answers_extends _ _ d Hw))
    as (out & d' & H1 & H2).
  exists out, (d ++ d')%list. rewrite H1, H2, !extends_extends. split; reflexivity.
Qed.

Lemma framed_session_get (session : Session) (url : string) (params : dict) :
  framed (session_get session url params).
Proof.
  unfold session_get. apply framed_bind; [apply framed_emit|intros _].
  apply framed_follow. intros q w1 w2 Hw. now apply framed_send.
Qed.

Lemma framed_requests_get (url : string) : framed (requests_get url).
Proof.
  unfold requests_get. apply framed_bind; [apply framed_emit|intros _].
  apply framed_follow. intros q w1 w2 Hw. now apply framed_attempt.
Qed.

Create HintDb framed.

#[export] Hint Resolve framed_ret framed_raise framed_out_of_fuel framed_emit
  framed_session_get framed_requests_get : framed.

(** The steps of a computation, taken one by one. *)
Ltac frame :=
  repeat first
    [ solve [auto with framed]
    | apply framed_bind; [|intros ?]
    | apply framed_try; [|intros ?]
    | match goal with
      | |- framed (if ?b then _ else _) => destruct b
      | |- framed (match ?x with _ => _ end) => destruct x
      end ].

Lemma framed_py_get (v : json) (k : string) (default : json) : framed (py_get v k default).
Proof. unfold py_get. frame. Qed.

Lemma framed_py_getitem (v : json) (k : string) : framed (py_getitem v k).
Proof. unfold py_getitem. frame. Qed.

Lemma framed_py_first (v : json) : framed (py_first v).
Proof. unfold py_first. frame. Qed.

Lemma framed_py_in (k : string) (v : json) : framed (py_in k v).
Proof. unfold py_in. frame. Qed.

Lemma framed_py_iter (v : json) : framed (py_iter v).
Proof. unfold py_iter. frame. Qed.

Lemma framed_py_join (sep : string) (l : list json) : framed (py_join sep l).
Proof. unfold py_join. frame. Qed.

Lemma framed_table_get (t : table) (k default : json) : framed (table_get t k default).
Proof. unfold table_get. frame. Qed.

Lemma framed_py_int (s : string) : framed (py_int s).
Proof. unfold py_int. frame. Qed.

Lemma framed_response_json (r : response) : framed (response_json r).
Proof. unfold response_json. frame. Qed.

#[export] Hint Resolve framed_py_get framed_py_getitem framed_py_first framed_py_in
  framed_py_iter framed_py_join framed_table_get framed_py_int framed_response_json
  : framed.

Lemma framed_total_pages_of (r : response) : framed (total_pages_of r).
Proof. unfold total_pages_of. frame. Qed.

#[export] Hint Resolve framed_total_pages_of : framed.

Lemma framed_fetch_page (base_url : string) (params : dict) (item_name : string)
    (session : Session) (all_items : list json) (page : Z) :
  framed (fetch_page base_url params item_name session all_items page).
Proof. unfold fetch_page. frame. Qed.

#[export] Hint Resolve framed_fetch_page : framed.

Lemma framed_fetch_loop (fuel : nat) :
  forall (base_url : string) (params : dict) (item_name : string)
         (session : Session) (all_items : list json) (page : Z),
  framed (fetch_loop fuel base_url params item_name session all_items page).
Proof.
  induction fuel as [|fuel IH]; intros; cbn [fetch_loop]; frame.
Qed.

Lemma framed_fetch_all_pages (fuel : nat) (base_url : string) (params : dict)
    (item_name : string) (session : Session) :
  framed (fetch_all_pages fuel base_url params item_name session).
Proof. apply framed_fetch_loop. Qed.

#[export] Hint Resolve framed_fetch_all_pages : framed.

Lemma framed_id_name_table (items : list json) :
  forall t : table, framed (id_name_table items t).
Proof. induction items as [|x items IH]; intros t; cbn [id_name_table]; frame. Qed.

#[export] Hint Resolve framed_id_name_table : framed.

Lemma framed_fetch_all_published_posts (fuel : nat) (base_site_url : string)
    (session : Session) (categories_option tags_option : bool) :
  framed (fetch_all_published_posts fuel base_site_url session
            categories_option tags_option).
Proof. unfold fetch_all_published_posts. frame. Qed.

Lemma framed_fetch_all_categories (fuel : nat) (base_site_url : string)
    (session : Session) :
  framed (fetch_all_categories fuel base_site_url session).
Proof. unfold fetch_all_categories. frame. Qed.

Lemma framed_fetch_all_tags (fuel : nat) (base_site_url : string) (session : Session) :
  framed (fetch_all_tags fuel base_site_url session).
Proof. unfold fetch_all_tags. frame. Qed.

Lemma framed_get_image_url (post : json) (base_site_url : string) (session : Session) :
  framed (get_image_url post base_site_url session).
Proof. unfold get_image_url. frame. Qed.

Lemma framed_names_of_ids (names : table) (ids : list json) :
  framed (names_of_ids names ids).
Proof. induction ids as [|id ids IH]; cbn [names_of_ids]; frame. Qed.

#[export] Hint Resolve framed_fetch_all_published_posts framed_fetch_all_categories
  framed_fetch_all_tags framed_get_image_url framed_names_of_ids : framed.

Lemma framed_joined_names (post : json) (field : string) (names : table) :
  framed (joined_names post field names).
Proof. unfold joined_names. frame. Qed.

#[export] Hint Resolve framed_joined_names : framed.

Lemma framed_post_row (base_site_url : string) (session : Session)
    (categories_option tags_option : bool) (category_dict tag_dict : table)
    (index total_posts : nat) (post : json) :
  framed (post_row base_site_url session categories_option tags_option
            category_dict tag_dict index total_posts post).
Proof. unfold post_row. frame. Qed.

#[export] Hint Resolve framed_post_row : framed.

Lemma framed_build_rows (base_site_url : string) (session : Session)
    (categories_option tags_option : bool) (category_dict tag_dict : table)
    (total_posts : nat) (posts : list json) :
  forall (index : nat) (csv_data : list row),
  framed (build_rows base_site_url session categories_option tags_option
            category_dict tag_dict index total_posts posts csv_data).
Proof.
  induction posts as [|post posts IH]; intros; cbn [build_rows]; frame.
Qed.

#[export] Hint Resolve framed_build_rows : framed.

Lemma framed_fetch_and_build (fuel : nat) (base_site_url : string) (session : Session)
    (categories_option tags_option : bool) :
  framed (fetch_and_build fuel base_site_url session categories_option tags_option).
Proof. unfold fetch_and_build. frame. Qed.

Lemma framed_validate_wordpress_site (urlparse : string -> exn + parsed_url)
    (url : string) :
  framed (validate_wordpress_site urlparse url).
Proof. unfold validate_wordpress_site. frame. Qed.

#[export] Hint Resolve framed_fetch_and_build framed_validate_wordpress_site : framed.

Lemma framed_main (urlparse : string -> exn + parsed_url) (fuel : nat)
    (base_site_url : string) (categories_option tags_option button : bool) :
  framed (main urlparse fuel base_site_url categories_option tags_option button).
Proof. unfold main. frame. Qed.

(** C9.  The run is a function of the answers of the network and of the
    options: started from two worlds in which the network answers alike,
    for instance twice in a row against a site that has not changed, [main]
    ends the same way and shows the same things in the same order, the table
    and its download among them, and the rows built are the same. *)
Theorem pipeline_is_deterministic (urlparse : string -> exn + parsed_url) (fuel : nat)
    (base_site_url : string) (categories_option tags_option button : bool)
    (w1 w2 : world) :
  same_answers w1 w2 ->
  (exists (out : res unit) (d : list event),
     main urlparse fuel base_site_url categories_option tags_option button w1
     = (out, extends w1 d) /\
     main urlparse fuel base_site_url categories_option tags_option button w2
     = (out, extends w2 d)) /\
  (exists (built : res (option (list row))) (d : list event),
     fetch_and_build fuel base_site_url main_session categories_option tags_option w1
     = (built, extends w1 d) /\
     fetch_and_build fuel base_site_url main_session categories_option tags_option w2
     = (built, extends w2 d)).
Proof.
  intros Hw. split.
  - exact (framed_main urlparse fuel base_site_url categories_option tags_option button
             w1 w2 Hw).
  - exact (framed_fetch_and_build fuel base_site_url main_session categories_option
             tags_option w1 w2 Hw).
Qed.

Lemma pipeline_is_deterministic_witness :
  let w1 := fresh steady_site in
  let w2 := snd (main plain_urlparse 2 "https://ex.org" true false true w1) in
  (exists (out : res unit) (d : list event),
     main plain_urlparse 2 "https://ex.org" true false true w1 = (out, extends w1 d) /\
     main plain_urlparse 2 "https://ex.org" true false true w2 = (out, extends w2 d)) /\
  (exists (built : res (option (list row))) (d : list event),
     fetch_and_build 2 "https://ex.org" main_session true false w1 = (built, extends w1 d) /\
     fetch_and_build 2 "https://ex.org" main_session true false w2 = (built, extends w2 d)).
Proof.
  exact (pipeline_is_deterministic plain_urlparse 2 "https://ex.org" true false true
           (fresh steady_site)
           (snd (main plain_urlparse 2 "https://ex.org" true false true (fresh steady_site)))
           (fun next q => eq_refl)).
Defined.

(** The table [main] shows for [steady_site]. *)
Example main_steady_site :
  tables (trace (snd (main plain_urlparse 2 "https://ex.org" true false true
                        (fresh steady_site))))
  = [[[("url", JStr "https://ex.org/a"); ("title", JStr "A");
       ("content", JStr "<p>a</p>"); ("image_url", JStr "https://ex.org/a.png");
       ("categories", JStr "News, Unknown")];
      [("url", JStr "https://ex.org/c"); ("title", JStr "C");
       ("content", JStr "<p>c</p>"); ("image_url", JStr "");
       ("categories", JStr "")]]].
Proof. reflexivity. Qed.

(** ** Ordinary posts make their rows *)

Lemma get_image_url_plain (o : dict) (base_site_url : string) (session : Session)
    (w : world) :
  (truthy (featured_media_of o) = false \/
   exists entry rest url,
     truthy (featured_media_of o) = true /\
     embedded_payload o = Some (JObj entry :: rest) /\
     dict_lookup "source_url" entry = Some url) ->
  exists url, get_image_url (JObj o) base_site_url session w = (Val url, w).
Proof.
  intros [H|(entry & rest & url & H & Hemb & Hurl)].
  - eexists. apply get_image_url_none. exact H.
  - eexists. eapply get_image_url_embedded; eassumption.
Qed.

Lemma post_row_plain (base_site_url : string) (session : Session)
    (categories_option tags_option : bool) (categories tags : list (json * string))
    (index total_posts : nat) (post : json) (w : world) :
  plain_post post ->
  exists r,
    post_row base_site_url session categories_option tags_option
      (names_table categories) (names_table tags) index total_posts post w
    = (Val r, extends w [StatusText ("Processing article " ++ str_of_nat index ++ "/"
                                     ++ str_of_nat total_posts);
                         Progress index total_posts]).
Proof.
  intros (o & -> & (t & Ht) & (c & Hc) & Himg & Hcats & Htags).
  unfold post_row. unfold bind at 1. unfold emit at 1. cbn beta iota.
  unfold bind at 1. unfold emit at 1. cbn beta iota. cbn [net trace].
  rewrite <- app_assoc. cbn [app].
  fold (extends w [StatusText ("Processing article " ++ str_of_nat index ++ "/"
                               ++ str_of_nat total_posts);
                   Progress index total_posts]).
  set (w' := extends w _).
  unfold bind at 1. cbn [py_get ret].
  unfold bind at 1. unfold bind at 1. cbn [py_get ret]. fold (lookup_or o "title" (JObj [])).
  rewrite Ht. cbn [py_get ret].
  unfold bind at 1. unfold bind at 1. cbn [py_get ret]. fold (lookup_or o "content" (JObj [])).
  rewrite Hc. cbn [py_get ret].
  destruct (get_image_url_plain o base_site_url session w' Himg) as [url Hurl].
  unfold bind at 1. rewrite Hurl.
  destruct (joined_names_plain o "categories" categories w' Hcats) as [cs Hcs].
  destruct (joined_names_plain o "tags" tags w' Htags) as [ts Hts].
  destruct categories_option, tags_option; unfold bind, ret;
    rewrite ?Hcs; cbn beta iota; rewrite ?Hts; cbn beta iota;
    eexists; reflexivity.
Qed.

(** Posts as WordPress sends them, with embedded images and typed tables of
    names: the loop returns its rows, and asks nothing of the network. *)
Lemma build_rows_plain (base_site_url : string) (session : Session)
    (categories_option tags_option : bool) (categories tags : list (json * string))
    (total_posts : nat) (posts : list json) :
  Forall plain_post posts ->
  forall (index : nat) (csv_data : list row) (w : world),
  exists rows d,
    build_rows base_site_url session categories_option tags_option
      (names_table categories) (names_table tags) index total_posts posts csv_data w
    = (Val rows, extends w d) /\
    calls d = [] /\ wire d = [].
Proof.
  induction 1 as [|post posts Hpost Hposts IH]; intros index csv_data w; cbn [build_rows].
  - exists csv_data, []. rewrite extends_nil. repeat split.
  - destruct (post_row_plain base_site_url session categories_option tags_option
                categories tags index total_posts post w Hpost) as [r Hr].
    unfold bind. rewrite Hr.
    destruct (IH (S index) (csv_data ++ [r])%list
                (extends w [StatusText ("Processing article " ++ str_of_nat index ++ "/"
                                        ++ str_of_nat total_posts);
                            Progress index total_posts]))
      as (rows & d & -> & Hc & Hw).
    eexists rows, _. rewrite extends_extends. split; [reflexivity|].
    rewrite calls_app, wire_app, Hc, Hw. split; reflexivity.
Qed.

(** ** The tables of names as fetched *)

Lemma table_set_names (k : json) (n : string) (names : list (json * string)) :
  table_set k (JStr n) (names_table names) = names_table (names_set k n names).
Proof.
  induction names as [|[k' n'] names IH]; simpl; [reflexivity|].
  destruct (py_eqb k k'); simpl; [reflexivity|now rewrite IH].
Qed.

(** The dictionary built from fetched categories or tags: every identifier
    with its name, the last one fetched when an identifier comes twice. *)
Lemma id_name_table_terms (terms : list (json * string)) :
  Forall (fun kn => hashable (fst kn) = true) terms ->
  forall (names : list (json * string)) (w : world),
  id_name_table (map term_json terms) (names_table names) w
  = (Val (names_table (fold_left (fun acc kn => names_set (fst kn) (snd kn) acc)
                         terms names)), w).
Proof.
  induction 1 as [|[k n] terms Hk Hterms IH]; intros names w; cbn [map id_name_table].
  - reflexivity.
  - unfold bind. cbn [term_json fst snd py_getitem dict_lookup String.eqb Ascii.eqb
                        Bool.eqb ret] in *.
    rewrite Hk, table_set_names. apply IH.
Qed.

(** ** The validator and the resolver on the example sites *)

Example validate_rest_root_ok :
  validate_wordpress_site plain_urlparse "https://ex.org/blog" (fresh rest_root_ok)
  = (Val (true, ""),
     extends (fresh rest_root_ok)
       [Call (Request "https://ex.org/wp-json/" []);
        Attempt (Request "https://ex.org/wp-json/" [])]).
Proof. reflexivity. Qed.

Example validate_rest_root_missing :
  fst (validate_wordpress_site plain_urlparse "https://ex.org" (fresh rest_root_missing))
  = Val (false, "REST API returned status code 404.").
Proof. reflexivity. Qed.

Example validate_without_scheme :
  validate_wordpress_site plain_urlparse "www.example.com" (fresh rest_root_ok)
  = (Val (false, "Invalid URL format. Please include the scheme (http:// or https://)."),
     fresh rest_root_ok).
Proof. reflexivity. Qed.

Example validate_unreachable :
  fst (validate_wordpress_site plain_urlparse "https://ex.org" (fresh (scripted [])))
  = Val (false, "Could not connect to the REST API: Connection refused").
Proof. reflexivity. Qed.

Example plain_urlparse_examples :
  plain_urlparse "HTTPS://Ex.org?page=1" = inr {| scheme := "https"; netloc := "Ex.org" |} /\
  plain_urlparse "https://ex.org#top" = inr {| scheme := "https"; netloc := "ex.org" |} /\
  plain_urlparse "https:/ex.org" = inr {| scheme := "https"; netloc := "" |} /\
  plain_urlparse "//ex.org/blog" = inr {| scheme := ""; netloc := "ex.org" |} /\
  plain_urlparse "http://[::1/" = inl (Exn ValueError "Invalid IPv6 URL").
Proof. repeat split. Qed.

(** A URL that [urlparse] refuses makes the validator, and [main] with it,
    raise: the validation is made before the [try] block. *)
Example main_invalid_ipv6 :
  main plain_urlparse 1 "http://[::1/" true true true (fresh rest_root_ok)
  = (Raised (Exn ValueError "Invalid IPv6 URL"), fresh rest_root_ok).
Proof. reflexivity. Qed.

(** An exception that requests lets out of the GET of the REST root comes
    out of [main] as well. *)
Example main_unparsable_host :
  fst (main plain_urlparse 1 "http://www..example.com" true true true
         (fresh unparsable_host))
  = Raised (Exn ValueError "Failed to parse: 'www..example.com', label empty or too long").
Proof. reflexivity. Qed.

Example get_image_url_embedded_example :
  get_image_url (JObj post_with_embed) "https://ex.org" main_session (fresh rest_root_missing)
  = (Val (JStr "https://ex.org/a.png"), fresh rest_root_missing).
Proof. reflexivity. Qed.

Example get_image_url_fallback_example :
  get_image_url (JObj post_without_embed) "https://ex.org" main_session
    (fresh rest_root_missing)
  = (Val (JStr ""),
     extends (fresh rest_root_missing)
       [Call (media_request "https://ex.org" (JInt 9));
        Attempt (media_request "https://ex.org" (JInt 9))]).
Proof. reflexivity. Qed.

Example get_image_url_none_example :
  get_image_url (JObj post_without_image) "https://ex.org" main_session
    (fresh rest_root_missing)
  = (Val (JStr ""), fresh rest_root_missing).
Proof. reflexivity. Qed.

(** What [int] reads in a header. *)
Example int_literal_examples :
  int_literal "12" = Some 12 /\ int_literal " 7 " = Some 7 /\
  int_literal "-3" = Some (-3) /\ int_literal "1_000" = Some 1000 /\
  int_literal "" = None /\ int_literal "1.5" = None /\ int_literal "many" = None.
Proof. repeat split. Qed.

(** The unit separator is no white space for [int], the no-break space is;
    a numeral of 4300 digits is read, one of 4301 digits is refused, with the
    message of the limit. *)
Example int_literal_edges :
  int_literal (String (ascii_of_nat 31) "2") = None /\
  int_literal ("2" ++ String (ascii_of_nat 160) "") = Some 2 /\
  int_literal (string_of_list_ascii (repeat "1"%char 4300)) <> None /\
  int_literal (string_of_list_ascii (repeat "1"%char 4301)) = None /\
  int_error (string_of_list_ascii (repeat "1"%char 4301))
  = "Exceeds the limit (4300 digits) for integer string conversion: value has 4301 digits; use sys.set_int_max_str_digits() to increase the limit".
Proof.
  repeat split; try (vm_compute; reflexivity).
  vm_compute. discriminate.
Qed.

(** ** Every turn of the fetch loop *)

Lemma calls_retry_events (policy : Retry) (q : request) (k : nat) :
  forall made : nat, calls (retry_events policy q made k) = [].
Proof. induction k as [|k IH]; intros made; simpl; [reflexivity|apply IH]. Qed.

Lemma wire_retry_events (policy : Retry) (q : request) (k : nat) :
  forall made : nat, wire (retry_events policy q made k) = repeat q (S k).
Proof.
  induction k as [|k IH]; intros made; simpl; [reflexivity|]. f_equal. apply IH.
Qed.

Lemma py_iter_pure (v : json) (w : world) :
  py_iter v w = (fst (py_iter v w), w) /\
  (forall e, fst (py_iter v w) = Raised e -> is_request_exception e = false) /\
  fst (py_iter v w) <> OutOfFuel.
Proof.
  destruct v; cbn; repeat split; try discriminate; intros e H; injection H as <-; reflexivity.
Qed.

Lemma total_pages_of_pure (r : response) (w : world) :
  total_pages_of r w = (fst (total_pages_of r w), w) /\
  (forall e, fst (total_pages_of r w) = Raised e -> is_request_exception e = false) /\
  fst (total_pages_of r w) <> OutOfFuel.
Proof.
  unfold total_pages_of, py_int.
  destruct (header_lookup "X-WP-TotalPages" (headers r)) as [h|]; cbn.
  - destruct (int_literal h); cbn; repeat split; try discriminate;
      intros e H; injection H as <-; reflexivity.
  - repeat split; discriminate.
Qed.

(** What a turn does, on everything its GET can end with. *)
Lemma fetch_page_cases (base_url : string) (params : dict) (item_name : string)
    (session : Session) (all_items : list json) (page : Z) (w : world) :
  fetch_page base_url params item_name session all_items page w
  = match session_get session base_url params w with
    | (Raised e, w1) =>
        if is_request_exception e
        then (Val (all_items, None),
              extends w1 [StError ("An error occurred while fetching " ++ item_name ++ ": "
                                   ++ exn_msg e)])
        else (Raised e, w1)
    | (OutOfFuel, w1) => (OutOfFuel, w1)
    | (Val r, w1) =>
        if status_code r =? 200 then
          match resp_body r with
          | NotJson msg =>
              (Val (all_items, None),
               extends w1 [StError ("An error occurred while fetching " ++ item_name
                                    ++ ": " ++ msg)])
          | Json v =>
              match fst (py_iter v w1) with
              | Val more =>
                  match fst (total_pages_of r w1) with
                  | Val N =>
                      (Val ((all_items ++ more)%list,
                            if page >=? N then None else Some (page + 1)),
                       extends w1 [StatusText ("Fetching " ++ item_name ++ ": Page "
                                               ++ str_of_Z page ++ "/" ++ str_of_Z N)])
                  | Raised e => (Raised e, w1)
                  | OutOfFuel => (OutOfFuel, w1)
                  end
              | Raised e => (Raised e, w1)
              | OutOfFuel => (OutOfFuel, w1)
              end
          end
        else
          (Val (all_items, None),
           extends w1 [StError ("Error " ++ str_of_Z (status_code r) ++ " while fetching "
                                ++ item_name ++ " page " ++ str_of_Z page)])
    end.
Proof.
  unfold fetch_page, try_except, bind.
  destruct (session_get session base_url params w) as [[r|e|] w1]; [| |reflexivity].
  - destruct (status_code r =? 200); [|reflexivity].
    unfold response_json. destruct (resp_body r) as [v|msg]; [|reflexivity].
    cbn [ret].
    destruct (py_iter_pure v w1) as (Hv & Hve & _). rewrite Hv. clear Hv.
    destruct (fst (py_iter v w1)) as [more|e|].
    + destruct (total_pages_of_pure r w1) as (Ht & Hte & _). rewrite Ht. clear Ht.
      destruct (fst (total_pages_of r w1)) as [N|e|].
      * cbn. destruct (page >=? N); reflexivity.
      * now rewrite (Hte e eq_refl).
      * reflexivity.
    + now rewrite (Hve e eq_refl).
    + reflexivity.
  - destruct (is_request_exception e); reflexivity.
Qed.

(** A turn makes one call, keeps what was accumulated, goes on to the next
    page only, and lets no request exception out. *)
Lemma fetch_page_turn (base_url : string) (params : dict) (item_name : string)
    (session : Session) (all_items : list json) (page : Z) (w : world) :
  exists d : list event,
    snd (fetch_page base_url params item_name session all_items page w)
    = extends w (Call (Request base_url params) :: d) /\
    calls d = [] /\
    match fst (fetch_page base_url params item_name session all_items page w) with
    | Val (all_items', next) =>
        (exists more, all_items' = (all_items ++ more)%list) /\
        (next = None \/ next = Some (page + 1))
    | Raised e => is_request_exception e = false
    | OutOfFuel => False
    end.
Proof.
  rewrite fetch_page_cases.
  set (q := Request base_url params).
  destruct (session_get_trace session base_url params w) as (d0 & Hd0 & Hc0 & Hf0).
  fold q in Hd0.
  destruct (session_get session base_url params w) as [got w1].
  cbn [fst snd] in Hd0, Hf0. subst w1.
  assert (Hstop : forall e : event, calls [e] = [] ->
            exists d, extends (extends w (Call q :: d0)) [e] = extends w (Call q :: d)
                      /\ calls d = []).
  { intros e He. exists (d0 ++ [e])%list.
    split; [now rewrite extends_extends|].
    now rewrite calls_app, Hc0, He. }
  assert (Hraise : exists d, extends w (Call q :: d0) = extends w (Call q :: d)
                             /\ calls d = []).
  { exists d0. split; [reflexivity|exact Hc0]. }
  assert (Hkeep : exists more, all_items = (all_items ++ more)%list).
  { exists []. now rewrite app_nil_r. }
  set (w1 := extends w (Call q :: d0)) in *.
  destruct got as [r|e|]; [| |congruence].
  - destruct (status_code r =? 200).
    + destruct (resp_body r) as [v|msg].
      * destruct (py_iter_pure v w1) as (_ & Hve & Hvf).
        destruct (fst (py_iter v w1)) as [more|e|]; [|cbn [fst snd]|congruence].
        -- destruct (total_pages_of_pure r w1) as (_ & Hte & Htf).
           destruct (fst (total_pages_of r w1)) as [N|e|]; [|cbn [fst snd]|congruence].
           ++ cbn [fst snd].
              destruct (Hstop (StatusText ("Fetching " ++ item_name ++ ": Page "
                                           ++ str_of_Z page ++ "/" ++ str_of_Z N)) eq_refl)
                as (d & Hd & Hc).
              exists d. split; [exact Hd|]. split; [exact Hc|]. split.
              ** exists more. reflexivity.
              ** destruct (page >=? N); [left|right]; reflexivity.
           ++ destruct Hraise as (d & Hd & Hc). exists d. repeat split; auto.
        -- destruct Hraise as (d & Hd & Hc). exists d. repeat split; auto.
      * cbn [fst snd]. destruct (Hstop (StError ("An error occurred while fetching "
                                                  ++ item_name ++ ": " ++ msg)) eq_refl)
          as (d & Hd & Hc).
        exists d. repeat split; auto.
    + cbn [fst snd].
      destruct (Hstop (StError ("Error " ++ str_of_Z (status_code r) ++ " while fetching "
                                ++ item_name ++ " page " ++ str_of_Z page)) eq_refl)
        as (d & Hd & Hc).
      exists d. repeat split; auto.
  - destruct (is_request_exception e) eqn:He; cbn [fst snd].
    + destruct (Hstop (StError ("An error occurred while fetching " ++ item_name ++ ": "
                                ++ exn_msg e)) eq_refl) as (d & Hd & Hc).
      exists d. repeat split; auto.
    + destruct Hraise as (d & Hd & Hc). exists d. repeat split; auto.
Qed.

(** The loop, whatever the network answers: it asks for consecutive pages
    from the one it starts at, one call each; it returns what it started with
    and more; it lets no request exception out; and it runs out of fuel only
    after as many calls as it had turns. *)
Lemma fetch_loop_invariant (base_url : string) (params : dict) (item_name : string)
    (session : Session) (fuel : nat) :
  forall (all_items : list json) (page : Z) (w : world),
  exists (k : nat) (d : list event),
    (k <= fuel)%nat /\
    (fuel = 0%nat \/ 1 <= k)%nat /\
    snd (fetch_loop fuel base_url params item_name session all_items page w) = extends w d /\
    calls d = map (page_request base_url params) (page_numbers page k) /\
    match fst (fetch_loop fuel base_url params item_name session all_items page w) with
    | Val items => exists more, items = (all_items ++ more)%list
    | Raised e => is_request_exception e = false
    | OutOfFuel => k = fuel
    end.
Proof.
  induction fuel as [|fuel IH]; intros acc p w.
  - exists 0%nat, []. cbn. rewrite extends_nil. repeat split; auto.
  - destruct (fetch_page_turn base_url (dict_set "page" (JInt p) params) item_name
                session acc p w) as (d & Hd & Hc & Hres).
    fold (page_request base_url params p) in Hd.
    assert (Hone : calls (Call (page_request base_url params p) :: d)
                   = map (page_request base_url params) (page_numbers p 1)).
    { cbn [calls]. rewrite Hc. unfold page_numbers. cbn. now rewrite Z.add_0_r. }
    destruct (fetch_page base_url (dict_set "page" (JInt p) params) item_name session acc p w)
      as [[[acc' next]|e|] w1] eqn:Hturn; cbn [fst snd] in *; [|subst w1|contradiction].
    + destruct Hres as [[more Hmore] Hnext]. subst w1.
      destruct Hnext as [->| ->].
      * rewrite (fetch_loop_stop fuel _ _ _ _ _ _ _ _ _ Hturn).
        exists 1%nat, (Call (page_request base_url params p) :: d). cbn [fst snd].
        repeat split; auto; try lia. exists more. exact Hmore.
      * rewrite (fetch_loop_continue fuel _ _ _ _ _ _ _ _ _ _ Hturn).
        destruct (IH acc' (p + 1) (extends w (Call (page_request base_url params p) :: d)))
          as (k & d' & Hk & _ & Hw & Hcalls & Hout).
        exists (S k), ((Call (page_request base_url params p) :: d) ++ d')%list.
        rewrite Hw, extends_extends. repeat split; auto; try lia.
        -- rewrite calls_app, Hcalls, page_numbers_S. cbn [calls map app].
           now rewrite Hc.
        -- destruct (fst (fetch_loop fuel base_url params item_name session acc' (p + 1)
                            (extends w (Call (page_request base_url params p) :: d))))
             as [items|e|].
           ++ destruct Hout as [more' ->]. subst acc'. exists (more ++ more')%list.
              now rewrite app_assoc.
           ++ exact Hout.
           ++ now subst k.
    + rewrite (fetch_loop_raise fuel _ _ _ _ _ _ _ _ _ Hturn).
      exists 1%nat, (Call (page_request base_url params p) :: d). cbn [fst snd].
      repeat split; auto; try lia.
Qed.

(** ** The fetcher on any network *)

(** A collection that has moved is fetched where it is: the session follows
    the redirect, and the turn takes the page it ends with. *)
Example fetch_all_pages_moved_collection :
  let q := page_request "https://ex.org/wp-json/wp/v2/tags" [("per_page", JInt 100)] 1 in
  let site :=
    scripted [Answer (moved_to 301 "https://www.ex.org/wp-json/wp/v2/tags?per_page=100&page=1");
              Answer (page_of "1" [JInt 1; JInt 2])] in
  fetch_all_pages 1 "https://ex.org/wp-json/wp/v2/tags" [("per_page", JInt 100)] "tags"
    main_session (fresh site)
  = (Val [JInt 1; JInt 2],
     extends (fresh site)
       [Call q; Attempt q;
        Attempt (Request "https://www.ex.org/wp-json/wp/v2/tags?per_page=100&page=1" []);
        StatusText "Fetching tags: Page 1/1"]).
Proof. reflexivity. Qed.

(** X1.  Whatever the network answers, the calls [fetch_all_pages] makes are
    those of pages 1, 2, ..., [k], in that order and once each, for some [k]
    that is at least 1 when the loop has a turn to make: it never skips a
    page, asks for one twice, or asks for anything else. *)
Theorem fetch_all_pages_asks_consecutive_pages
    (fuel : nat) (base_url : string) (params : dict) (item_name : string)
    (session : Session) (w : world) :
  exists k : nat,
    (k <= fuel)%nat /\
    (fuel = 0%nat \/ 1 <= k)%nat /\
    net (snd (fetch_all_pages fuel base_url params item_name session w)) = net w /\
    calls (trace (snd (fetch_all_pages fuel base_url params item_name session w)))
    = (calls (trace w) ++ map (page_request base_url params) (page_numbers 1 k))%list.
Proof.
  unfold fetch_all_pages.
  destruct (fetch_loop_invariant base_url params item_name session fuel [] 1 w)
    as (k & d & Hk & Hone & Hw & Hc & _).
  exists k. rewrite Hw. cbn [net trace extends]. rewrite calls_app, Hc. auto.
Qed.

(** X2.  [fetch_all_pages] lets no request exception out: what it raises, if
    anything, is an exception of another class. *)
Theorem fetch_all_pages_catches_request_exceptions
    (fuel : nat) (base_url : string) (params : dict) (item_name : string)
    (session : Session) (w : world) :
  match fst (fetch_all_pages fuel base_url params item_name session w) with
  | Raised e => is_request_exception e = false
  | _ => True
  end.
Proof.
  unfold fetch_all_pages.
  destruct (fetch_loop_invariant base_url params item_name session fuel [] 1 w)
    as (k & d & _ & _ & _ & _ & Hout).
  destruct (fst (fetch_loop fuel base_url params item_name session [] 1 w)); auto.
Qed.

(** More fuel does not change a run that ended. *)
Lemma fetch_loop_more_fuel (base_url : string) (params : dict) (item_name : string)
    (session : Session) (fuel : nat) :
  forall (all_items : list json) (page : Z) (w : world) (extra : nat),
  fst (fetch_loop fuel base_url params item_name session all_items page w) <> OutOfFuel ->
  fetch_loop (fuel + extra) base_url params item_name session all_items page w
  = fetch_loop fuel base_url params item_name session all_items page w.
Proof.
  induction fuel as [|fuel IH]; intros acc p w extra Hend.
  - cbn in Hend. congruence.
  - destruct (fetch_page_turn base_url (dict_set "page" (JInt p) params) item_name
                session acc p w) as (d & _ & _ & Hres).
    destruct (fetch_page base_url (dict_set "page" (JInt p) params) item_name session acc p w)
      as [[[acc' [next|]]|e|] w1] eqn:Hturn; cbn [fst snd] in Hres; try contradiction.
    + cbn [Nat.add].
      rewrite (fetch_loop_continue (fuel + extra) _ _ _ _ _ _ _ _ _ _ Hturn).
      rewrite (fetch_loop_continue fuel _ _ _ _ _ _ _ _ _ _ Hturn) in Hend |- *.
      apply IH. exact Hend.
    + cbn [Nat.add].
      rewrite (fetch_loop_stop (fuel + extra) _ _ _ _ _ _ _ _ _ Hturn).
      now rewrite (fetch_loop_stop fuel _ _ _ _ _ _ _ _ _ Hturn).
    + cbn [Nat.add].
      rewrite (fetch_loop_raise (fuel + extra) _ _ _ _ _ _ _ _ _ Hturn).
      now rewrite (fetch_loop_raise fuel _ _ _ _ _ _ _ _ _ Hturn).
Qed.

(** X3.  What the loop has accumulated is never lost: a list returned by
    [fetch_all_pages] begins with the list of every state the run went
    through, so the items of earlier pages come first and in order. *)
Theorem fetch_all_pages_keeps_accumulated
    (fuel : nat) (base_url : string) (params : dict) (item_name : string)
    (session : Session) (w0 : world) (all_items : list json) (page : Z) (w : world)
    (items : list json) (w' : world) :
  reaches base_url params item_name session w0 all_items page w ->
  fetch_all_pages fuel base_url params item_name session w0 = (Val items, w') ->
  exists more, items = (all_items ++ more)%list.
Proof.
  intros Hreach Hrun. unfold fetch_all_pages in Hrun.
  destruct (reaches_resume _ _ _ _ _ _ _ _ Hreach) as [n Hn].
  assert (Hsame : fetch_loop fuel base_url params item_name session all_items page w
                  = (Val items, w')).
  { rewrite <- Hn, Nat.add_comm, fetch_loop_more_fuel; [exact Hrun|].
    rewrite Hrun. discriminate. }
  destruct (fetch_loop_invariant base_url params item_name session fuel all_items page w)
    as (k & d & _ & _ & _ & _ & Hout).
  rewrite Hsame in Hout. exact Hout.
Qed.

Lemma fetch_all_pages_keeps_accumulated_witness :
  exists more, [JInt 1; JInt 2; JInt 3] = ([JInt 1; JInt 2] ++ more)%list.
Proof.
  refine (fetch_all_pages_keeps_accumulated 2 "u" [] "articles" main_session
            (fresh (scripted (map Answer two_pages))) [JInt 1; JInt 2] 2
            (snd (fetch_page "u" [("page", JInt 1)] "articles" main_session [] 1
                    (fresh (scripted (map Answer two_pages)))))
            [JInt 1; JInt 2; JInt 3]
            (snd (fetch_all_pages 2 "u" [] "articles" main_session
                    (fresh (scripted (map Answer two_pages))))) _ _).
  - eapply reaches_turn; [apply reaches_start|reflexivity].
  - reflexivity.
Defined.

(** ** Termination *)

Lemma total_pages_of_val (r : response) (w : world) (N : Z) :
  fst (total_pages_of r w) = Val N ->
  (exists h, header_lookup "X-WP-TotalPages" (headers r) = Some h /\ int_literal h = Some N)
  \/ (header_lookup "X-WP-TotalPages" (headers r) = None /\ N = 1).
Proof.
  unfold total_pages_of, py_int.
  destruct (header_lookup "X-WP-TotalPages" (headers r)) as [h|]; cbn.
  - destruct (int_literal h) as [z|] eqn:Hz; cbn; intros H; inversion H; subst.
    left. exists h. split; [reflexivity|exact Hz].
  - intros H. inversion H. right. split; reflexivity.
Qed.

(** A turn that goes on: the network answered 200, with a body the loop
    could add and a total beyond the page, and the next page is the one
    after. *)
Lemma fetch_page_goes_on (base_url : string) (params : dict) (item_name : string)
    (session : Session) (all_items : list json) (page : Z) (w : world)
    (all_items' : list json) (next : Z) (w' : world) :
  fetch_page base_url params item_name session all_items page w
  = (Val (all_items', Some next), w') ->
  exists (history : list request) (q : request) (r : response) (N : Z),
    net w history q = Answer r /\
    status_code r = 200 /\
    ((exists h, header_lookup "X-WP-TotalPages" (headers r) = Some h /\
                int_literal h = Some N)
     \/ (header_lookup "X-WP-TotalPages" (headers r) = None /\ N = 1)) /\
    page < N /\ next = page + 1 /\ net w' = net w.
Proof.
  rewrite fetch_page_cases.
  destruct (session_get_trace session base_url params w) as (d0 & Hd0 & _ & _).
  destruct (session_get session base_url params w) as [[r|e|] w1] eqn:Hget;
    cbn [snd] in Hd0; subst w1.
  - destruct (session_get_answer_of_site _ _ _ _ _ _ Hget) as (history & q & Hnet).
    set (w1 := extends w (Call (Request base_url params) :: d0)) in *.
    destruct (status_code r =? 200) eqn:Hst; [|intros Heq; inversion Heq].
    destruct (resp_body r) as [v|msg]; [|intros Heq; inversion Heq].
    destruct (fst (py_iter v w1)) as [more|e|]; try (intros Heq; inversion Heq; fail).
    destruct (fst (total_pages_of r w1)) as [N|e|] eqn:Htot;
      try (intros Heq; inversion Heq; fail).
    destruct (page >=? N) eqn:Hge; intros Heq; inversion Heq; subst.
    exists history, q, r, N.
    split; [exact Hnet|]. split; [now apply Z.eqb_eq|].
    split; [exact (total_pages_of_val r w1 N Htot)|].
    split; [|split; reflexivity].
    destruct (Z.geb_spec page N); [discriminate|lia].
  - destruct (is_request_exception e); intros Heq; inversion Heq.
  - intros Heq; inversion Heq.
Qed.

Lemma fetch_loop_bounded (base_url : string) (params : dict) (item_name : string)
    (session : Session) (T : Z) (fuel : nat) :
  forall (all_items : list json) (page : Z) (w : world),
  totals_at_most (net w) T ->
  (Z.to_nat (Z.max 1 T - page) < fuel)%nat ->
  fst (fetch_loop fuel base_url params item_name session all_items page w) <> OutOfFuel.
Proof.
  induction fuel as [|fuel IH]; intros acc p w Hsite Hfuel; [lia|].
  destruct (fetch_page_turn base_url (dict_set "page" (JInt p) params) item_name
              session acc p w) as (d & _ & _ & Hres).
  destruct (fetch_page base_url (dict_set "page" (JInt p) params) item_name session acc p w)
    as [[[acc' [next|]]|e|] w1] eqn:Hturn; cbn [fst snd] in Hres; try contradiction.
  - rewrite (fetch_loop_continue fuel _ _ _ _ _ _ _ _ _ _ Hturn).
    destruct (fetch_page_goes_on _ _ _ _ _ _ _ _ _ _ Hturn)
      as (history & q & r & N & Hnet & _ & Htot & Hlt & -> & Hsame).
    assert (HN : N <= Z.max 1 T).
    { destruct Htot as [(h & Hh & Hi)|[_ ->]]; [|lia].
      specialize (Hsite _ _ _ _ _ Hnet Hh Hi). lia. }
    apply IH; [now rewrite Hsame|lia].
  - rewrite (fetch_loop_stop fuel _ _ _ _ _ _ _ _ _ Hturn). discriminate.
  - rewrite (fetch_loop_raise fuel _ _ _ _ _ _ _ _ _ Hturn). discriminate.
Qed.

(** X4.  Pagination ends on every site whose responses announce at most [T]
    pages, whatever else it answers: with [max 1 T] turns of fuel the fetcher
    returns or raises, more fuel changes nothing, and it has made at most
    [max 1 T] calls. *)
Theorem fetch_all_pages_terminates
    (T : Z) (fuel : nat) (base_url : string) (params : dict) (item_name : string)
    (session : Session) (w : world) :
  totals_at_most (net w) T ->
  (Z.to_nat (Z.max 1 T) <= fuel)%nat ->
  fst (fetch_all_pages fuel base_url params item_name session w) <> OutOfFuel /\
  fetch_all_pages fuel base_url params item_name session w
  = fetch_all_pages (Z.to_nat (Z.max 1 T)) base_url params item_name session w /\
  exists k : nat,
    (k <= Z.to_nat (Z.max 1 T))%nat /\
    calls (trace (snd (fetch_all_pages fuel base_url params item_name session w)))
    = (calls (trace w) ++ map (page_request base_url params) (page_numbers 1 k))%list.
Proof.
  intros Hsite Hfuel. unfold fetch_all_pages.
  assert (Hend : fst (fetch_loop (Z.to_nat (Z.max 1 T)) base_url params item_name
                        session [] 1 w) <> OutOfFuel).
  { apply (fetch_loop_bounded base_url params item_name session T); [exact Hsite|lia]. }
  assert (Hsame : fetch_loop fuel base_url params item_name session [] 1 w
                  = fetch_loop (Z.to_nat (Z.max 1 T)) base_url params item_name
                      session [] 1 w).
  { replace fuel with (Z.to_nat (Z.max 1 T) + (fuel - Z.to_nat (Z.max 1 T)))%nat by lia.
    apply fetch_loop_more_fuel. exact Hend. }
  rewrite Hsame. split; [exact Hend|]. split; [reflexivity|].
  destruct (fetch_loop_invariant base_url params item_name session
              (Z.to_nat (Z.max 1 T)) [] 1 w) as (k & d & Hk & _ & Hw & Hc & _).
  exists k. split; [exact Hk|]. rewrite Hw. cbn [trace extends]. now rewrite calls_app, Hc.
Qed.

Lemma fetch_all_pages_terminates_witness :
  fst (fetch_all_pages 5 "u" [] "articles" main_session (fresh same_page_of_two))
  <> OutOfFuel /\
  fetch_all_pages 5 "u" [] "articles" main_session (fresh same_page_of_two)
  = fetch_all_pages 2 "u" [] "articles" main_session (fresh same_page_of_two) /\
  exists k : nat,
    (k <= 2)%nat /\
    calls (trace (snd (fetch_all_pages 5 "u" [] "articles" main_session
                         (fresh same_page_of_two))))
    = (calls (trace (fresh same_page_of_two))
       ++ map (page_request "u" []) (page_numbers 1 k))%list.
Proof.
  refine (fetch_all_pages_terminates 2 5 "u" [] "articles" main_session
            (fresh same_page_of_two) _ _).
  - intros history q r h N Hr Hh Hi. cbn in Hr. injection Hr as <-.
    cbn in Hh. injection Hh as <-. cbn in Hi. injection Hi as <-. lia.
  - cbn. lia.
Defined.

(** ** Bodies that are not arrays *)

(** A turn answered 200 at once, on every body. *)
Lemma fetch_page_answered (base_url : string) (params : dict) (item_name : string)
    (session : Session) (all_items : list json) (page : Z) (w : world) (r : response) :
  passes_200 session ->
  net w (wire (trace w)) (Request base_url params) = Answer r ->
  status_code r = 200 ->
  let q := Request base_url params in
  let w1 := extends w [Call q; Attempt q] in
  fetch_page base_url params item_name session all_items page w
  = match resp_body r with
    | NotJson msg =>
        (Val (all_items, None),
         extends w1 [StError ("An error occurred while fetching " ++ item_name
                              ++ ": " ++ msg)])
    | Json v =>
        match fst (py_iter v w1) with
        | Val more =>
            match fst (total_pages_of r w1) with
            | Val N =>
                (Val ((all_items ++ more)%list,
                      if page >=? N then None else Some (page + 1)),
                 extends w1 [StatusText ("Fetching " ++ item_name ++ ": Page "
                                         ++ str_of_Z page ++ "/" ++ str_of_Z N)])
            | Raised e => (Raised e, w1)
            | OutOfFuel => (OutOfFuel, w1)
            end
        | Raised e => (Raised e, w1)
        | OutOfFuel => (OutOfFuel, w1)
        end
    end.
Proof.
  intros Hs Hnet Hst q w1.
  unfold fetch_page, try_except, bind.
  rewrite (session_get_once session base_url params w r Hnet (forced_200 session r Hs Hst)
             (redirect_location_200 r Hst)).
  fold q. fold w1. rewrite Hst. cbn [Z.eqb Pos.eqb].
  unfold response_json. destruct (resp_body r) as [v|msg]; [|reflexivity].
  cbn [ret].
  destruct (py_iter_pure v w1) as (Hv & Hve & _). rewrite Hv. clear Hv.
  destruct (fst (py_iter v w1)) as [more|e|].
  - destruct (total_pages_of_pure r w1) as (Ht & Hte & _). rewrite Ht. clear Ht.
    destruct (fst (total_pages_of r w1)) as [N|e|].
    + cbn. destruct (page >=? N); reflexivity.
    + now rewrite (Hte e eq_refl).
    + reflexivity.
  - now rewrite (Hve e eq_refl).
  - reflexivity.
Qed.

(** X5.  A page answered 200 with a body that is not JSON ends the run like a
    failed request: the fetcher shows the decoding error and returns the
    items of the pages before, without raising. *)
Theorem fetch_all_pages_body_not_json
    (base_url : string) (params : dict) (item_name : string) (session : Session)
    (w0 : world) (all_items : list json) (page : Z) (w : world)
    (r : response) (msg : string) :
  let q := page_request base_url params page in
  reaches base_url params item_name session w0 all_items page w ->
  passes_200 session ->
  net w (wire (trace w)) q = Answer r ->
  status_code r = 200 ->
  resp_body r = NotJson msg ->
  exists n : nat, forall fuel : nat, (n <= fuel)%nat ->
    fetch_all_pages fuel base_url params item_name session w0
    = (Val all_items,
       extends w [Call q; Attempt q;
                  StError ("An error occurred while fetching " ++ item_name
                           ++ ": " ++ msg)]).
Proof.
  intros q Hreach Hs Hnet Hst Hbody.
  destruct (reaches_resume _ _ _ _ _ _ _ _ Hreach) as [n Hn].
  exists (S n). intros fuel Hfuel. unfold fetch_all_pages.
  replace fuel with (n + S (fuel - S n))%nat by lia. rewrite Hn.
  apply fetch_loop_stop.
  rewrite (fetch_page_answered _ _ item_name session all_items page w r Hs Hnet Hst).
  rewrite Hbody. rewrite extends_extends. reflexivity.
Qed.

Lemma fetch_all_pages_body_not_json_witness :
  let q := page_request "u" [] 2 in
  exists n : nat, forall fuel : nat, (n <= fuel)%nat ->
    fetch_all_pages fuel "u" [] "articles" main_session (fresh html_on_page_2)
    = (Val [JInt 1; JInt 2],
       extends (snd (fetch_page "u" [("page", JInt 1)] "articles" main_session [] 1
                       (fresh html_on_page_2)))
         [Call q; Attempt q;
          StError "An error occurred while fetching articles: Expecting value: line 1 column 1 (char 0)"]).
Proof.
  refine (fetch_all_pages_body_not_json "u" [] "articles" main_session
            (fresh html_on_page_2) [JInt 1; JInt 2] 2
            (snd (fetch_page "u" [("page", JInt 1)] "articles" main_session [] 1
                    (fresh html_on_page_2)))
            (Response 200 [] (NotJson "Expecting value: line 1 column 1 (char 0)"))
            "Expecting value: line 1 column 1 (char 0)" _ _ _ _ _).
  - eapply reaches_turn; [apply reaches_start|reflexivity].
  - reflexivity.
  - reflexivity.
  - reflexivity.
  - reflexivity.
Defined.

(** X6.  A page answered 200 with JSON that is null, a boolean or a number
    makes the fetcher raise a [TypeError], which its handler does not catch:
    the items of the pages before are not returned. *)
Theorem fetch_all_pages_body_not_iterable
    (base_url : string) (params : dict) (item_name : string) (session : Session)
    (w0 : world) (all_items : list json) (page : Z) (w : world)
    (r : response) (v : json) :
  let q := page_request base_url params page in
  reaches base_url params item_name session w0 all_items page w ->
  passes_200 session ->
  net w (wire (trace w)) q = Answer r ->
  status_code r = 200 ->
  resp_body r = Json v ->
  (v = JNull \/ (exists b, v = JBool b) \/ (exists z, v = JInt z)) ->
  exists n : nat, forall fuel : nat, (n <= fuel)%nat ->
    fetch_all_pages fuel base_url params item_name session w0
    = (Raised (Exn TypeError ("'" ++ type_name v ++ "' object is not iterable")),
       extends w [Call q; Attempt q]).
Proof.
  intros q Hreach Hs Hnet Hst Hbody Hv.
  destruct (reaches_resume _ _ _ _ _ _ _ _ Hreach) as [n Hn].
  exists (S n). intros fuel Hfuel. unfold fetch_all_pages.
  replace fuel with (n + S (fuel - S n))%nat by lia. rewrite Hn.
  apply fetch_loop_raise.
  rewrite (fetch_page_answered _ _ item_name session all_items page w r Hs Hnet Hst).
  rewrite Hbody. destruct Hv as [->|[[b ->]|[z ->]]]; reflexivity.
Qed.

Lemma fetch_all_pages_body_not_iterable_witness :
  let q := page_request "u" [] 1 in
  exists n : nat, forall fuel : nat, (n <= fuel)%nat ->
    fetch_all_pages fuel "u" [] "articles" main_session (fresh number_body)
    = (Raised (Exn TypeError "'int' object is not iterable"),
       extends (fresh number_body) [Call q; Attempt q]).
Proof.
  refine (fetch_all_pages_body_not_iterable "u" [] "articles" main_session
            (fresh number_body) [] 1 (fresh number_body)
            (Response 200 [] (Json (JInt 5))) (JInt 5) _ _ _ _ _ _).
  - apply reaches_start.
  - reflexivity.
  - reflexivity.
  - reflexivity.
  - reflexivity.
  - right. right. exists 5. reflexivity.
Defined.

(** X7.  A page answered 200 with a JSON object (an error payload, say) is
    taken as a page all the same: the keys of the object are added to the
    items, as strings, in the order of the object. *)
Theorem fetch_all_pages_object_body
    (base_url : string) (params : dict) (item_name : string) (session : Session)
    (w0 : world) (all_items : list json) (page : Z) (w : world)
    (r : response) (o : dict) (N : Z) :
  let q := page_request base_url params page in
  reaches base_url params item_name session w0 all_items page w ->
  passes_200 session ->
  net w (wire (trace w)) q = Answer r ->
  status_code r = 200 ->
  resp_body r = Json (JObj o) ->
  (forall w', total_pages_of r w' = (Val N, w')) ->
  page >= N ->
  exists n : nat, forall fuel : nat, (n <= fuel)%nat ->
    fetch_all_pages fuel base_url params item_name session w0
    = (Val (all_items ++ map (fun kv => JStr (fst kv)) o)%list,
       extends w [Call q; Attempt q;
                  StatusText ("Fetching " ++ item_name ++ ": Page " ++ str_of_Z page
                              ++ "/" ++ str_of_Z N)]).
Proof.
  intros q Hreach Hs Hnet Hst Hbody Htot Hge.
  destruct (reaches_resume _ _ _ _ _ _ _ _ Hreach) as [n Hn].
  exists (S n). intros fuel Hfuel. unfold fetch_all_pages.
  replace fuel with (n + S (fuel - S n))%nat by lia. rewrite Hn.
  apply fetch_loop_stop.
  rewrite (fetch_page_answered _ _ item_name session all_items page w r Hs Hnet Hst).
  rewrite Hbody, Htot. cbn [py_iter ret fst].
  assert (Hgeb : (page >=? N) = true) by (apply Z.geb_le; lia).
  rewrite Hgeb, extends_extends. reflexivity.
Qed.

Lemma fetch_all_pages_object_body_witness :
  let q := page_request "u" [] 1 in
  exists n : nat, forall fuel : nat, (n <= fuel)%nat ->
    fetch_all_pages fuel "u" [] "articles" main_session (fresh error_object_body)
    = (Val [JStr "code"; JStr "message"],
       extends (fresh error_object_body)
         [Call q; Attempt q; StatusText "Fetching articles: Page 1/1"]).
Proof.
  refine (fetch_all_pages_object_body "u" [] "articles" main_session
            (fresh error_object_body) [] 1 (fresh error_object_body)
            (Response 200 []
               (Json (JObj [("code", JStr "rest_disabled");
                            ("message", JStr "The REST API is disabled.")])))
            [("code", JStr "rest_disabled"); ("message", JStr "The REST API is disabled.")]
            1 _ _ _ _ _ _ _).
  - apply reaches_start.
  - reflexivity.
  - reflexivity.
  - reflexivity.
  - reflexivity.
  - intros w'. reflexivity.
  - lia.
Defined.

(** ** The dictionaries of categories and tags *)

Lemma py_eqb_sym (a b : json) : py_eqb a b = py_eqb b a.
Proof.
  destruct a as [|[|]| | | |], b as [|[|]| | | |]; cbv [py_eqb as_number];
    try reflexivity; try apply Z.eqb_sym; try apply String.eqb_sym.
Qed.

Lemma py_eqb_trans (a b c : json) :
  py_eqb a b = true -> py_eqb b c = true -> py_eqb a c = true.
Proof.
  destruct a as [|[|]|x|s| |], b as [|[|]|y|t| |], c as [|[|]|z|u| |];
    cbv [py_eqb as_number]; try discriminate; try reflexivity;
    rewrite ?Z.eqb_eq, ?String.eqb_eq; intros; subst; try reflexivity;
    try lia; try discriminate.
Qed.

Lemma py_eqb_same (a b c : json) :
  py_eqb a b = true -> py_eqb a c = py_eqb b c.
Proof.
  intros Hab. destruct (py_eqb b c) eqn:Hbc.
  - exact (py_eqb_trans a b c Hab Hbc).
  - destruct (py_eqb a c) eqn:Hac; [|reflexivity].
    rewrite py_eqb_sym in Hab. now rewrite (py_eqb_trans b a c Hab Hac) in Hbc.
Qed.

(** Lookup after insertion. *)
Lemma name_in_names_set (id k : json) (n : string) (names : list (json * string)) :
  name_in id (names_set k n names)
  = if py_eqb id k then Some n else name_in id names.
Proof.
  induction names as [|[k' n'] names IH]; cbn [names_set name_in].
  - destruct (py_eqb id k); reflexivity.
  - destruct (py_eqb k k') eqn:Hkk; cbn [name_in].
    + assert (E : py_eqb id k' = py_eqb id k).
      { rewrite (py_eqb_sym id k'), (py_eqb_sym id k). symmetry.
        apply py_eqb_same. exact Hkk. }
      rewrite E. destruct (py_eqb id k); reflexivity.
    + rewrite IH.
      destruct (py_eqb id k) eqn:Hid, (py_eqb id k') eqn:Hid'; try reflexivity.
      exfalso. rewrite py_eqb_sym in Hid.
      rewrite (py_eqb_trans k id k' Hid Hid') in Hkk. discriminate.
Qed.

Lemma name_in_fold_names_set (id : json) (terms : list (json * string)) :
  forall names : list (json * string),
  name_in id (fold_left (fun acc kn => names_set (fst kn) (snd kn) acc) terms names)
  = fold_left (fun found kn => if py_eqb id (fst kn) then Some (snd kn) else found)
      terms (name_in id names).
Proof.
  induction terms as [|[k n] terms IH]; intros names; cbn [fold_left fst snd].
  - reflexivity.
  - rewrite IH, name_in_names_set. reflexivity.
Qed.

Lemma id_name_table_app_terms (terms : list (json * string)) (more : list json) :
  Forall (fun kn => hashable (fst kn) = true) terms ->
  forall (names : list (json * string)) (w : world),
  id_name_table (map term_json terms ++ more) (names_table names) w
  = id_name_table more
      (names_table (fold_left (fun acc kn => names_set (fst kn) (snd kn) acc) terms names))
      w.
Proof.
  induction 1 as [|[k n] terms Hk Hterms IH]; intros names w; cbn [map app id_name_table].
  - reflexivity.
  - unfold bind. cbn [term_json fst snd py_getitem dict_lookup String.eqb Ascii.eqb
                        Bool.eqb ret] in *.
    rewrite Hk, table_set_names. apply IH.
Qed.

(** The dictionary of a list of well-formed terms, by its lookups. *)
Lemma id_name_table_last_name (terms : list (json * string)) (w : world) :
  Forall (fun kn => hashable (fst kn) = true) terms ->
  exists names : list (json * string),
    id_name_table (map term_json terms) [] w = (Val (names_table names), w) /\
    forall id, name_in id names = last_name id terms.
Proof.
  intros Hterms.
  exists (fold_left (fun acc kn => names_set (fst kn) (snd kn) acc) terms []).
  split.
  - exact (id_name_table_terms terms Hterms [] w).
  - intros id. rewrite name_in_fold_names_set. reflexivity.
Qed.

(** X8.  The dictionary [fetch_all_categories] builds (and likewise
    [fetch_all_tags]) from fetched terms that each have an identifier and a
    name gives every identifier the name of the last fetched term that has
    it, and no name to an identifier that no term has; the status line then
    says all were fetched. *)
Theorem fetched_dictionary_last_name_wins
    (fuel : nat) (base_site_url : string) (session : Session)
    (terms : list (json * string)) (w w1 : world) :
  Forall (fun kn => hashable (fst kn) = true) terms ->
  (fetch_all_pages fuel (base_site_url ++ "/wp-json/wp/v2/categories")
     [("per_page", JInt 100)] "categories" session w = (Val (map term_json terms), w1) ->
   exists names,
     fetch_all_categories fuel base_site_url session w
     = (Val (names_table names),
        extends w1 [StatusText "All categories have been fetched."]) /\
     forall id, name_in id names = last_name id terms) /\
  (fetch_all_pages fuel (base_site_url ++ "/wp-json/wp/v2/tags")
     [("per_page", JInt 100)] "tags" session w = (Val (map term_json terms), w1) ->
   exists names,
     fetch_all_tags fuel base_site_url session w
     = (Val (names_table names), extends w1 [StatusText "All tags have been fetched."]) /\
     forall id, name_in id names = last_name id terms).
Proof.
  intros Hterms.
  destruct (id_name_table_last_name terms w1 Hterms) as (names & Htable & Hnames).
  split; intros Hfetch; exists names; (split; [|exact Hnames]).
  - unfold fetch_all_categories. unfold bind at 1. rewrite Hfetch.
    unfold bind at 1. rewrite Htable. reflexivity.
  - unfold fetch_all_tags. unfold bind at 1. rewrite Hfetch.
    unfold bind at 1. rewrite Htable. reflexivity.
Qed.

Lemma fetched_dictionary_last_name_wins_witness :
  exists names,
    fetch_all_categories 1 "https://ex.org" main_session (fresh renamed_site)
    = (Val (names_table names),
       extends (snd (fetch_all_pages 1 "https://ex.org/wp-json/wp/v2/categories"
                       [("per_page", JInt 100)] "categories" main_session
                       (fresh renamed_site)))
         [StatusText "All categories have been fetched."]) /\
    forall id, name_in id names = last_name id renamed_terms.
Proof.
  refine (proj1 (fetched_dictionary_last_name_wins 1 "https://ex.org" main_session
                   renamed_terms (fresh renamed_site) _ _) _).
  - repeat constructor.
  - reflexivity.
Defined.

(** X9.  A fetched category (or tag) that is an object without an [id], or
    with an [id] and without a [name], makes [fetch_all_categories] raise a
    [KeyError] naming the missing key, whatever terms came before it; no
    dictionary is returned and the status line is not written. *)
Theorem fetch_all_categories_missing_key
    (fuel : nat) (base_site_url : string) (session : Session)
    (terms : list (json * string)) (o : dict) (rest : list json) (w w1 : world) :
  Forall (fun kn => hashable (fst kn) = true) terms ->
  fetch_all_pages fuel (base_site_url ++ "/wp-json/wp/v2/categories")
    [("per_page", JInt 100)] "categories" session w
  = (Val (map term_json terms ++ JObj o :: rest)%list, w1) ->
  (dict_lookup "id" o = None ->
   fetch_all_categories fuel base_site_url session w = (Raised (Exn KeyError "'id'"), w1)) /\
  (dict_lookup "id" o <> None -> dict_lookup "name" o = None ->
   fetch_all_categories fuel base_site_url session w = (Raised (Exn KeyError "'name'"), w1)).
Proof.
  intros Hterms Hfetch.
  assert (Happ := id_name_table_app_terms terms (JObj o :: rest) Hterms [] w1).
  change (names_table []) with (@nil (json * json)) in Happ.
  assert (Hrun : forall k : table -> M table,
            bind (id_name_table (map term_json terms ++ JObj o :: rest) []) k w1
            = bind (id_name_table (JObj o :: rest)
                      (names_table (fold_left
                                      (fun acc kn => names_set (fst kn) (snd kn) acc)
                                      terms []))) k w1).
  { intros k. unfold bind. now rewrite Happ. }
  split.
  - intros Hid. unfold fetch_all_categories. unfold bind at 1. rewrite Hfetch, Hrun.
    cbn [id_name_table]. unfold bind. cbn [py_getitem]. rewrite Hid. reflexivity.
  - intros Hid Hname. unfold fetch_all_categories. unfold bind at 1. rewrite Hfetch, Hrun.
    cbn [id_name_table]. unfold bind. cbn [py_getitem]. rewrite Hname.
    destruct (dict_lookup "id" o); [reflexivity|congruence].
Qed.

Lemma fetch_all_categories_missing_key_witness :
  (dict_lookup "id" [("id", JInt 2)] = None ->
   fetch_all_categories 1 "https://ex.org" main_session (fresh nameless_site)
   = (Raised (Exn KeyError "'id'"),
      snd (fetch_all_pages 1 "https://ex.org/wp-json/wp/v2/categories"
             [("per_page", JInt 100)] "categories" main_session (fresh nameless_site)))) /\
  (dict_lookup "id" [("id", JInt 2)] <> None -> dict_lookup "name" [("id", JInt 2)] = None ->
   fetch_all_categories 1 "https://ex.org" main_session (fresh nameless_site)
   = (Raised (Exn KeyError "'name'"),
      snd (fetch_all_pages 1 "https://ex.org/wp-json/wp/v2/categories"
             [("per_page", JInt 100)] "categories" main_session (fresh nameless_site)))).
Proof.
  refine (fetch_all_categories_missing_key 1 "https://ex.org" main_session
            [(JInt 1, "News")] [("id", JInt 2)] [] (fresh nameless_site) _ _ _).
  - repeat constructor.
  - reflexivity.
Defined.

(** X10.  When the first page of categories cannot be fetched, the fetcher's
    error is shown, [fetch_all_categories] still returns a dictionary, the
    empty one, and the status line still says that all categories have been
    fetched. *)
Theorem fetch_all_categories_after_failure
    (fuel : nat) (base_site_url : string) (session : Session)
    (w : world) (got : res response) (w1 : world) :
  session_get session (base_site_url ++ "/wp-json/wp/v2/categories")
    [("per_page", JInt 100); ("page", JInt 1)] w = (got, w1) ->
  failed got ->
  exists msg,
    fetch_all_categories (S fuel) base_site_url session w
    = (Val [], extends w1 [StError msg; StatusText "All categories have been fetched."]).
Proof.
  intros Hget Hfail.
  destruct (fetch_page_failed (base_site_url ++ "/wp-json/wp/v2/categories")
              [("per_page", JInt 100); ("page", JInt 1)] "categories" session [] 1
              w got w1 Hget Hfail) as [msg Hturn].
  exists msg. unfold fetch_all_categories, fetch_all_pages. unfold bind at 1.
  rewrite (fetch_loop_stop fuel _ [("per_page", JInt 100)] _ _ _ _ _ _ _ Hturn).
  unfold bind. cbn [id_name_table ret emit]. unfold extends. cbn [net trace].
  now rewrite <- app_assoc.
Qed.

Lemma fetch_all_categories_after_failure_witness :
  exists msg,
    fetch_all_categories 1 "https://ex.org" main_session (fresh rest_root_missing)
    = (Val [],
       extends (snd (session_get main_session "https://ex.org/wp-json/wp/v2/categories"
                       [("per_page", JInt 100); ("page", JInt 1)]
                       (fresh rest_root_missing)))
         [StError msg; StatusText "All categories have been fetched."]).
Proof.
  refine (fetch_all_categories_after_failure 0 "https://ex.org" main_session
            (fresh rest_root_missing)
            (fst (session_get main_session "https://ex.org/wp-json/wp/v2/categories"
                    [("per_page", JInt 100); ("page", JInt 1)] (fresh rest_root_missing)))
            _ _ _).
  - reflexivity.
  - cbn. discriminate.
Defined.

(** ** The calls a computation makes *)

Lemma emits_weaken {A} (m : M A) (Q Q' : list request -> Prop) :
  emits m Q -> (forall l, Q l -> Q' l) -> emits m Q'.
Proof. intros Hm HQ w. destruct (Hm w) as (d & Hd & Hq). exists d. auto. Qed.

Lemma emits_ret {A} (a : A) : emits (ret a) (fun l => l = []).
Proof. intros w. exists []. cbn. now rewrite extends_nil. Qed.

Lemma emits_raise {A} (e : exn) : emits (@raise A e) (fun l => l = []).
Proof. intros w. exists []. cbn. now rewrite extends_nil. Qed.

Lemma emits_out_of_fuel {A} : emits (fun w => (@OutOfFuel A, w)) (fun l => l = []).
Proof. intros w. exists []. cbn. now rewrite extends_nil. Qed.

Lemma emits_emit (e : event) : (forall q, e <> Call q) -> emits (emit e) (fun l => l = []).
Proof.
  intros He w. exists [e]. split; [reflexivity|].
  destruct e; try reflexivity. now destruct (He r).
Qed.

Lemma emits_bind {A B} (m : M A) (k : A -> M B) (Q1 Q2 Q : list request -> Prop) :
  emits m Q1 -> (forall a, emits (k a) Q2) ->
  (forall l1, Q1 l1 -> Q l1) ->
  (forall l1 l2, Q1 l1 -> Q2 l2 -> Q (l1 ++ l2)%list) ->
  emits (bind m k) Q.
Proof.
  intros Hm Hk Hleft Hboth w. unfold bind.
  destruct (Hm w) as (d & Hd & Hq).
  destruct (m w) as [[a|e|] w1]; cbn [snd] in Hd; subst w1.
  - destruct (Hk a (extends w d)) as (d' & Hd' & Hq').
    exists (d ++ d')%list. rewrite Hd', extends_extends, calls_app. auto.
  - exists d. auto.
  - exists d. auto.
Qed.

Lemma emits_try {A} (catches : exn -> bool) (m : M A) (h : exn -> M A)
    (Q1 Q2 Q : list request -> Prop) :
  emits m Q1 -> (forall e, emits (h e) Q2) ->
  (forall l1, Q1 l1 -> Q l1) ->
  (forall l1 l2, Q1 l1 -> Q2 l2 -> Q (l1 ++ l2)%list) ->
  emits (try_except catches m h) Q.
Proof.
  intros Hm Hh Hleft Hboth w. unfold try_except.
  destruct (Hm w) as (d & Hd & Hq).
  destruct (m w) as [[a|e|] w1]; cbn [snd] in Hd; subst w1.
  - exists d. auto.
  - destruct (catches e).
    + destruct (Hh e (extends w d)) as (d' & Hd' & Hq').
      exists (d ++ d')%list. rewrite Hd', extends_extends, calls_app. auto.
    + exists d. auto.
  - exists d. auto.
Qed.

(** The rules for computations that make no call. *)
Lemma emits_bind_quiet {A B} (m : M A) (k : A -> M B) (Q : list request -> Prop) :
  emits m (fun l => l = []) -> (forall a, emits (k a) Q) -> Q [] -> emits (bind m k) Q.
Proof.
  intros Hm Hk Hnil.
  apply emits_bind with (Q1 := fun l => l = []) (Q2 := Q); auto.
  - intros l1 ->. exact Hnil.
  - intros l1 l2 -> H. exact H.
Qed.

Lemma emits_try_quiet_handler {A} (catches : exn -> bool) (m : M A) (h : exn -> M A)
    (Q : list request -> Prop) :
  emits m Q -> (forall e, emits (h e) (fun l => l = [])) ->
  emits (try_except catches m h) Q.
Proof.
  intros Hm Hh.
  apply emits_try with (Q1 := Q) (Q2 := fun l => l = []); auto.
  intros l1 l2 H ->. now rewrite app_nil_r.
Qed.

(** The rules for a property of each call. *)
Lemma emits_bind_each {A B} (m : M A) (k : A -> M B) (P : request -> Prop) :
  emits m (Forall P) -> (forall a, emits (k a) (Forall P)) -> emits (bind m k) (Forall P).
Proof.
  intros Hm Hk. apply emits_bind with (Q1 := Forall P) (Q2 := Forall P); auto.
  intros l1 l2 H1 H2. apply Forall_app. auto.
Qed.

Lemma emits_try_each {A} (catches : exn -> bool) (m : M A) (h : exn -> M A)
    (P : request -> Prop) :
  emits m (Forall P) -> (forall e, emits (h e) (Forall P)) ->
  emits (try_except catches m h) (Forall P).
Proof.
  intros Hm Hh. apply emits_try with (Q1 := Forall P) (Q2 := Forall P); auto.
  intros l1 l2 H1 H2. apply Forall_app. auto.
Qed.

Lemma emits_quiet_each {A} (m : M A) (P : request -> Prop) :
  emits m (fun l => l = []) -> emits m (Forall P).
Proof. intros Hm. apply (emits_weaken m _ _ Hm). intros l ->. constructor. Qed.

Lemma emits_session_get (session : Session) (url : string) (params : dict) :
  emits (session_get session url params) (fun l => l = [Request url params]).
Proof.
  intros w. destruct (session_get_trace session url params w) as (d & Hd & Hc & _).
  exists (Call (Request url params) :: d). split; [exact Hd|].
  cbn [calls]. now rewrite Hc.
Qed.

Lemma emits_requests_get (url : string) :
  emits (requests_get url) (fun l => l = [Request url []]).
Proof.
  intros w. destruct (requests_get_trace url w) as (d & Hd & Hc & _).
  exists (Call (Request url []) :: d). split; [exact Hd|].
  cbn [calls]. now rewrite Hc.
Qed.

Lemma emits_session_get_each (session : Session) (url : string) (params : dict)
    (P : request -> Prop) :
  P (Request url params) -> emits (session_get session url params) (Forall P).
Proof.
  intros HP. apply (emits_weaken _ _ _ (emits_session_get session url params)).
  intros l ->. repeat constructor. exact HP.
Qed.

Lemma emits_requests_get_each (url : string) (P : request -> Prop) :
  P (Request url []) -> emits (requests_get url) (Forall P).
Proof.
  intros HP. apply (emits_weaken _ _ _ (emits_requests_get url)).
  intros l ->. repeat constructor. exact HP.
Qed.

Create HintDb quiet.

#[export] Hint Resolve emits_ret emits_raise emits_out_of_fuel : quiet.

#[export] Hint Extern 1 (emits (emit _) _) => apply emits_emit; discriminate : quiet.

(** Computations made of steps that make no call. *)
Ltac quiet :=
  repeat first
    [ solve [auto with quiet]
    | apply emits_bind_quiet; [|intros ?|reflexivity]
    | match goal with
      | |- emits (if ?b then _ else _) _ => destruct b
      | |- emits (match ?x with _ => _ end) _ => destruct x
      end ].

Lemma emits_py_get (v : json) (k : string) (default : json) :
  emits (py_get v k default) (fun l => l = []).
Proof. unfold py_get. quiet. Qed.

Lemma emits_py_getitem (v : json) (k : string) : emits (py_getitem v k) (fun l => l = []).
Proof. unfold py_getitem. quiet. Qed.

Lemma emits_py_first (v : json) : emits (py_first v) (fun l => l = []).
Proof. unfold py_first. quiet. Qed.

Lemma emits_py_in (k : string) (v : json) : emits (py_in k v) (fun l => l = []).
Proof. unfold py_in. quiet. Qed.

Lemma emits_py_iter (v : json) : emits (py_iter v) (fun l => l = []).
Proof. unfold py_iter. quiet. Qed.

Lemma emits_py_join (sep : string) (l : list json) : emits (py_join sep l) (fun l => l = []).
Proof. unfold py_join. quiet. Qed.

Lemma emits_table_get (t : table) (k default : json) :
  emits (table_get t k default) (fun l => l = []).
Proof. unfold table_get. quiet. Qed.

Lemma emits_py_int (s : string) : emits (py_int s) (fun l => l = []).
Proof. unfold py_int. quiet. Qed.

Lemma emits_response_json (r : response) : emits (response_json r) (fun l => l = []).
Proof. unfold response_json. quiet. Qed.

#[export] Hint Resolve emits_py_get emits_py_getitem emits_py_first emits_py_in
  emits_py_iter emits_py_join emits_table_get emits_py_int emits_response_json : quiet.

Lemma emits_total_pages_of (r : response) : emits (total_pages_of r) (fun l => l = []).
Proof. unfold total_pages_of. quiet. Qed.

Lemma emits_names_of_ids (names : table) (ids : list json) :
  emits (names_of_ids names ids) (fun l => l = []).
Proof. induction ids as [|id ids IH]; cbn [names_of_ids]; quiet. Qed.

#[export] Hint Resolve emits_total_pages_of emits_names_of_ids : quiet.

Lemma emits_joined_names (post : json) (field : string) (names : table) :
  emits (joined_names post field names) (fun l => l = []).
Proof. unfold joined_names. quiet. Qed.

Lemma emits_id_name_table (items : list json) :
  forall t : table, emits (id_name_table items t) (fun l => l = []).
Proof. induction items as [|x items IH]; intros t; cbn [id_name_table]; quiet. Qed.

#[export] Hint Resolve emits_joined_names emits_id_name_table : quiet.

Lemma emits_bind_then_quiet {A B} (m : M A) (k : A -> M B) (Q : list request -> Prop) :
  emits m Q -> (forall a, emits (k a) (fun l => l = [])) -> emits (bind m k) Q.
Proof.
  intros Hm Hk. apply emits_bind with (Q1 := Q) (Q2 := fun l => l = []); auto.
  intros l1 l2 H ->. now rewrite app_nil_r.
Qed.

(** ** At most one lookup per post *)

Lemma emits_media_fallback (session : Session) (url : string) (media_id : json) :
  emits
    (try_except is_request_exception
       (response <- session_get session url [] ;;
        if status_code response =? 200 then
          media_data <- response_json response ;;
          py_get media_data "source_url" (JStr "")
        else ret (JStr ""))
       (fun e =>
          emit (StWarning ("Failed to fetch media ID " ++ py_str media_id ++ ": "
                           ++ exn_msg e)) ;;;
          ret (JStr "")))
    (fun l => l = [Request url []]).
Proof.
  apply emits_try_quiet_handler; [|intros e; quiet].
  apply emits_bind_then_quiet; [apply emits_session_get|].
  intros response. quiet.
Qed.

Lemma emits_get_image_url (post : json) (base_site_url : string) (session : Session) :
  emits (get_image_url post base_site_url session)
    (media_lookup_or_nothing base_site_url).
Proof.
  assert (Hnone : media_lookup_or_nothing base_site_url []) by (left; reflexivity).
  assert (Hquiet : forall (A : Type) (m : M A),
            emits m (fun l => l = []) -> emits m (media_lookup_or_nothing base_site_url)).
  { intros A m Hm. apply (emits_weaken m _ _ Hm). intros l ->. exact Hnone. }
  unfold get_image_url.
  apply emits_bind_quiet; [auto with quiet|intros featured_media|exact Hnone].
  destruct (truthy featured_media); [|apply Hquiet; auto with quiet].
  apply emits_bind_quiet; [auto with quiet|intros embedded|exact Hnone].
  apply emits_bind_quiet; [auto with quiet|intros embedded_media|exact Hnone].
  apply emits_bind_quiet; [quiet|intros embedded_url|exact Hnone].
  destruct embedded_url as [url|]; [apply Hquiet; auto with quiet|].
  apply emits_bind_quiet; [auto with quiet|intros media_id|exact Hnone].
  apply (emits_weaken _ _ _ (emits_media_fallback session _ media_id)).
  intros l ->. right. exists media_id. reflexivity.
Qed.

(** X11.  Whatever the post is, [get_image_url] makes no call or one, and a
    call it makes is the GET of a media item of the site. *)
Theorem get_image_url_at_most_one_lookup (post : json) (base_site_url : string)
    (session : Session) (w : world) :
  exists d : list event,
    snd (get_image_url post base_site_url session w) = extends w d /\
    (calls d = [] \/ exists media_id, calls d = [media_request base_site_url media_id]).
Proof. exact (emits_get_image_url post base_site_url session w). Qed.

Lemma emits_post_row (base_site_url : string) (session : Session)
    (categories_option tags_option : bool) (category_dict tag_dict : table)
    (index total_posts : nat) (post : json) :
  emits (post_row base_site_url session categories_option tags_option
           category_dict tag_dict index total_posts post)
    (media_lookup_or_nothing base_site_url).
Proof.
  assert (Hnone : media_lookup_or_nothing base_site_url []) by (left; reflexivity).
  unfold post_row.
  apply emits_bind_quiet; [auto with quiet|intros _|exact Hnone].
  apply emits_bind_quiet; [auto with quiet|intros _|exact Hnone].
  apply emits_bind_quiet; [auto with quiet|intros url|exact Hnone].
  apply emits_bind_quiet; [quiet|intros title|exact Hnone].
  apply emits_bind_quiet; [quiet|intros content|exact Hnone].
  apply emits_bind_then_quiet.
  - apply emits_get_image_url.
  - intros image_url. quiet.
Qed.

Lemma emits_build_rows (base_site_url : string) (session : Session)
    (categories_option tags_option : bool) (category_dict tag_dict : table)
    (total_posts : nat) (posts : list json) :
  forall (index : nat) (csv_data : list row),
  emits (build_rows base_site_url session categories_option tags_option
           category_dict tag_dict index total_posts posts csv_data)
    (fun l => (List.length l <= List.length posts)%nat /\
              Forall (fun q => exists media_id, q = media_request base_site_url media_id) l).
Proof.
  induction posts as [|post posts IH]; intros index csv_data; cbn [build_rows].
  - apply (emits_weaken _ _ _ (emits_ret csv_data)). intros l ->. split; [cbn; lia|constructor].
  - eapply emits_bind; [apply emits_post_row|intros r; apply IH| |].
    + intros l1 [->|[media_id ->]]; cbn [List.length]; split; try lia; repeat constructor.
      exists media_id. reflexivity.
    + intros l1 l2 H1 [Hlen Hall]. rewrite length_app. cbn [List.length].
      destruct H1 as [->|[media_id ->]]; cbn [List.length app]; split; try lia; auto.
      constructor; [exists media_id; reflexivity|exact Hall].
Qed.

(** X12.  The loop over the posts makes at most one call per post, each the
    GET of a media item of the site, whatever the posts are and whatever the
    network answers. *)
Theorem build_rows_at_most_one_lookup_per_post (base_site_url : string)
    (session : Session) (categories_option tags_option : bool)
    (category_dict tag_dict : table) (index total_posts : nat)
    (posts : list json) (csv_data : list row) (w : world) :
  exists d : list event,
    snd (build_rows base_site_url session categories_option tags_option
           category_dict tag_dict index total_posts posts csv_data w) = extends w d /\
    (List.length (calls d) <= List.length posts)%nat /\
    Forall (fun q => exists media_id, q = media_request base_site_url media_id) (calls d).
Proof.
  exact (emits_build_rows base_site_url session categories_option tags_option
           category_dict tag_dict total_posts posts index csv_data w).
Qed.

(** ** The requests of a run *)

Lemma emits_fetch_all_pages_each (fuel : nat) (base_url : string) (params : dict)
    (item_name : string) (session : Session) (P : request -> Prop) :
  (forall p, P (page_request base_url params p)) ->
  emits (fetch_all_pages fuel base_url params item_name session) (Forall P).
Proof.
  intros HP w. unfold fetch_all_pages.
  destruct (fetch_loop_invariant base_url params item_name session fuel [] 1 w)
    as (k & d & _ & _ & Hw & Hc & _).
  exists d. split; [exact Hw|]. rewrite Hc. apply Forall_forall.
  intros q Hq. apply in_map_iff in Hq. destruct Hq as (p & <- & _). apply HP.
Qed.

Lemma emits_validate_each (urlparse : string -> exn + parsed_url) (url : string)
    (P : request -> Prop) :
  (forall parsed, urlparse url = inr parsed -> P (api_root parsed)) ->
  emits (validate_wordpress_site urlparse url) (Forall P).
Proof.
  intros HP. unfold validate_wordpress_site.
  destruct (urlparse url) as [e|parsed] eqn:Hparse.
  - apply emits_quiet_each. auto with quiet.
  - destruct ((scheme parsed =? "")%string || (netloc parsed =? "")%string).
    + apply emits_quiet_each. auto with quiet.
    + apply emits_try_each; [|intros e; apply emits_quiet_each; auto with quiet].
      apply emits_bind_each.
      * apply emits_requests_get_each. exact (HP parsed eq_refl).
      * intros response. apply emits_quiet_each. quiet.
Qed.

Lemma emits_main (urlparse : string -> exn + parsed_url) (fuel : nat)
    (base_site_url : string) (categories_option tags_option button : bool) :
  emits (main urlparse fuel base_site_url categories_option tags_option button)
    (Forall (allowed_request urlparse base_site_url categories_option tags_option)).
Proof.
  set (P := allowed_request urlparse base_site_url categories_option tags_option).
  assert (Hquiet : forall (A : Type) (m : M A), emits m (fun l => l = []) -> emits m (Forall P)).
  { intros A m. apply emits_quiet_each. }
  unfold main. destruct button; [|apply Hquiet; auto with quiet].
  apply emits_bind_each.
  { apply emits_validate_each. intros parsed Hparse. left. exists parsed. auto. }
  intros [is_valid_url error_message].
  destruct is_valid_url; cbn [negb]; [|apply Hquiet; auto with quiet].
  apply emits_try_each; [|intros e; apply Hquiet; auto with quiet].
  apply emits_bind_each; [|intros built; apply Hquiet; quiet].
  unfold fetch_and_build.
  apply emits_bind_each.
  { unfold fetch_all_published_posts. apply emits_fetch_all_pages_each.
    intros p. right. left. exists p. reflexivity. }
  intros posts. destruct posts as [|post posts]; [apply Hquiet; quiet|].
  apply emits_bind_each; [apply Hquiet; auto with quiet|intros _].
  apply emits_bind_each.
  { subst P. destruct categories_option; [|apply emits_quiet_each; auto with quiet].
    unfold fetch_all_categories. apply emits_bind_each.
    - apply emits_fetch_all_pages_each. intros p. right. right. left.
      split; [reflexivity|]. exists p. reflexivity.
    - intros categories. apply emits_quiet_each. quiet. }
  intros category_dict.
  apply emits_bind_each.
  { subst P. destruct tags_option; [|apply emits_quiet_each; auto with quiet].
    unfold fetch_all_tags. apply emits_bind_each.
    - apply emits_fetch_all_pages_each. intros p. right. right. right. left.
      split; [reflexivity|]. exists p. reflexivity.
    - intros tags. apply emits_quiet_each. quiet. }
  intros tag_dict.
  apply emits_bind_each; [apply Hquiet; auto with quiet|intros _].
  apply emits_bind_each; [|intros csv_data; apply Hquiet; quiet].
  eapply emits_weaken; [apply emits_build_rows|].
  intros l [_ Hall]. eapply Forall_impl; [|exact Hall].
  intros q [media_id ->]. right. right. right. right. exists media_id. reflexivity.
Qed.

(** X13.  The GETs a run of [main] asks of requests are nothing but: the
    REST root of the URL as parsed, pages of the collection of posts of the
    site as entered (with the parameters status, per_page, _fields, _embed
    and page), pages of its categories if that option is on, pages of its
    tags if that option is on, and single media items.  What goes on the wire
    besides is what requests adds: the retries of the session and the
    redirects the site sends. *)
Theorem main_only_asks_the_site (urlparse : string -> exn + parsed_url) (fuel : nat)
    (base_site_url : string) (categories_option tags_option button : bool) (w : world) :
  exists d : list event,
    snd (main urlparse fuel base_site_url categories_option tags_option button w)
    = extends w d /\
    Forall (allowed_request urlparse base_site_url categories_option tags_option) (calls d).
Proof.
  exact (emits_main urlparse fuel base_site_url categories_option tags_option button w).
Qed.

(** ** [main] as a whole *)

(** X14.  The calls [fetch_all_published_posts] makes are, for consecutive
    pages from 1, GETs of [{site}/wp-json/wp/v2/posts] with exactly the
    parameters status=publish, per_page=100, the field list (with categories
    and tags only under their options), _embed=wp:featuredmedia and the
    page, in that order. *)
Theorem fetch_all_published_posts_requests
    (fuel : nat) (base_site_url : string) (session : Session)
    (categories_option tags_option : bool) (w : world) :
  exists k : nat,
    (k <= fuel)%nat /\
    calls (trace (snd (fetch_all_published_posts fuel base_site_url session
                         categories_option tags_option w)))
    = (calls (trace w)
       ++ map (fun p =>
                 Request (base_site_url ++ "/wp-json/wp/v2/posts")
                   [("status", JStr "publish");
                    ("per_page", JInt 100);
                    ("_fields", JStr ("link,title,content,featured_media"
                                      ++ (if categories_option then ",categories" else "")
                                      ++ (if tags_option then ",tags" else "")));
                    ("_embed", JStr "wp:featuredmedia");
                    ("page", JInt p)])
            (page_numbers 1 k))%list.
Proof.
  unfold fetch_all_published_posts, fetch_all_pages.
  destruct (fetch_loop_invariant (base_site_url ++ "/wp-json/wp/v2/posts")
              (posts_params categories_option tags_option) "articles" session fuel [] 1 w)
    as (k & d & Hk & _ & Hw & Hc & _).
  exists k. split; [exact Hk|]. rewrite Hw. cbn [trace extends]. rewrite calls_app, Hc.
  f_equal. apply map_ext. intros p.
  destruct categories_option, tags_option; reflexivity.
Qed.

Lemma validate_wordpress_site_raises (urlparse : string -> exn + parsed_url)
    (url : string) (w w1 : world) (e : exn) :
  validate_wordpress_site urlparse url w = (Raised e, w1) ->
  urlparse url = inl e \/
  (is_request_exception e = false /\
   exists parsed, urlparse url = inr parsed /\
                  fst (requests_get (req_url (api_root parsed)) w) = Raised e).
Proof.
  rewrite validate_wordpress_site_cases.
  destruct (urlparse url) as [e'|parsed]; [intros H; injection H as <- _; now left|].
  destruct ((scheme parsed =? "")%string || (netloc parsed =? "")%string);
    [discriminate|].
  destruct (fst (requests_get (req_url (api_root parsed)) w)) as [r|e'|] eqn:Hget;
    cbn [validation_of].
  - destruct (status_code r =? 200); discriminate.
  - destruct (is_request_exception e') eqn:He; [discriminate|].
    intros H. injection H as <- _. right. split; [exact He|].
    exists parsed. split; [reflexivity|exact Hget].
  - discriminate.
Qed.

(** X15.  [main] lets no exception out but those of the validation, which it
    makes before its [try] block: the one [urlparse] raises on the URL
    entered, or one that is no request exception and that requests lets out
    of the GET of the REST root.  Whatever happens after the validation is
    caught. *)
Theorem main_raises_only_from_validation (urlparse : string -> exn + parsed_url)
    (fuel : nat) (base_site_url : string) (categories_option tags_option button : bool)
    (w : world) :
  match fst (main urlparse fuel base_site_url categories_option tags_option button w) with
  | Raised e =>
      button = true /\
      fst (validate_wordpress_site urlparse base_site_url w) = Raised e /\
      (urlparse base_site_url = inl e \/
       (is_request_exception e = false /\
        exists parsed, urlparse base_site_url = inr parsed /\
                       fst (requests_get (req_url (api_root parsed)) w) = Raised e))
  | _ => True
  end.
Proof.
  unfold main. destruct button; [|exact I].
  unfold bind at 1.
  destruct (validate_wordpress_site urlparse base_site_url w)
    as [[[is_valid_url error_message]|e|] w1] eqn:Hval.
  - destruct is_valid_url; cbn [negb]; [|exact I].
    unfold try_except.
    match goal with
    | |- match fst (match ?body w1 with _ => _ end) with _ => _ end =>
        destruct (body w1) as [[a|e|] w2]; exact I
    end.
  - cbn [fst]. split; [reflexivity|]. split; [reflexivity|].
    exact (validate_wordpress_site_raises urlparse base_site_url w w1 e Hval).
  - exact I.
Qed.

Lemma validate_wordpress_site_trace (urlparse : string -> exn + parsed_url)
    (url : string) (w : world) :
  exists d : list event,
    snd (validate_wordpress_site urlparse url w) = extends w d /\
    (calls d = [] \/ exists parsed, urlparse url = inr parsed /\
                                    calls d = [api_root parsed]) /\
    tables d = [].
Proof.
  rewrite validate_wordpress_site_cases.
  destruct (urlparse url) as [e|parsed] eqn:Hparse.
  - exists []. rewrite extends_nil. repeat split. now left.
  - destruct ((scheme parsed =? "")%string || (netloc parsed =? "")%string).
    + exists []. rewrite extends_nil. repeat split. now left.
    + destruct (requests_get_lands (req_url (api_root parsed)) w)
        as (hops & out & _ & _ & Hget).
      exists (Call (api_root parsed) :: map Attempt hops).
      rewrite Hget. cbn [snd]. split; [reflexivity|]. split.
      * right. exists parsed. split; [reflexivity|].
        cbn [calls]. now rewrite calls_attempts.
      * cbn [tables]. apply tables_attempts.
Qed.

(** X16.  When validation does not succeed, [main] shows the validation
    error and stops: it fetches nothing, so that the probe of the REST root,
    if it was made, is the only call of the run. *)
Theorem main_stops_after_failed_validation (urlparse : string -> exn + parsed_url)
    (fuel : nat) (base_site_url : string) (categories_option tags_option : bool)
    (w : world) (msg : string) :
  fst (validate_wordpress_site urlparse base_site_url w) = Val (false, msg) ->
  exists d : list event,
    main urlparse fuel base_site_url categories_option tags_option true w
    = (Val tt, extends w (d ++ [StError ("URL Validation Error: " ++ msg)])) /\
    (calls d = [] \/ exists parsed, urlparse base_site_url = inr parsed /\
                                    calls d = [api_root parsed]) /\
    tables (d ++ [StError ("URL Validation Error: " ++ msg)]) = [].
Proof.
  intros Hval.
  destruct (validate_wordpress_site_trace urlparse base_site_url w)
    as (d & Hd & Hcalls & Htables).
  exists d. split; [|split; [exact Hcalls|]].
  - unfold main. unfold bind at 1.
    destruct (validate_wordpress_site urlparse base_site_url w) as [v w1].
    cbn [fst snd] in Hval, Hd. subst v w1. cbn [negb].
    unfold emit, extends. cbn [net trace]. now rewrite app_assoc.
  - clear -Htables. induction d as [|e d IH]; [reflexivity|].
    destruct e; cbn in *; try exact (IH Htables). discriminate.
Qed.

Lemma main_stops_after_failed_validation_witness :
  exists d : list event,
    main plain_urlparse 3 "https://ex.org" true true true (fresh rest_root_missing)
    = (Val tt,
       extends (fresh rest_root_missing)
         (d ++ [StError "URL Validation Error: REST API returned status code 404."])) /\
    (calls d = [] \/ exists parsed, plain_urlparse "https://ex.org" = inr parsed /\
                                    calls d = [api_root parsed]) /\
    tables (d ++ [StError "URL Validation Error: REST API returned status code 404."]) = [].
Proof.
  exact (main_stops_after_failed_validation plain_urlparse 3 "https://ex.org" true true
           (fresh rest_root_missing) "REST API returned status code 404." eq_refl).
Defined.

(** X17.  When validation succeeds and the first page of posts cannot be
    fetched, [main] shows the fetcher's error, then the warning that no
    articles were found, and stops: nothing else is asked of the site and no
    table is shown. *)
Theorem main_without_first_page (urlparse : string -> exn + parsed_url)
    (fuel : nat) (base_site_url : string) (categories_option tags_option : bool)
    (w w1 : world) (got : res response) (w2 : world) :
  validate_wordpress_site urlparse base_site_url w = (Val (true, ""), w1) ->
  session_get main_session (base_site_url ++ "/wp-json/wp/v2/posts")
    (dict_set "page" (JInt 1) (posts_params categories_option tags_option)) w1
  = (got, w2) ->
  failed got ->
  exists msg,
    main urlparse (S fuel) base_site_url categories_option tags_option true w
    = (Val tt, extends w2 [StError msg; StWarning "No articles found."]).
Proof.
  intros Hval Hget Hfail.
  destruct (fetch_page_failed (base_site_url ++ "/wp-json/wp/v2/posts")
              (dict_set "page" (JInt 1) (posts_params categories_option tags_option))
              "articles" main_session [] 1 w1 got w2 Hget Hfail) as [msg Hturn].
  exists msg. unfold main. unfold bind at 1. rewrite Hval. cbn [negb].
  unfold try_except, fetch_and_build, fetch_all_published_posts, fetch_all_pages.
  unfold bind at 1. unfold bind at 1.
  rewrite (fetch_loop_stop fuel _ (posts_params categories_option tags_option)
             _ _ _ _ _ _ _ Hturn).
  unfold bind, emit, ret, extends. cbn [net trace]. now rewrite <- app_assoc.
Qed.

Lemma main_without_first_page_witness :
  exists msg,
    main plain_urlparse 1 "https://ex.org" true true true (fresh posts_missing)
    = (Val tt,
       extends (snd (session_get main_session "https://ex.org/wp-json/wp/v2/posts"
                       (dict_set "page" (JInt 1) (posts_params true true))
                       (snd (validate_wordpress_site plain_urlparse "https://ex.org"
                               (fresh posts_missing)))))
         [StError msg; StWarning "No articles found."]).
Proof.
  refine (main_without_first_page plain_urlparse 0 "https://ex.org" true true
            (fresh posts_missing)
            (snd (validate_wordpress_site plain_urlparse "https://ex.org"
                    (fresh posts_missing)))
            (fst (session_get main_session "https://ex.org/wp-json/wp/v2/posts"
                    (dict_set "page" (JInt 1) (posts_params true true))
                    (snd (validate_wordpress_site plain_urlparse "https://ex.org"
                            (fresh posts_missing)))))
            _ _ _ _).
  - reflexivity.
  - reflexivity.
  - cbn. discriminate.
Defined.

Lemma tables_app (t u : list event) : tables (t ++ u) = (tables t ++ tables u)%list.
Proof.
  induction t as [|e t IH]; simpl; [reflexivity|].
  destruct e; simpl; rewrite IH; reflexivity.
Qed.

(** The loop over plain posts shows its progress and nothing else. *)
Lemma build_rows_plain_progress (base_site_url : string) (session : Session)
    (categories_option tags_option : bool) (categories tags : list (json * string))
    (total_posts : nat) (posts : list json) :
  Forall plain_post posts ->
  forall (index : nat) (csv_data : list row) (w : world),
  exists rows d,
    build_rows base_site_url session categories_option tags_option
      (names_table categories) (names_table tags) index total_posts posts csv_data w
    = (Val rows, extends w d) /\
    calls d = [] /\ wire d = [] /\ tables d = [].
Proof.
  induction 1 as [|post posts Hpost Hposts IH]; intros index csv_data w; cbn [build_rows].
  - exists csv_data, []. rewrite extends_nil. repeat split.
  - destruct (post_row_plain base_site_url session categories_option tags_option
                categories tags index total_posts post w Hpost) as [r Hr].
    unfold bind. rewrite Hr.
    destruct (IH (S index) (csv_data ++ [r])%list
                (extends w [StatusText ("Processing article " ++ str_of_nat index ++ "/"
                                        ++ str_of_nat total_posts);
                            Progress index total_posts]))
      as (rows & d & -> & Hc & Hw & Ht).
    eexists rows, _. rewrite extends_extends. split; [reflexivity|].
    rewrite calls_app, wire_app, tables_app, Hc, Hw, Ht. repeat split.
Qed.

(** X18.  A whole run that succeeds.  When validation passes, the posts
    fetched are post records whose images are embedded or absent, and the
    dictionaries asked for are fetched with strings for names, [main] builds
    its rows without another request, shows the table once and offers the
    same rows for download; there is one row per post fetched, in order, with
    the columns the options ask for. *)
Theorem main_shows_one_row_per_post (urlparse : string -> exn + parsed_url)
    (fuel : nat) (base_site_url : string) (categories_option tags_option : bool)
    (posts : list json) (categories tags : list (json * string))
    (w w1 w2 w3 w4 : world) :
  validate_wordpress_site urlparse base_site_url w = (Val (true, ""), w1) ->
  fetch_all_published_posts fuel base_site_url main_session
    categories_option tags_option w1 = (Val posts, w2) ->
  posts <> [] ->
  Forall plain_post posts ->
  (if categories_option
   then fetch_all_categories fuel base_site_url main_session
          (extends w2 [StSuccess ("Total articles fetched: "
                                  ++ str_of_nat (List.length posts))])
        = (Val (names_table categories), w3)
   else categories = [] /\
        w3 = extends w2 [StSuccess ("Total articles fetched: "
                                    ++ str_of_nat (List.length posts))]) ->
  (if tags_option
   then fetch_all_tags fuel base_site_url main_session w3 = (Val (names_table tags), w4)
   else tags = [] /\ w4 = w3) ->
  exists (rows : list row) (d : list event),
    main urlparse fuel base_site_url categories_option tags_option true w
    = (Val tt,
       extends w4 (ProgressStart :: d
                   ++ [ProgressEmpty; StatusText "Processing completed.";
                       Dataframe rows; DownloadButton rows])) /\
    calls d = [] /\ wire d = [] /\ tables d = [] /\
    List.length rows = List.length posts /\
    Forall2 (row_of categories_option tags_option) posts rows.
Proof.
  intros Hval Hposts Hne Hplain Hcats Htags.
  set (w2' := extends w2 [StSuccess ("Total articles fetched: "
                                     ++ str_of_nat (List.length posts))]) in *.
  assert (Hc : (if categories_option
                then fetch_all_categories fuel base_site_url main_session
                else ret []) w2' = (Val (names_table categories), w3)).
  { destruct categories_option; [exact Hcats|]. destruct Hcats as [-> ->]. reflexivity. }
  assert (Ht : (if tags_option
                then fetch_all_tags fuel base_site_url main_session
                else ret []) w3 = (Val (names_table tags), w4)).
  { destruct tags_option; [exact Htags|]. destruct Htags as [-> ->]. reflexivity. }
  destruct (build_rows_plain_progress base_site_url main_session categories_option
              tags_option categories tags (List.length posts) posts Hplain 1 []
              (extends w4 [ProgressStart])) as (rows & d & Hrows & Hdc & Hdw & Htab).
  assert (Hshape := yields_build_rows base_site_url main_session categories_option
                      tags_option (names_table categories) (names_table tags)
                      (List.length posts) posts 1 [] (extends w4 [ProgressStart])).
  rewrite Hrows in Hshape. cbn [fst app] in Hshape. destruct Hshape as (new & -> & Hnew).
  exists new, d. split; [|repeat split; auto].
  - unfold main. unfold bind at 1. rewrite Hval. cbn [negb].
    unfold try_except, fetch_and_build. unfold bind at 1. unfold bind at 1.
    rewrite Hposts. destruct posts as [|post posts']; [congruence|].
    unfold bind at 1. unfold emit at 1. cbn beta iota.
    fold (extends w2 [StSuccess ("Total articles fetched: "
                                 ++ str_of_nat (List.length (post :: posts')))]).
    fold w2'. unfold bind at 1. rewrite Hc. unfold bind at 1. rewrite Ht.
    unfold bind at 1. unfold emit at 1. cbn beta iota.
    fold (extends w4 [ProgressStart]).
    unfold bind at 1. rewrite Hrows.
    unfold bind, emit, ret, extends. cbn [net trace].
    rewrite <- !app_assoc. reflexivity.
  - symmetry. eapply Forall2_length. exact Hnew.
Qed.

Lemma main_shows_one_row_per_post_witness :
  let posts := [JObj post_with_embed; JObj post_without_image] in
  let w1 := snd (validate_wordpress_site plain_urlparse "https://ex.org"
                   (fresh steady_site)) in
  let w2 := snd (fetch_all_published_posts 2 "https://ex.org" main_session true false w1) in
  let w3 := snd (fetch_all_categories 2 "https://ex.org" main_session
                   (extends w2 [StSuccess "Total articles fetched: 2"])) in
  exists (rows : list row) (d : list event),
    main plain_urlparse 2 "https://ex.org" true false true (fresh steady_site)
    = (Val tt,
       extends w3 (ProgressStart :: d
                   ++ [ProgressEmpty; StatusText "Processing completed.";
                       Dataframe rows; DownloadButton rows])) /\
    calls d = [] /\ wire d = [] /\ tables d = [] /\
    List.length rows = 2%nat /\
    Forall2 (row_of true false) posts rows.
Proof.
  intros posts w1 w2 w3.
  refine (main_shows_one_row_per_post plain_urlparse 2 "https://ex.org" true false
            posts [(JInt 1, "News")] [] (fresh steady_site) w1 w2 w3 w3 _ _ _ _ _ _).
  - reflexivity.
  - reflexivity.
  - discriminate.
  - constructor; [|constructor; [|constructor]].
    + exists post_with_embed. split; [reflexivity|].
      split; [eexists; reflexivity|]. split; [eexists; reflexivity|].
      split; [right; do 3 eexists; repeat split; reflexivity|].
      split; [right; eexists; split; [reflexivity|repeat constructor]|left; reflexivity].
    + exists post_without_image. split; [reflexivity|].
      split; [eexists; reflexivity|]. split; [eexists; reflexivity|].
      split; [left; reflexivity|]. split; left; reflexivity.
  - reflexivity.
  - split; reflexivity.
Defined.

(** ** The media lookup answered *)

(** X19.  The lookup of a media item answered 200: the image URL is the
    [source_url] of the object received, or the empty string when the object
    has none; a body that is not JSON gives a warning and the empty string;
    a JSON body that is not an object makes [get_image_url] raise an
    [AttributeError]. *)
Theorem get_image_url_lookup_answered (post : dict) (base_site_url : string)
    (session : Session) (w : world) (r : response) :
  let media_id := featured_media_of post in
  let q := media_request base_site_url media_id in
  let w1 := extends w [Call q; Attempt q] in
  truthy media_id = true ->
  (embedded_payload post = Some [] \/
   exists entry rest, embedded_payload post = Some (JObj entry :: rest) /\
                      dict_lookup "source_url" entry = None) ->
  passes_200 session ->
  net w (wire (trace w)) q = Answer r ->
  status_code r = 200 ->
  get_image_url (JObj post) base_site_url session w
  = match resp_body r with
    | Json (JObj media) => (Val (lookup_or media "source_url" (JStr "")), w1)
    | Json v =>
        (Raised (Exn AttributeError ("'" ++ type_name v ++ "' object has no attribute 'get'")),
         w1)
    | NotJson msg =>
        (Val (JStr ""),
         extends w1 [StWarning ("Failed to fetch media ID " ++ py_str media_id ++ ": "
                                ++ msg)])
    end.
Proof.
  intros media_id q w1 Hfm Hemb Hs Hnet Hst.
  rewrite (get_image_url_fallback post base_site_url session w Hfm Hemb).
  unfold try_except, bind.
  rewrite (session_get_once session
             (req_url (media_request base_site_url (featured_media_of post))) [] w r
             Hnet (forced_200 session r Hs Hst)
             (redirect_location_200 r Hst)).
  rewrite Hst. cbn [Z.eqb Pos.eqb].
  unfold response_json. destruct (resp_body r) as [v|msg].
  - destruct v; reflexivity.
  - cbn. unfold extends. cbn [net trace]. reflexivity.
Qed.

Lemma get_image_url_lookup_answered_witness :
  let q := media_request "https://ex.org" (JInt 9) in
  get_image_url (JObj post_without_embed) "https://ex.org" main_session (fresh media_found)
  = (Val (JStr "https://ex.org/b.png"), extends (fresh media_found) [Call q; Attempt q]).
Proof.
  refine (get_image_url_lookup_answered post_without_embed "https://ex.org" main_session
            (fresh media_found)
            (Response 200 []
               (Json (JObj [("id", JInt 9); ("source_url", JStr "https://ex.org/b.png")])))
            _ _ _ _ _).
  - reflexivity.
  - left. reflexivity.
  - reflexivity.
  - reflexivity.
  - reflexivity.
Defined.

(** ** Names that cannot be joined *)

Lemma names_of_ids_result (names : table) (ids : list json) (w : world) :
  exists out : res (list json),
    names_of_ids names ids w = (out, w) /\
    match out with
    | Val _ => True
    | Raised e => exn_cls e = TypeError
    | OutOfFuel => False
    end.
Proof.
  induction ids as [|id ids (out & Hout & Hres)]; cbn [names_of_ids].
  - exists (Val []). split; [reflexivity|exact I].
  - unfold bind at 1. unfold table_get. destruct (hashable id); cbn [ret raise].
    + unfold bind at 1. rewrite Hout. destruct out as [l|e|].
      * eexists. split; [reflexivity|exact I].
      * exists (Raised e). split; [reflexivity|exact Hres].
      * contradiction.
    + eexists. split; [reflexivity|reflexivity].
Qed.

Lemma strings_of_error (l : list json) :
  forall (i : nat) (e : exn), strings_of i l = inl e -> exn_cls e = TypeError.
Proof.
  induction l as [|v l IH]; intros i e; cbn [strings_of]; [discriminate|].
  destruct v; try (intros H; injection H as <-; reflexivity).
  destruct (strings_of (S i) l) as [e'|ss] eqn:Hl; [|discriminate].
  intros H. injection H as <-. exact (IH (S i) e' Hl).
Qed.

Lemma joined_names_result (post : dict) (field : string) (names : table) (w : world) :
  exists out : res json,
    joined_names (JObj post) field names w = (out, w) /\
    match out with
    | Val v => exists s, v = JStr s
    | Raised e => exn_cls e = TypeError
    | OutOfFuel => False
    end.
Proof.
  unfold joined_names. unfold bind at 1. cbn [py_get ret].
  set (ids := match dict_lookup field post with Some x => x | None => JArr [] end).
  assert (Hjoin : forall l : list json,
            exists out : res json,
              py_join ", " l w = (out, w) /\
              match out with
              | Val v => exists s, v = JStr s
              | Raised e => exn_cls e = TypeError
              | OutOfFuel => False
              end).
  { intros l. unfold py_join. destruct (strings_of 0 l) as [e|ss] eqn:Hl.
    - exists (Raised e). split; [reflexivity|exact (strings_of_error l 0 e Hl)].
    - eexists. split; [reflexivity|]. eexists. reflexivity. }
  assert (Hnames : forall l : list json,
            exists out : res json,
              (resolved <- names_of_ids names l ;; py_join ", " resolved) w = (out, w) /\
              match out with
              | Val v => exists s, v = JStr s
              | Raised e => exn_cls e = TypeError
              | OutOfFuel => False
              end).
  { intros l. unfold bind.
    destruct (names_of_ids_result names l w) as (out & -> & Hres).
    destruct out as [l'|e|]; [apply Hjoin| |contradiction].
    exists (Raised e). split; [reflexivity|exact Hres]. }
  destruct (truthy ids).
  - unfold bind at 1. unfold bind at 1.
    destruct ids; cbn [py_iter ret raise];
      try (eexists; split; [reflexivity|reflexivity]).
    + apply (Hnames (chars s)).
    + apply (Hnames l).
    + apply (Hnames (map (fun kv => JStr (fst kv)) o)).
  - unfold bind. cbn [ret]. apply Hjoin.
Qed.

(** X20.  For a post that is a dict, the joined names of a field are a
    string, or the block raises a [TypeError] (an identifier list that cannot
    be iterated, an identifier that cannot be a key, a name that is not a
    string); it raises nothing else and shows nothing. *)
Theorem joined_names_string_or_type_error (post : dict) (field : string)
    (names : table) (w : world) :
  snd (joined_names (JObj post) field names w) = w /\
  match fst (joined_names (JObj post) field names w) with
  | Val v => exists s, v = JStr s
  | Raised e => exn_cls e = TypeError
  | OutOfFuel => False
  end.
Proof.
  destruct (joined_names_result post field names w) as (out & -> & Hres).
  split; [reflexivity|exact Hres].
Qed.

(** ** A site without posts *)

(** X21.  When validation succeeds and the first page of posts is an empty
    array with no further page announced, [main] shows the page status and
    the warning that no articles were found, and stops: no dictionary is
    fetched and no table is shown. *)
Theorem main_without_articles (urlparse : string -> exn + parsed_url)
    (fuel : nat) (base_site_url : string) (categories_option tags_option : bool)
    (w w1 : world) (r : response) (N : Z) :
  let q := page_request (base_site_url ++ "/wp-json/wp/v2/posts")
             (posts_params categories_option tags_option) 1 in
  validate_wordpress_site urlparse base_site_url w = (Val (true, ""), w1) ->
  net w1 (wire (trace w1)) q = Answer r ->
  status_code r = 200 ->
  resp_body r = Json (JArr []) ->
  (forall w', total_pages_of r w' = (Val N, w')) ->
  N <= 1 ->
  main urlparse (S fuel) base_site_url categories_option tags_option true w
  = (Val tt,
     extends w1 [Call q; Attempt q;
                 StatusText ("Fetching articles: Page 1/" ++ str_of_Z N);
                 StWarning "No articles found."]).
Proof.
  intros q Hval Hnet Hst Hbody Htot HN.
  assert (Hturn := fetch_page_ok _ _ "articles" main_session [] 1 w1 r [] N
                     main_session_passes_200 Hnet Hst Hbody Htot).
  assert (Hge : (1 >=? N) = true) by (apply Z.geb_le; lia).
  rewrite Hge in Hturn.
  unfold main. unfold bind at 1. rewrite Hval. cbn [negb].
  unfold try_except, fetch_and_build, fetch_all_published_posts, fetch_all_pages.
  unfold bind at 1. unfold bind at 1.
  rewrite (fetch_loop_stop fuel _ (posts_params categories_option tags_option)
             _ _ _ _ _ _ _ Hturn).
  cbn [app]. unfold bind, emit, ret, extends. cbn [net trace].
  rewrite <- app_assoc. reflexivity.
Qed.

Lemma main_without_articles_witness :
  let q := page_request "https://ex.org/wp-json/wp/v2/posts" (posts_params true true) 1 in
  main plain_urlparse 1 "https://ex.org" true true true (fresh no_posts)
  = (Val tt,
     extends (snd (validate_wordpress_site plain_urlparse "https://ex.org" (fresh no_posts)))
       [Call q; Attempt q; StatusText "Fetching articles: Page 1/0";
        StWarning "No articles found."]).
Proof.
  refine (main_without_articles plain_urlparse 0 "https://ex.org" true true
            (fresh no_posts)
            (snd (validate_wordpress_site plain_urlparse "https://ex.org" (fresh no_posts)))
            (page_of "0" []) 0 _ _ _ _ _ _).
  - reflexivity.
  - reflexivity.
  - reflexivity.
  - reflexivity.
  - intros w'. reflexivity.
  - lia.
Defined.

(** ** Reading back a printed number *)

Lemma digits_value_uint (d : Decimal.uint) :
  forall (acc : Z) (after_digit : bool),
  digits_value acc after_digit (list_ascii_of_string (NilEmpty.string_of_uint d))
  = match d with
    | Decimal.Nil => if after_digit then Some acc else None
    | _ => Some (uint_value acc d)
    end.
Proof.
  induction d as [|d IH|d IH|d IH|d IH|d IH|d IH|d IH|d IH|d IH|d IH];
    intros acc after_digit; [reflexivity|..];
    cbn [NilEmpty.string_of_uint list_ascii_of_string digits_value];
    (match goal with
     | |- context [digit_of ?c] =>
         let v := eval vm_compute in (digit_of c) in
         change (digit_of c) with v
     end);
    cbn beta iota; rewrite IH; cbn [uint_value]; destruct d; reflexivity.
Qed.

Lemma uint_value_acc (d : Decimal.uint) :
  forall acc : positive, uint_value (Z.pos acc) d = Z.pos (Pos.of_uint_acc d acc).
Proof.
  induction d as [|d IH|d IH|d IH|d IH|d IH|d IH|d IH|d IH|d IH|d IH];
    intros acc; cbn [uint_value Pos.of_uint_acc]; [reflexivity|..];
    rewrite <- IH; f_equal; lia.
Qed.

Lemma uint_value_of_uint (d : Decimal.uint) :
  uint_value 0 d = Z.of_N (Pos.of_uint d).
Proof.
  induction d as [|d IH|d IH|d IH|d IH|d IH|d IH|d IH|d IH|d IH|d IH];
    cbn [uint_value Pos.of_uint]; [reflexivity|exact IH|..];
    cbn [Z.mul Z.add Z.of_N]; apply uint_value_acc.
Qed.

Lemma uint_chars_not_space (d : Decimal.uint) :
  Forall (fun c => is_space c = false)
    (list_ascii_of_string (NilEmpty.string_of_uint d)).
Proof.
  induction d as [|d IH|d IH|d IH|d IH|d IH|d IH|d IH|d IH|d IH|d IH];
    cbn [NilEmpty.string_of_uint list_ascii_of_string]; constructor; auto.
Qed.

Lemma strip_no_space (l : list ascii) :
  Forall (fun c => is_space c = false) l -> strip l = l.
Proof.
  intros Hl. unfold strip.
  assert (Hdrop : forall l', Forall (fun c => is_space c = false) l' -> drop_spaces l' = l').
  { intros l' H. destruct H as [|c l' Hc _]; [reflexivity|]. cbn. now rewrite Hc. }
  rewrite (Hdrop l Hl), Hdrop; [apply rev_involutive|].
  apply Forall_rev. exact Hl.
Qed.

Lemma count_digits_uint (d : Decimal.uint) :
  count_digits (list_ascii_of_string (NilEmpty.string_of_uint d))
  = Z.of_nat (String.length (NilEmpty.string_of_uint d)).
Proof.
  induction d as [|d IH|d IH|d IH|d IH|d IH|d IH|d IH|d IH|d IH|d IH];
    [reflexivity|..];
    cbn [NilEmpty.string_of_uint list_ascii_of_string count_digits String.length];
    (match goal with
     | |- context [digit_of ?c] =>
         let v := eval vm_compute in (digit_of c) in
         change (digit_of c) with v
     end);
    cbn beta iota; rewrite IH; lia.
Qed.

Lemma unsigned_uint (d : Decimal.uint) :
  unsigned (list_ascii_of_string (NilEmpty.string_of_uint d))
  = list_ascii_of_string (NilEmpty.string_of_uint d).
Proof. destruct d; reflexivity. Qed.

(** [int] of a numeral without sign, and of the same after a minus sign. *)
Lemma int_literal_uint (d : Decimal.uint) :
  d <> Decimal.Nil ->
  let digits := Z.of_nat (String.length (NilEmpty.string_of_uint d)) in
  int_literal (NilEmpty.string_of_uint d)
  = (if max_str_digits <? digits then None else Some (uint_value 0 d)) /\
  int_literal (String "-" (NilEmpty.string_of_uint d))
  = (if max_str_digits <? digits then None else Some (- uint_value 0 d)).
Proof.
  intros Hnn digits.
  assert (Hdig := digits_value_uint d 0 false).
  assert (Hsp := uint_chars_not_space d).
  assert (Hcount := count_digits_uint d). fold digits in Hcount.
  assert (Hun := unsigned_uint d).
  assert (Hvalue : digits_value 0 false (list_ascii_of_string (NilEmpty.string_of_uint d))
                   = Some (uint_value 0 d)).
  { rewrite Hdig. destruct d; [congruence|reflexivity..]. }
  split; unfold int_literal.
  - rewrite (strip_no_space _ Hsp). cbv zeta. rewrite Hun, Hcount.
    destruct (max_str_digits <? digits); [reflexivity|].
    rewrite <- Hvalue. destruct d; [congruence|reflexivity..].
  - assert (Hstrip : strip (list_ascii_of_string (String "-" (NilEmpty.string_of_uint d)))
                     = "-"%char :: list_ascii_of_string (NilEmpty.string_of_uint d)).
    { apply strip_no_space. cbn [list_ascii_of_string].
      constructor; [reflexivity|exact Hsp]. }
    rewrite Hstrip. cbv zeta. cbn [unsigned]. rewrite Hcount.
    destruct (max_str_digits <? digits); [reflexivity|].
    rewrite Hvalue. reflexivity.
Qed.

(** A number printed as Python prints it is read back by [int] as the same
    number, unless its numeral is longer than [int] accepts. *)
Lemma int_literal_printed (z : Z) :
  int_literal (str_of_Z z)
  = if max_str_digits <? decimal_digits z then None else Some z.
Proof.
  destruct z as [|p|p]; [reflexivity|..];
    unfold decimal_digits, str_of_Z; cbn [Z.abs Z.to_int NilZero.string_of_int];
    assert (Hnn := DecimalPos.Unsigned.to_uint_nonnil p);
    assert (Hval : uint_value 0 (Pos.to_uint p) = Z.pos p)
      by (rewrite uint_value_of_uint, DecimalPos.Unsigned.of_to; reflexivity);
    destruct (int_literal_uint (Pos.to_uint p) Hnn) as [Hplus Hminus];
    rewrite Hval in Hplus, Hminus;
    assert (Hstr : NilZero.string_of_uint (Pos.to_uint p)
                   = NilEmpty.string_of_uint (Pos.to_uint p))
      by (unfold NilZero.string_of_uint; destruct (Pos.to_uint p); [congruence|reflexivity..]);
    rewrite Hstr.
  - exact Hplus.
  - exact Hminus.
Qed.

Lemma int_literal_small (z : Z) : 0 <= z <= 100 -> int_literal (str_of_Z z) = Some z.
Proof.
  intros Hz. rewrite int_literal_printed.
  assert (Hn : exists n : nat, (n <= 100)%nat /\ z = Z.of_nat n).
  { exists (Z.to_nat z). split; lia. }
  destruct Hn as (n & Hn & ->).
  do 101 (destruct n as [|n]; [reflexivity|]). lia.
Qed.

(** X22.  A number printed as Python prints it is read back by [int] as the
    same number, as long as its numeral has no more digits than [int]
    accepts: a total-pages header that is the decimal numeral of [N] makes
    [total_pages_of] give [N] when [N] has at most 4300 digits, and raise a
    [ValueError] when it has more. *)
Theorem total_pages_of_printed (r : response) (N : Z) (w : world) :
  header_lookup "X-WP-TotalPages" (headers r) = Some (str_of_Z N) ->
  (decimal_digits N <= max_str_digits -> total_pages_of r w = (Val N, w)) /\
  (max_str_digits < decimal_digits N ->
   exists msg, total_pages_of r w = (Raised (Exn ValueError msg), w)).
Proof.
  intros Hh. unfold total_pages_of, py_int. rewrite Hh, int_literal_printed. split; intros Hd.
  - destruct (Z.ltb_spec max_str_digits (decimal_digits N)); [lia|reflexivity].
  - destruct (Z.ltb_spec max_str_digits (decimal_digits N)); [|lia].
    eexists. reflexivity.
Qed.

Lemma total_pages_of_printed_witness :
  total_pages_of (page_of "137" []) (fresh rest_root_ok) = (Val 137, fresh rest_root_ok).
Proof.
  refine (proj1 (total_pages_of_printed (page_of "137" []) 137 (fresh rest_root_ok) eq_refl) _).
  vm_compute. discriminate.
Defined.

(** ** No limit on the pages *)

Lemma fetch_loop_without_end (base_url : string) (params : dict) (item_name : string)
    (session : Session) (site : server) (fuel : nat) :
  passes_200 session ->
  forall (all_items : list json) (page : Z) (w : world),
  net w = site ->
  (forall (history : list request) (p : Z),
     page <= p < page + Z.of_nat fuel ->
     exists r N, site history (page_request base_url params p) = Answer r /\
                 page_with_total N r /\ p < N) ->
  fst (fetch_loop fuel base_url params item_name session all_items page w) = OutOfFuel.
Proof.
  intros Hs. induction fuel as [|fuel IH]; intros acc p w Hnet Hsite; [reflexivity|].
  destruct (Hsite (wire (trace w)) p ltac:(lia))
    as (r & N & Hr & (Hst & (h & Hh & Hi) & (items & Hb)) & Hlt).
  rewrite <- Hnet in Hr.
  assert (Hturn := fetch_page_ok _ _ item_name session acc p w r items N Hs Hr Hst Hb
                     (fun w' => total_pages_of_header r h N w' Hh Hi)).
  assert (Hge : (p >=? N) = false).
  { destruct (Z.geb_spec p N); [lia|reflexivity]. }
  rewrite Hge in Hturn.
  rewrite (fetch_loop_continue fuel _ _ _ _ _ _ _ _ _ _ Hturn).
  apply IH; [exact Hnet|].
  intros history p' Hp'. apply Hsite. lia.
Qed.

(** X23.  The fetcher has no limit of its own on the number of pages: as
    long as the site answers the pages asked with good pages announcing more,
    it goes on; when this holds of the pages 1 to [fuel], the run is cut off
    after exactly [fuel] calls, for the pages 1, 2, 3, ... in order. *)
Theorem fetch_all_pages_has_no_page_limit
    (fuel : nat) (base_url : string) (params : dict) (item_name : string)
    (session : Session) (w : world) :
  passes_200 session ->
  (forall (history : list request) (p : Z),
     1 <= p <= Z.of_nat fuel ->
     exists r N, net w history (page_request base_url params p) = Answer r /\
                 page_with_total N r /\ p < N) ->
  fst (fetch_all_pages fuel base_url params item_name session w) = OutOfFuel /\
  calls (trace (snd (fetch_all_pages fuel base_url params item_name session w)))
  = (calls (trace w) ++ map (page_request base_url params) (page_numbers 1 fuel))%list.
Proof.
  intros Hs Hsite. unfold fetch_all_pages.
  assert (Hout : fst (fetch_loop fuel base_url params item_name session [] 1 w) = OutOfFuel).
  { apply (fetch_loop_without_end base_url params item_name session (net w) fuel
             Hs [] 1 w eq_refl).
    intros history p Hp. apply Hsite. lia. }
  split; [exact Hout|].
  destruct (fetch_loop_invariant base_url params item_name session fuel [] 1 w)
    as (k & d & _ & _ & Hw & Hc & Hk).
  rewrite Hout in Hk. subst k. rewrite Hw. cbn [trace extends]. now rewrite calls_app, Hc.
Qed.

Lemma fetch_all_pages_has_no_page_limit_witness :
  fst (fetch_all_pages 50 "u" [] "articles" main_session (fresh one_more_page)) = OutOfFuel /\
  calls (trace (snd (fetch_all_pages 50 "u" [] "articles" main_session
                       (fresh one_more_page))))
  = (calls (trace (fresh one_more_page))
     ++ map (page_request "u" []) (page_numbers 1 50))%list.
Proof.
  refine (fetch_all_pages_has_no_page_limit 50 "u" [] "articles" main_session
            (fresh one_more_page) _ _).
  - reflexivity.
  - intros history p Hp. exists (page_of (str_of_Z (p + 1)) [JStr "post"]), (p + 1).
    split; [reflexivity|]. split; [|lia].
    split; [reflexivity|]. split.
    + exists (str_of_Z (p + 1)). split; [reflexivity|apply int_literal_small; lia].
    + eexists. reflexivity.
Defined.

(** ** The validator's result, the page parameter, the row of a post *)

(** X24.  [validate_wordpress_site] returns a pair, [(True, "")] or [False]
    with a message that is not empty, or raises: what [urlparse] raises on
    the URL, or an exception that is no request exception and comes out of
    the GET of the REST root.  No request exception comes out of it. *)
Theorem validate_wordpress_site_returns (urlparse : string -> exn + parsed_url)
    (url : string) (w : world) :
  match fst (validate_wordpress_site urlparse url w) with
  | Val (is_valid, message) =>
      (is_valid = true /\ message = "") \/ (is_valid = false /\ message <> "")
  | Raised e =>
      urlparse url = inl e \/
      (is_request_exception e = false /\
       exists parsed, urlparse url = inr parsed /\
                      fst (requests_get (req_url (api_root parsed)) w) = Raised e)
  | OutOfFuel => False
  end.
Proof.
  destruct (validate_wordpress_site urlparse url w) as [[[is_valid message]|e|] w1] eqn:Hrun;
    cbn [fst].
  - rewrite validate_wordpress_site_cases in Hrun.
    destruct (urlparse url) as [e|parsed]; [discriminate|].
    destruct ((scheme parsed =? "")%string || (netloc parsed =? "")%string).
    + injection Hrun as <- <- _. right. split; [reflexivity|discriminate].
    + destruct (fst (requests_get (req_url (api_root parsed)) w)) as [r|e|];
        cbn [validation_of] in Hrun.
      * destruct (status_code r =? 200); injection Hrun as <- <- _.
        -- left. split; reflexivity.
        -- right. split; [reflexivity|discriminate].
      * destruct (is_request_exception e); [|discriminate].
        injection Hrun as <- <- _. right. split; [reflexivity|discriminate].
      * discriminate.
  - exact (validate_wordpress_site_raises urlparse url w w1 e Hrun).
  - rewrite validate_wordpress_site_cases in Hrun.
    destruct (urlparse url) as [e|parsed]; [discriminate|].
    destruct ((scheme parsed =? "")%string || (netloc parsed =? "")%string);
      [discriminate|].
    destruct (requests_get_trace (req_url (api_root parsed)) w) as (d & _ & _ & Hf).
    destruct (fst (requests_get (req_url (api_root parsed)) w)) as [r|e|];
      cbn [validation_of] in Hrun.
    + destruct (status_code r =? 200); discriminate.
    + destruct (is_request_exception e); discriminate.
    + congruence.
Qed.

Lemma dict_lookup_set (k k' : string) (v : json) (d : dict) :
  dict_lookup k' (dict_set k v d)
  = if (k' =? k)%string then Some v else dict_lookup k' d.
Proof.
  induction d as [|[k0 v0] d IH]; cbn [dict_set dict_lookup].
  - reflexivity.
  - destruct (k =? k0)%string eqn:Hk; cbn [dict_lookup].
    + apply String.eqb_eq in Hk. subst k0.
      destruct (k' =? k)%string; reflexivity.
    + rewrite IH. destruct (k' =? k0)%string eqn:Hk0; [|reflexivity].
      apply String.eqb_eq in Hk0. subst k0.
      rewrite String.eqb_sym in Hk. now rewrite Hk.
Qed.

(** X25.  Every request [fetch_all_pages] makes goes to the address of the
    caller and carries the caller's parameters with the values the caller
    gave, and a page number under [page]: a [page] of the caller's is
    replaced, nothing else is changed. *)
Theorem fetch_all_pages_keeps_parameters
    (fuel : nat) (base_url : string) (params : dict) (item_name : string)
    (session : Session) (w : world) :
  exists d : list event,
    snd (fetch_all_pages fuel base_url params item_name session w) = extends w d /\
    Forall (fun q =>
              req_url q = base_url /\
              (exists p, dict_lookup "page" (req_params q) = Some (JInt p)) /\
              (forall k, k <> "page" ->
                         dict_lookup k (req_params q) = dict_lookup k params))
      (calls d).
Proof.
  unfold fetch_all_pages.
  destruct (fetch_loop_invariant base_url params item_name session fuel [] 1 w)
    as (n & d & _ & _ & Hw & Hc & _).
  exists d. split; [exact Hw|]. rewrite Hc. apply Forall_forall.
  intros q Hq. apply in_map_iff in Hq. destruct Hq as (p & <- & _).
  unfold page_request. cbn [req_url req_params]. split; [reflexivity|]. split.
  - exists p. rewrite dict_lookup_set. reflexivity.
  - intros k Hk. rewrite dict_lookup_set.
    destruct (k =? "page")%string eqn:E; [|reflexivity].
    apply String.eqb_eq in E. contradiction.
Qed.

(** X26.  The row of a post record.  For a post with its title and content
    as objects, its image absent or embedded, and its identifiers plain, and
    with dictionaries whose names are strings, the loop body shows its
    progress and makes the row: link, rendered title, rendered content,
    image URL (the embedded one, or the empty string), then under their
    options the names of the categories and of the tags, each identifier
    replaced by its name or by "Unknown" and the names joined with ", ". *)
Theorem post_row_of_post_record (base_site_url : string) (session : Session)
    (categories_option tags_option : bool) (categories tags : list (json * string))
    (index total_posts : nat) (o title content : dict) (image : json)
    (category_ids tag_ids : list json) (w : world) :
  lookup_or o "title" (JObj []) = JObj title ->
  lookup_or o "content" (JObj []) = JObj content ->
  ((truthy (featured_media_of o) = false /\ image = JStr "") \/
   (exists entry rest,
      truthy (featured_media_of o) = true /\
      embedded_payload o = Some (JObj entry :: rest) /\
      dict_lookup "source_url" entry = Some image)) ->
  Forall (fun id => hashable id = true) category_ids ->
  (dict_lookup "categories" o = Some (JArr category_ids) \/
   (dict_lookup "categories" o = None /\ category_ids = [])) ->
  Forall (fun id => hashable id = true) tag_ids ->
  (dict_lookup "tags" o = Some (JArr tag_ids) \/
   (dict_lookup "tags" o = None /\ tag_ids = [])) ->
  post_row base_site_url session categories_option tags_option
    (names_table categories) (names_table tags) index total_posts (JObj o) w
  = (Val ([("url", lookup_or o "link" (JStr ""));
           ("title", lookup_or title "rendered" (JStr ""));
           ("content", lookup_or content "rendered" (JStr ""));
           ("image_url", image)]
          ++ (if categories_option
              then [("categories",
                     JStr (join ", " (map (display_name categories) category_ids)))]
              else [])
          ++ (if tags_option
              then [("tags", JStr (join ", " (map (display_name tags) tag_ids)))]
              else []))%list,
     extends w [StatusText ("Processing article " ++ str_of_nat index ++ "/"
                            ++ str_of_nat total_posts);
                Progress index total_posts]).
Proof.
  intros Ht Hc Himg Hcs Hcats Hts Htags.
  unfold post_row. unfold bind at 1. unfold emit at 1. cbn beta iota.
  unfold bind at 1. unfold emit at 1. cbn beta iota. cbn [net trace].
  rewrite <- app_assoc. cbn [app].
  fold (extends w [StatusText ("Processing article " ++ str_of_nat index ++ "/"
                               ++ str_of_nat total_posts);
                   Progress index total_posts]).
  set (w' := extends w _).
  unfold bind at 1. cbn [py_get ret]. fold (lookup_or o "link" (JStr "")).
  unfold bind at 1. unfold bind at 1. cbn [py_get ret]. fold (lookup_or o "title" (JObj [])).
  rewrite Ht. cbn [py_get ret]. fold (lookup_or title "rendered" (JStr "")).
  unfold bind at 1. unfold bind at 1. cbn [py_get ret]. fold (lookup_or o "content" (JObj [])).
  rewrite Hc. cbn [py_get ret]. fold (lookup_or content "rendered" (JStr "")).
  assert (Hurl : get_image_url (JObj o) base_site_url session w' = (Val image, w')).
  { destruct Himg as [[H ->]|(entry & rest & H & Hemb & Hsrc)].
    - apply get_image_url_none. exact H.
    - eapply get_image_url_embedded; eassumption. }
  unfold bind at 1. rewrite Hurl.
  assert (Hcn := joined_names_typed o "categories" categories category_ids w' Hcs Hcats).
  assert (Htn := joined_names_typed o "tags" tags tag_ids w' Hts Htags).
  destruct categories_option, tags_option; unfold bind, ret;
    rewrite ?Hcn; cbn beta iota; rewrite ?Htn; cbn beta iota; reflexivity.
Qed.

Lemma post_row_of_post_record_witness :
  post_row "https://ex.org" main_session true true
    (names_table example_categories) (names_table []) 1 2 (JObj post_with_embed)
    (fresh rest_root_ok)
  = (Val [("url", JStr "https://ex.org/a"); ("title", JStr "A");
          ("content", JStr "<p>a</p>"); ("image_url", JStr "https://ex.org/a.png");
          ("categories", JStr "News, Unknown"); ("tags", JStr "")],
     extends (fresh rest_root_ok) [StatusText "Processing article 1/2"; Progress 1 2]).
Proof.
  refine (post_row_of_post_record "https://ex.org" main_session true true
            example_categories [] 1 2 post_with_embed
            [("rendered", JStr "A")] [("rendered", JStr "<p>a</p>")]
            (JStr "https://ex.org/a.png") [JInt 1; JInt 5] [] (fresh rest_root_ok)
            _ _ _ _ _ _ _).
  - reflexivity.
  - reflexivity.
  - right. do 2 eexists. repeat split; reflexivity.
  - repeat constructor.
  - left. reflexivity.
  - constructor.
  - right. split; reflexivity.
Defined.
